(** * jv: environment rewrite, package installation and self-update

    A shallow embedding of the state-mutating pipelines of the jv tool
    (internal/env, internal/installer, internal/config, internal/updater)
    and the properties its specification states about them.

    Go strings are byte strings; they are modelled by [string], whose
    characters are bytes.  The functions of Go's libraries that consult
    the Unicode tables or the platform's path rules are parameters of
    the embedding, with the laws the proofs use; the host, with the
    user at the keyboard, is a parameter as well. *)

From Stdlib Require Import String Ascii List ZArith NArith Bool Lia Arith.
From Stdlib Require Import Strings.Byte DecimalString.
From Stdlib Require Import OrdersEx Sorted Permutation.
Import ListNotations.
Local Open Scope list_scope.
Local Open Scope string_scope.

(** ** Package [strings]

    The functions of [strings] that work on bytes alone are embedded as
    they are.  [EqualFold], [ToLower], [ToUpper] and [TrimSpace] decode
    UTF-8 and consult the Unicode tables of the Go release the program
    is built with; the program only calls them, and they are fields of
    the record [Platform] below.  What the proofs use of them is stated
    in [Lawful].  On strings of ASCII bytes Go computes them by the
    tables of module [ASCII]. *)

Module strings.

Fixpoint HasPrefix (s prefix : string) : bool :=
  match prefix, s with
  | EmptyString, _ => true
  | String p prefix', String c s' => Ascii.eqb c p && HasPrefix s' prefix'
  | String _ _, EmptyString => false
  end.

Fixpoint Contains (s substr : string) : bool :=
  HasPrefix s substr ||
  match s with
  | EmptyString => false
  | String _ r => Contains r substr
  end.

(** [Split s sep] for a one-byte separator, the only use the program
    makes of it: the pieces between the separators, empty ones kept. *)
Fixpoint Split (s : string) (sep : ascii) : list string :=
  match s with
  | EmptyString => [EmptyString]
  | String c r =>
      if Ascii.eqb c sep then EmptyString :: Split r sep
      else match Split r sep with
           | piece :: rest => String c piece :: rest
           | [] => [String c EmptyString]
           end
  end.

Fixpoint Join (elems : list string) (sep : string) : string :=
  match elems with
  | [] => EmptyString
  | [e] => e
  | e :: rest => e ++ sep ++ Join rest sep
  end.

Definition TrimPrefix (s prefix : string) : string :=
  if HasPrefix s prefix then substring (String.length prefix) (String.length s - String.length prefix) s
  else s.

Fixpoint hasByte (c : ascii) (s : string) : bool :=
  match s with
  | EmptyString => false
  | String a r => Ascii.eqb a c || hasByte c r
  end.

End strings.

(** The ASCII tables: what [EqualFold], [ToLower], [ToUpper] and
    [TrimSpace] compute on strings all of whose bytes are below 0x80. *)
Module ASCII.

Definition isSpace (c : ascii) : bool :=
  let n := nat_of_ascii c in
  Nat.eqb n 9 || Nat.eqb n 10 || Nat.eqb n 11 || Nat.eqb n 12 || Nat.eqb n 13
  || Nat.eqb n 32.

Definition toLowerByte (c : ascii) : ascii :=
  let n := nat_of_ascii c in
  if Nat.leb 65 n && Nat.leb n 90 then ascii_of_nat (n + 32) else c.

Definition toUpperByte (c : ascii) : ascii :=
  let n := nat_of_ascii c in
  if Nat.leb 97 n && Nat.leb n 122 then ascii_of_nat (n - 32) else c.

Fixpoint ToLower (s : string) : string :=
  match s with
  | EmptyString => EmptyString
  | String c r => String (toLowerByte c) (ToLower r)
  end.

Fixpoint ToUpper (s : string) : string :=
  match s with
  | EmptyString => EmptyString
  | String c r => String (toUpperByte c) (ToUpper r)
  end.

(** equality up to the case of the ASCII letters *)
Fixpoint EqualFold (s t : string) : bool :=
  match s, t with
  | EmptyString, EmptyString => true
  | String a s', String b t' =>
      Ascii.eqb (toLowerByte a) (toLowerByte b) && EqualFold s' t'
  | _, _ => false
  end.

Fixpoint trimLeft (s : string) : string :=
  match s with
  | EmptyString => EmptyString
  | String c r => if isSpace c then trimLeft r else s
  end.

Fixpoint trimRight (s : string) : string :=
  match s with
  | EmptyString => EmptyString
  | String c r =>
      match trimRight r with
      | EmptyString => if isSpace c then EmptyString else String c EmptyString
      | r' => String c r'
      end
  end.

Definition TrimSpace (s : string) : string := trimRight (trimLeft s).

Fixpoint allSpaces (s : string) : bool :=
  match s with
  | EmptyString => true
  | String c r => isSpace c && allSpaces r
  end.

(** every byte is below 0x80 *)
Fixpoint isASCII (s : string) : bool :=
  match s with
  | EmptyString => true
  | String c r => Nat.ltb (nat_of_ascii c) 128 && isASCII r
  end.

End ASCII.

(** [Subsequence k l]: [k] is [l] with some elements left out, the
    others in their order. *)
Inductive Subsequence {A : Type} : list A -> list A -> Prop :=
| Subsequence_nil : Subsequence [] []
| Subsequence_skip x k l : Subsequence k l -> Subsequence k (x :: l)
| Subsequence_keep x k l : Subsequence k l -> Subsequence (x :: k) (x :: l).

(** ** The platform: what the Go libraries compute

    Go's [path/filepath] functions are the platform's, and the functions
    of [strings] named above are those of the Unicode tables; the
    program only calls them.  They are fields of a record the embedding
    is parametric in, together with the relation between a path and the
    tree below it that [os.RemoveAll] and [os.Rename] act on. *)

Record Platform : Type := {
  filepath_Join  : list string -> string;
  filepath_Dir   : string -> string;
  filepath_Clean : string -> string;
  (* [beneath root p]: [p] is [root] or lies in the tree below it *)
  beneath : string -> string -> bool;
  (* [reroot new old p]: the path under [old] that a rename of [old]
     to [new] moves to [p] *)
  reroot : string -> string -> string -> string;
  strings_EqualFold : string -> string -> bool;
  strings_ToLower : string -> string;
  strings_ToUpper : string -> string;
  strings_TrimSpace : string -> string
}.

(** What holds of Go's [strings] functions and is used here.
    [EqualFold] is an equivalence; [TrimSpace] returns a part of its
    argument and trims nothing from what it returned; on strings of
    ASCII bytes the four functions are those of the ASCII tables, which
    are the fast paths of their implementations; and two strings that
    differ in the case of ASCII letters only are equal under [EqualFold]
    and have the same [ToLower], since the bytes from 0x80 on are the
    same in both and are decoded and mapped alike. *)
Record Lawful (P : Platform) : Prop := {
  fold_refl : forall s, strings_EqualFold P s s = true;
  fold_sym : forall s t, strings_EqualFold P s t = strings_EqualFold P t s;
  fold_trans : forall s t u,
    strings_EqualFold P s t = true -> strings_EqualFold P t u = true ->
    strings_EqualFold P s u = true;
  fold_ascii : forall s t,
    ASCII.isASCII s = true -> ASCII.isASCII t = true ->
    strings_EqualFold P s t = ASCII.EqualFold s t;
  fold_of_ascii : forall s t,
    ASCII.EqualFold s t = true -> strings_EqualFold P s t = true;
  lower_ascii : forall s, ASCII.isASCII s = true -> strings_ToLower P s = ASCII.ToLower s;
  lower_of_ascii : forall s t,
    ASCII.EqualFold s t = true -> strings_ToLower P s = strings_ToLower P t;
  upper_ascii : forall s, ASCII.isASCII s = true -> strings_ToUpper P s = ASCII.ToUpper s;
  trim_ascii : forall s, ASCII.isASCII s = true -> strings_TrimSpace P s = ASCII.TrimSpace s;
  trim_idem : forall s, strings_TrimSpace P (strings_TrimSpace P s) = strings_TrimSpace P s;
  trim_part : forall s, exists a b, s = a ++ strings_TrimSpace P s ++ b
}.

(** empty, or made of white space only *)
Definition isBlank (P : Platform) (s : string) : bool :=
  String.eqb (strings_TrimSpace P s) EmptyString.

(** A concrete [Platform]: Windows paths without [.] and [..] elements,
    and text of ASCII bytes.  Cleaning turns slashes into backslashes,
    drops a separator that follows a separator and the separator at the
    end, unless the path is a drive root, and gives a dot for the empty
    path; joining puts a backslash between the non-empty elements and
    cleans the result. *)
Module winpath.

Definition sepByte : ascii := ascii_of_nat 92.
Definition sep : string := String sepByte EmptyString.

Fixpoint backslashes (s : string) : string :=
  match s with
  | EmptyString => EmptyString
  | String c r => String (if Ascii.eqb c "/" then sepByte else c) (backslashes r)
  end.

(** a separator that follows a separator is dropped *)
Fixpoint collapse (s : string) : string :=
  match s with
  | String c ((String d _) as r) =>
      if Ascii.eqb c sepByte && Ascii.eqb d sepByte then collapse r
      else String c (collapse r)
  | _ => s
  end.

Fixpoint dropLastSep (s : string) : string :=
  match s with
  | EmptyString => EmptyString
  | String c EmptyString => if Ascii.eqb c sepByte then EmptyString else s
  | String c r => String c (dropLastSep r)
  end.

(** a drive letter, a colon and a separator *)
Definition isDriveRoot (s : string) : bool :=
  match s with
  | String _ (String colon (String c EmptyString)) =>
      Ascii.eqb colon ":" && Ascii.eqb c sepByte
  | _ => false
  end.

Definition Clean (p : string) : string :=
  let q := collapse (backslashes p) in
  if String.eqb q EmptyString then "."
  else if isDriveRoot q || String.eqb q sep then q
  else dropLastSep q.

Fixpoint joinNonEmpty (elems : list string) : string :=
  match elems with
  | [] => EmptyString
  | e :: rest =>
      if String.eqb e EmptyString then joinNonEmpty rest
      else match joinNonEmpty rest with
           | EmptyString => e
           | r => e ++ sep ++ r
           end
  end.

Definition Join (elems : list string) : string :=
  match joinNonEmpty elems with
  | EmptyString => EmptyString
  | joined => Clean joined
  end.

Definition hasRoot (root p : string) : bool :=
  String.eqb root p || strings.HasPrefix p (root ++ sep).

Definition moveBack (new old p : string) : string :=
  old ++ substring (String.length new) (String.length p - String.length new) p.

(** the last backslash of a path splits it into directory and base *)
Fixpoint dirOf (p : string) : option string :=
  match p with
  | EmptyString => None
  | String c r =>
      match dirOf r with
      | Some d => Some (String c d)
      | None => if Ascii.eqb c sepByte then Some EmptyString else None
      end
  end.

Definition Dir (p : string) : string :=
  match dirOf p with Some d => d | None => "." end.

Definition lib : Platform := {|
  filepath_Join := Join;
  filepath_Dir := Dir;
  filepath_Clean := Clean;
  beneath := hasRoot;
  reroot := moveBack;
  strings_EqualFold := ASCII.EqualFold;
  strings_ToLower := ASCII.ToLower;
  strings_ToUpper := ASCII.ToUpper;
  strings_TrimSpace := ASCII.TrimSpace
|}.

End winpath.

(** ** Values of the Go runtime the program handles *)

(** Errors.  [fmt.Errorf] with a [%w] verb keeps the error it wraps;
    [os.Rename] reports its failures as a [*LinkError]. *)
Inductive error : Type :=
| errorString (text : string)
| wrapError (text : string) (cause : error)
| LinkError (Op Old New : string) (Err : error).

Fixpoint Error (e : error) : string :=
  match e with
  | errorString text => text
  | wrapError text _ => text
  | LinkError op old new err => op ++ " " ++ old ++ " " ++ new ++ ": " ++ Error err
  end.

(** [fmt.Errorf(prefix + "%w", err)] *)
Definition Errorf_w (prefix : string) (err : error) : error :=
  wrapError (prefix ++ Error err) err.

(** [fmt.Sprintf("%d", n)] *)
Definition itoa (n : Z) : string := DecimalString.NilZero.string_of_int (Z.to_int n).

(** ** Packages [crypto/sha256] and [encoding/hex] *)

Module sha256.
Local Open Scope N_scope.

Definition w32 (x : N) : N := N.land x 0xFFFFFFFF.
Definition add32 (x y : N) : N := w32 (x + y).
Definition rotr (n x : N) : N := N.lor (N.shiftr x n) (w32 (N.shiftl x (32 - n))).
Definition Ch (x y z : N) : N := N.lxor (N.land x y) (N.land (N.lxor x 0xFFFFFFFF) z).
Definition Maj (x y z : N) : N :=
  N.lxor (N.lxor (N.land x y) (N.land x z)) (N.land y z).
Definition Sigma0 (x : N) : N := N.lxor (N.lxor (rotr 2 x) (rotr 13 x)) (rotr 22 x).
Definition Sigma1 (x : N) : N := N.lxor (N.lxor (rotr 6 x) (rotr 11 x)) (rotr 25 x).
Definition sigma0 (x : N) : N := N.lxor (N.lxor (rotr 7 x) (rotr 18 x)) (N.shiftr x 3).
Definition sigma1 (x : N) : N := N.lxor (N.lxor (rotr 17 x) (rotr 19 x)) (N.shiftr x 10).

(** The round constants are the first 32 bits of the fractional parts
    of the cube roots of the first 64 primes, the initial state those of
    the square roots of the first 8. *)
Definition isPrime (n : N) : bool :=
  forallb (fun d => negb (N.eqb (N.modulo n (N.of_nat d)) 0)) (seq 2 (N.to_nat n - 2)).

Definition primes : list N := filter isPrime (map N.of_nat (seq 2 310)).

(** the integer cube root, bit by bit from the top *)
Fixpoint cubeRoot (bits : nat) (x r : N) : N :=
  match bits with
  | O => r
  | S b =>
      let r' := N.lor r (N.shiftl 1 (N.of_nat b)) in
      cubeRoot b x (if N.leb (r' * r' * r') x then r' else r)
  end.

Definition K : list N :=
  Eval vm_compute in
    map (fun p => w32 (cubeRoot 40 (N.shiftl p 96) 0)) primes.

Definition init : list N :=
  Eval vm_compute in
    map (fun p => w32 (N.sqrt (N.shiftl p 64))) (firstn 8 primes).

(** big-endian bytes of a word, and back *)
Definition bytesOf (width : nat) (x : N) : list N :=
  map (fun i => N.land (N.shiftr x (8 * N.of_nat i)) 0xFF) (rev (seq 0 width)).

Fixpoint wordOf (bs : list N) (acc : N) : N :=
  match bs with
  | [] => acc
  | b :: rest => wordOf rest (N.lor (N.shiftl acc 8) b)
  end.

Definition pad (msg : list N) : list N :=
  let l := List.length msg in
  let k := ((119 - Nat.modulo l 64) mod 64)%nat in
  (msg ++ [0x80] ++ repeat 0 k ++ bytesOf 8 (8 * N.of_nat l))%list.

(** the words of a block, four bytes each *)
Fixpoint words (n : nat) (bs : list N) : list N :=
  match n with
  | O => []
  | S n' => wordOf (firstn 4 bs) 0 :: words n' (skipn 4 bs)
  end.

(** the message schedule, latest word first *)
Fixpoint schedule (n : nat) (w : list N) : list N :=
  match n with
  | O => w
  | S n' =>
      let next := add32 (add32 (sigma1 (nth 1 w 0)) (nth 6 w 0))
                        (add32 (sigma0 (nth 14 w 0)) (nth 15 w 0)) in
      schedule n' (next :: w)
  end.

Definition round (st : list N) (kw : N * N) : list N :=
  match st with
  | [a; b; c; d; e; f; g; h] =>
      let t1 := add32 (add32 (add32 h (Sigma1 e)) (add32 (Ch e f g) (fst kw))) (snd kw) in
      let t2 := add32 (Sigma0 a) (Maj a b c) in
      [add32 t1 t2; a; b; c; add32 d t1; e; f; g]
  | _ => st
  end.

Definition compress (st : list N) (block : list N) : list N :=
  let w := rev (schedule 48 (rev (words 16 block))) in
  let st' := fold_left round (combine K w) st in
  map (fun p => add32 (fst p) (snd p)) (combine st st').

Fixpoint blocks (n : nat) (bs : list N) (st : list N) : list N :=
  match n with
  | O => st
  | S n' => blocks n' (skipn 64 bs) (compress st (firstn 64 bs))
  end.

(** [sha256.Sum256]: the 32 bytes of the digest *)
Definition Sum (data : list Byte.byte) : list Byte.byte :=
  let padded := pad (map Byte.to_N data) in
  let st := blocks (Nat.div (List.length padded) 64) padded init in
  flat_map (fun x => map (fun b => match Byte.of_N b with Some y => y | None => Byte.x00 end)
                         (bytesOf 4 x)) st.
End sha256.

Module hex.
Definition digit (n : N) : ascii :=
  ascii_of_N (if N.ltb n 10 then 48 + n else 87 + n).

(** [hex.EncodeToString]: two lower-case digits a byte *)
Fixpoint EncodeToString (bs : list Byte.byte) : string :=
  match bs with
  | [] => EmptyString
  | b :: rest =>
      let n := Byte.to_N b in
      String (digit (N.shiftr n 4)) (String (digit (N.land n 15)) (EncodeToString rest))
  end.
End hex.

(** ** Package [config] (the inventory) *)

Module config.

Record InstalledJDK : Type := {
  Version : string;
  Path : string;
  Distributor : string;
  InstalledAt : string;
  Scope : string
}.

Record UpdateConfig : Type := {
  LastCheck : string;
  SkipVersion : string
}.

Record Config : Type := {
  CustomPaths : list string;
  InstalledJDKs : list InstalledJDK;
  Update : UpdateConfig
}.

Definition empty : Config :=
  {| CustomPaths := []; InstalledJDKs := [];
     Update := {| LastCheck := EmptyString; SkipVersion := EmptyString |} |}.

Section WithPaths.
Variable P : Platform.

(** [AddCustomPath]: the cleaned path is appended unless it is empty,
    the current directory, or on the list already up to case. *)
Definition AddCustomPath (path : string) (c : Config) : Config :=
  let path := filepath_Clean P (strings_TrimSpace P path) in
  if String.eqb path EmptyString || String.eqb path "." then c
  else if existsb (fun p => strings_EqualFold P p path) (CustomPaths c) then c
  else {| CustomPaths := (CustomPaths c ++ [path])%list;
          InstalledJDKs := InstalledJDKs c; Update := Update c |}.

(** the loop of [AddInstalledJDK]: the first entry with the path of
    [jdk], up to case, is overwritten; [None] when there is none *)
Fixpoint replaceByPath (jdk : InstalledJDK) (l : list InstalledJDK)
  : option (list InstalledJDK) :=
  match l with
  | [] => None
  | existing :: rest =>
      if strings_EqualFold P (Path existing) (Path jdk) then Some (jdk :: rest)
      else match replaceByPath jdk rest with
           | Some rest' => Some (existing :: rest')
           | None => None
           end
  end.

Definition AddInstalledJDK (jdk : InstalledJDK) (c : Config) : Config :=
  let jdk := {| Version := Version jdk; Path := filepath_Clean P (Path jdk);
                Distributor := Distributor jdk; InstalledAt := InstalledAt jdk;
                Scope := Scope jdk |} in
  let jdks := match replaceByPath jdk (InstalledJDKs c) with
              | Some l => l
              | None => (InstalledJDKs c ++ [jdk])%list
              end in
  {| CustomPaths := CustomPaths c; InstalledJDKs := jdks; Update := Update c |}.
End WithPaths.

Definition setLastCheck (t : string) (c : Config) : Config :=
  {| CustomPaths := CustomPaths c; InstalledJDKs := InstalledJDKs c;
     Update := {| LastCheck := t; SkipVersion := SkipVersion (Update c) |} |}.

Definition setSkipVersion (v : string) (c : Config) : Config :=
  {| CustomPaths := CustomPaths c; InstalledJDKs := InstalledJDKs c;
     Update := {| LastCheck := LastCheck (Update c); SkipVersion := v |} |}.

End config.

(** ** The machine the program runs on

    Files, the system environment key of the registry, the loaded
    configuration object and the copy of it last saved to disk, and the
    calls made so far, oldest first. *)

Inductive Node : Type :=
| File (data : list Byte.byte)
| Dir.

Inductive Call : Type :=
| os_UserHomeDir
| os_Executable
| os_MkdirAll (path : string)
| os_RemoveAll (path : string)
| os_Create (path : string)
| os_Open (path : string)
| os_OpenFile (path : string)
| os_Stat (path : string)
| os_Rename (oldpath newpath : string)
| os_ReadFile (path : string)
| os_WriteFile (path : string)
| go_Remove (path : string)
| http_Get (url : string)
| io_ReadAll (url : string)
| io_Copy (dst : string)
| io_CopyHash (path : string)
| zip_OpenReader (path : string)
| zip_Open (name : string)
| tea_Run (message : string)
| go_func (message : string)
| huh_Run (title : string)
| registry_OpenKey
| registry_GetStringValue (name : string)
| registry_SetStringValue (name : string)
| registry_SetExpandStringValue (name : string)
| broadcastSettingChange
| config_Save
| selfupdate_DetectLatest
| selfupdate_UpdateTo (assetURL assetName cmdPath : string).

Record World : Type := {
  files : string -> option Node;
  registry : string -> option string;
  config : config.Config;
  saved : option config.Config;
  trace : list Call
}.

(** What the network serves, and the data types of the libraries. *)
Record Response : Type := {
  StatusCode : Z;
  ContentLength : Z;
  Body : list Byte.byte
}.

Record ZipFile : Type := {
  zf_Name : string;
  zf_IsDir : bool;
  zf_Data : list Byte.byte
}.

Record adoptiumReleasesResponse : Type := {
  AvailableLTSReleases : list Z;
  AvailableReleases : list Z;
  MostRecentLTS : Z;
  MostRecentFeatureRelease : Z
}.

Record adoptiumAssetResponse : Type := {
  pkg_Link : string;
  pkg_Checksum : string;
  pkg_Size : Z;
  pkg_Name : string
}.

(** [selfupdate.Release], with its version comparison as a method *)
Record Release : Type := {
  rel_Version : string;
  AssetURL : string;
  AssetName : string;
  LessOrEqual : string -> bool
}.

(** The host: the answers of everything outside the repository.  A call
    the host [refuses] fails with the error given; otherwise it acts on
    the [World] as the primitives below say.  [choosesMany] gives the
    values the user ticks in a form. *)
Record Host : Type := {
  paths : Platform;
  refuses : Call -> option error;
  (* the spinner with this message ends before its callback has stored
     a result: the user presses ctrl+c, or the spinner fails *)
  interrupts : string -> bool;
  homeDir : string;
  tempDir : string;
  executable : string;
  getenv : string -> string;
  now : string;
  GOARCH : string;
  serves : string -> Response;
  unzip : list Byte.byte -> list ZipFile + error;
  decodeReleases : list Byte.byte -> adoptiumReleasesResponse + error;
  decodeAssets : list Byte.byte -> list adoptiumAssetResponse + error;
  chooses : string -> list string -> string;
  choosesMany : string -> list string -> list string;
  latestRelease : option Release;
  assetBinary : string -> list Byte.byte
}.

(** the host's path library, under a name no parameter hides *)
Abbreviation hostPaths := paths (only parsing).

Definition ErrNotExist : error := errorString "file does not exist".
Definition ErrExist : error := errorString "file already exists".
Definition ErrIsDir : error := errorString "is a directory".
Definition ErrNotDir : error := errorString "not a directory".

(** ** State passing *)

Definition M (A : Type) : Type := World -> A * World.

Definition ret {A} (a : A) : M A := fun w => (a, w).

Definition bind {A B} (m : M A) (k : A -> M B) : M B :=
  fun w => let (a, w') := m w in k a w'.

Notation "x <- m ;; k" := (bind m (fun x => k))
  (at level 61, m at next level, right associativity).
Notation "' pat <- m ;; k" := (bind m (fun x => match x with pat => k end))
  (at level 61, pat pattern, m at next level, right associativity).

Definition setFiles (f : string -> option Node) (w : World) : World :=
  {| files := f; registry := registry w; config := config w; saved := saved w;
     trace := trace w |}.

Definition setRegistry (r : string -> option string) (w : World) : World :=
  {| files := files w; registry := r; config := config w; saved := saved w;
     trace := trace w |}.

Definition setConfig (c : config.Config) (w : World) : World :=
  {| files := files w; registry := registry w; config := c; saved := saved w;
     trace := trace w |}.

Definition setSaved (c : config.Config) (w : World) : World :=
  {| files := files w; registry := registry w; config := config w; saved := Some c;
     trace := trace w |}.

Definition logCall (c : Call) (w : World) : World :=
  {| files := files w; registry := registry w; config := config w; saved := saved w;
     trace := (trace w ++ [c])%list |}.

Definition update {V} (key : string) (v : option V) (f : string -> option V)
  : string -> option V :=
  fun k => if String.eqb k key then v else f k.

(** the calls by which [ExtractZip] reads an archive *)
Definition isExtraction (c : Call) : bool :=
  match c with
  | zip_OpenReader _ | zip_Open _ => true
  | _ => false
  end.

(** ** The calls, as they act on the machine *)

Module sys.
Section WithHost.
Variable h : Host.

(** A call is logged; the host says whether it fails. *)
Definition call (c : Call) : M (option error) :=
  fun w => (refuses h c, logCall c w).

Definition UserHomeDir : M (string + error) :=
  r <- call os_UserHomeDir ;;
  ret (match r with Some e => inr e | None => inl (homeDir h) end).

Definition Executable : M (string + error) :=
  r <- call os_Executable ;;
  ret (match r with Some e => inr e | None => inl (executable h) end).

Definition MkdirAll (path : string) : M (option error) :=
  r <- call (os_MkdirAll path) ;;
  match r with
  | Some e => ret (Some e)
  | None => fun w =>
      match files w path with
      | Some (File _) => (Some ErrNotDir, w)
      | _ => (None, setFiles (update path (Some Dir) (files w)) w)
      end
  end.

(** [os.RemoveAll]: the path and all beneath it; no error if absent. *)
Definition RemoveAll (path : string) : M (option error) :=
  r <- call (os_RemoveAll path) ;;
  match r with
  | Some e => ret (Some e)
  | None => fun w =>
      (None, setFiles (fun p => if beneath (paths h) path p then None else files w p) w)
  end.

(** [os.Create] and [os.OpenFile] with [O_CREATE|O_TRUNC]: the file is
    created, or emptied if it exists. *)
Definition truncate (c : Call) (path : string) : M (option error) :=
  r <- call c ;;
  match r with
  | Some e => ret (Some e)
  | None => fun w =>
      match files w path with
      | Some Dir => (Some ErrIsDir, w)
      | _ => (None, setFiles (update path (Some (File [])) (files w)) w)
      end
  end.

Definition Create (path : string) : M (option error) := truncate (os_Create path) path.
Definition OpenFile (path : string) : M (option error) := truncate (os_OpenFile path) path.

Definition Open (path : string) : M (Node + error) :=
  r <- call (os_Open path) ;;
  match r with
  | Some e => ret (inr e)
  | None => fun w =>
      (match files w path with Some n => inl n | None => inr ErrNotExist end, w)
  end.

Inductive StatResult : Type :=
| StatOK
| StatNotExist
| StatFailed (e : error).

Definition Stat (path : string) : M StatResult :=
  r <- call (os_Stat path) ;;
  match r with
  | Some e => ret (StatFailed e)
  | None => fun w =>
      (match files w path with Some _ => StatOK | None => StatNotExist end, w)
  end.

(** [os.Rename]: a failure is a [*LinkError] naming both paths.  The
    tree at [oldpath] moves to [newpath]; a file there is replaced, a
    directory there is in the way.  The empty path names nothing. *)
Definition Rename (oldpath newpath : string) : M (option error) :=
  r <- call (os_Rename oldpath newpath) ;;
  match r with
  | Some cause => ret (Some (LinkError "rename" oldpath newpath cause))
  | None => fun w =>
      match (if String.eqb oldpath EmptyString then None else files w oldpath),
            files w newpath with
      | None, _ => (Some (LinkError "rename" oldpath newpath ErrNotExist), w)
      | _, Some Dir => (Some (LinkError "rename" oldpath newpath ErrExist), w)
      | Some _, _ =>
          (None,
           setFiles (fun p =>
             if beneath (paths h) newpath p then files w (reroot (paths h) newpath oldpath p)
             else if beneath (paths h) oldpath p then None
             else files w p) w)
      end
  end.

Definition ReadFile (path : string) : M (list Byte.byte + error) :=
  r <- call (os_ReadFile path) ;;
  match r with
  | Some e => ret (inr e)
  | None => fun w =>
      (match files w path with
       | Some (File data) => inl data
       | Some Dir => inr ErrIsDir
       | None => inr ErrNotExist
       end, w)
  end.

Definition WriteFile (path : string) (data : list Byte.byte) : M (option error) :=
  r <- call (os_WriteFile path) ;;
  match r with
  | Some e => ret (Some e)
  | None => fun w =>
      match files w path with
      | Some Dir => (Some ErrIsDir, w)
      | _ => (None, setFiles (update path (Some (File data)) (files w)) w)
      end
  end.

(** [io.Copy] into the open file at [dst]: the bytes written, and the
    error that stopped the copy if one did. *)
Definition Copy (dst : string) (src : list Byte.byte) : M (Z * option error) :=
  r <- call (io_Copy dst) ;;
  match r with
  | Some e => ret (0%Z, Some e)
  | None => fun w =>
      let old := match files w dst with Some (File d) => d | _ => [] end in
      ((Z.of_nat (List.length src), None),
       setFiles (update dst (Some (File (old ++ src)%list)) (files w)) w)
  end.

Definition Get (url : string) : M (Response + error) :=
  r <- call (http_Get url) ;;
  ret (match r with Some e => inr e | None => inl (serves h url) end).

Definition ReadAll (url : string) (resp : Response) : M (list Byte.byte + error) :=
  r <- call (io_ReadAll url) ;;
  ret (match r with Some e => inr e | None => inl (Body resp) end).

Definition OpenReader (path : string) : M (list ZipFile + error) :=
  r <- call (zip_OpenReader path) ;;
  match r with
  | Some e => ret (inr e)
  | None => fun w =>
      (match files w path with
       | Some (File data) => unzip h data
       | Some Dir => inr ErrIsDir
       | None => inr ErrNotExist
       end, w)
  end.

(** a form of [huh]: the user's choice among the option values, or the
    error the form ends with *)
Definition Select (title : string) (options : list string) : M (string + error) :=
  r <- call (huh_Run title) ;;
  ret (match r with Some e => inr e | None => inl (chooses h title options) end).

(** [huh.MultiSelect] returns the values ticked in the order of the
    options. *)
Definition MultiSelect (title : string) (options : list string)
  : M (list string + error) :=
  r <- call (huh_Run title) ;;
  ret (match r with
       | Some e => inr e
       | None =>
           let ticked := choosesMany h title options in
           inl (filter (fun o => existsb (String.eqb o) ticked) options)
       end).

Definition GetStringValue (name : string) : M (string + error) :=
  r <- call (registry_GetStringValue name) ;;
  match r with
  | Some e => ret (inr e)
  | None => fun w =>
      (match registry w name with Some v => inl v | None => inr ErrNotExist end, w)
  end.

Definition SetValue (c : Call) (name value : string) : M (option error) :=
  r <- call c ;;
  match r with
  | Some e => ret (Some e)
  | None => fun w => (None, setRegistry (update name (Some value) (registry w)) w)
  end.

(** [Config.Save]: the loaded configuration is written to disk *)
Definition Save : M (option error) :=
  r <- call config_Save ;;
  match r with
  | Some e => ret (Some e)
  | None => fun w => (None, setSaved (config w) w)
  end.

Definition modifyConfig (f : config.Config -> config.Config) : M unit :=
  fun w => (tt, setConfig (f (config w)) w).

Definition getConfig : M config.Config := fun w => (config w, w).

End WithHost.
End sys.

(** ** Package [env] (internal/env/windows.go) *)

Module env.
Section WithPaths.
Variable P : Platform.

(** One iteration of the loop of [updatePath]: the segment is trimmed,
    and appended to [newPaths] unless one of the [continue]s fires. *)
Definition updatePath_step (oldJavaHome : string) (newPaths : list string) (p : string)
  : list string :=
  let p := strings_TrimSpace P p in
  if String.eqb p EmptyString then newPaths
  else if negb (String.eqb oldJavaHome EmptyString) &&
          (let oldJavaBin := filepath_Join P [oldJavaHome; "bin"] in
           strings_EqualFold P p oldJavaBin || strings_EqualFold P p "%JAVA_HOME%\bin"
           || strings.Contains (strings_ToLower P p) (strings_ToLower P oldJavaHome))
  then newPaths
  else if strings.Contains (strings_ToUpper P p) "%JAVA_HOME%" then newPaths
  else (newPaths ++ [p])%list.

(** The segments [updatePath] joins: the reference to the new home's
    bin folder, then the segments the loop kept. *)
Definition updatePath_segments (currentPath oldJavaHome newJavaHome : string) : list string :=
  let paths := strings.Split currentPath ";" in
  let newPaths := fold_left (updatePath_step oldJavaHome) paths [] in
  (["%JAVA_HOME%\bin"] ++ newPaths)%list.

Definition updatePath (currentPath oldJavaHome newJavaHome : string) : string :=
  strings.Join (updatePath_segments currentPath oldJavaHome newJavaHome) ";".

(** The tests of the loop, named.  [namesHome home p], the test made
    when there is an old home: the segment is the bin folder of [home]
    or the %JAVA_HOME%\bin reference up to case, or contains [home] up
    to case. *)
Definition namesHome (home p : string) : bool :=
  strings_EqualFold P p (filepath_Join P [home; "bin"])
  || strings_EqualFold P p "%JAVA_HOME%\bin"
  || strings.Contains (strings_ToLower P p) (strings_ToLower P home).

(** [isHomeRef p]: the segment holds a %JAVA_HOME% reference, in any case. *)
Definition isHomeRef (p : string) : bool :=
  strings.Contains (strings_ToUpper P p) "%JAVA_HOME%".

(** The segments of a PATH string as the loop sees them. *)
Definition trimmedSegments (currentPath : string) : list string :=
  map (strings_TrimSpace P) (strings.Split currentPath ";").

(** The trimmed segments the loop keeps. *)
Definition keeps (oldJavaHome p : string) : bool :=
  negb (String.eqb p EmptyString)
  && negb (negb (String.eqb oldJavaHome EmptyString)
           && (strings_EqualFold P p (filepath_Join P [oldJavaHome; "bin"])
               || strings_EqualFold P p "%JAVA_HOME%\bin"
               || strings.Contains (strings_ToLower P p) (strings_ToLower P oldJavaHome)))
  && negb (isHomeRef p).

End WithPaths.

Section WithHost.
Variable h : Host.

(** [SetJavaHome]: JAVA_HOME is written, then the rewritten Path. *)
Definition SetJavaHome (javaPath : string) : M (option error) :=
  let javaPath := filepath_Clean (paths h) javaPath in
  e <- sys.call h registry_OpenKey ;;
  match e with
  | Some err =>
      ret (Some (Errorf_w "failed to open registry key (run as administrator): " err))
  | None =>
  cur <- sys.GetStringValue h "Path" ;;
  match cur with
  | inr err => ret (Some (Errorf_w "failed to read PATH: " err))
  | inl currentPath =>
  old <- sys.GetStringValue h "JAVA_HOME" ;;
  let oldJavaHome := match old with inl v => v | inr _ => EmptyString end in
  e <- sys.SetValue h (registry_SetStringValue "JAVA_HOME") "JAVA_HOME" javaPath ;;
  match e with
  | Some err => ret (Some (Errorf_w "failed to set JAVA_HOME: " err))
  | None =>
  let newPath := updatePath (paths h) currentPath oldJavaHome javaPath in
  e <- sys.SetValue h (registry_SetExpandStringValue "Path") "Path" newPath ;;
  match e with
  | Some err => ret (Some (Errorf_w "failed to update PATH: " err))
  | None =>
  _ <- sys.call h broadcastSettingChange ;;
  ret None
  end end end end.

End WithHost.
End env.

(** ** Package [installer]: the pipeline (download, verify, extract, promote) *)

Module installer.

Record DownloadInfo : Type := {
  URL : string;
  Checksum : string;
  ChecksumAlgo : string;
  Size : Z;
  FileName : string
}.

Record JavaRelease : Type := {
  Version : string;
  IsLTS : bool;
  OpenJDKVersion : string
}.

(** The [Distributor] interface.  [GetAvailableVersions] returns a list
    and an error, both meaningful; [GetDownloadURL] returns the download
    information or an error. *)
Record Distributor : Type := {
  Name : string;
  GetAvailableVersions : M (list JavaRelease * option error);
  GetDownloadURL : string -> string -> M (DownloadInfo + error)
}.

Section WithHost.
Variable h : Host.

(** [WithSpinner] starts [fn] in a goroutine, which sleeps first, and
    runs the spinner until the goroutine reports that [fn] is done or
    the user presses ctrl+c; it returns the error of the spinner's own
    run, never that of [fn].  The callers read what [fn] assigned to
    their variables: here the value [fn] yields, [None] when nothing was
    assigned.  When the spinner ends first ([interrupts]: after ctrl+c
    it quits without error) the goroutine is left running beside the
    caller: the case embedded is the one where it has not yet begun,
    and what it does afterwards is not part of the run recorded, of
    which [go_func] keeps the mark. *)
Definition WithSpinner {A : Type} (message : string) (fn : M A)
  : M (option A * option error) :=
  if interrupts h message then
    spinnerErr <- sys.call h (tea_Run message) ;;
    _ <- sys.call h (go_func message) ;;
    ret (None, spinnerErr)
  else
    a <- fn ;;
    spinnerErr <- sys.call h (tea_Run message) ;;
    ret (Some a, spinnerErr).

(** [DownloadFile]; the progress display does not bear on the result
    and is left out. *)
Definition DownloadFile (url destPath : string) : M (option error) :=
  out <- sys.Create h destPath ;;
  match out with
  | Some err => ret (Some (Errorf_w "failed to create file: " err))
  | None =>
      resp <- sys.Get h url ;;
      match resp with
      | inr err => ret (Some (Errorf_w "failed to download: " err))
      | inl resp =>
          if negb (Z.eqb (StatusCode resp) 200) then
            ret (Some (errorString
                         ("download failed with status: " ++ itoa (StatusCode resp))))
          else
            let totalSize := ContentLength resp in
            '(written, err) <- sys.Copy h destPath (Body resp) ;;
            match err with
            | Some err => ret (Some (Errorf_w "failed to write file: " err))
            | None =>
                if negb (Z.eqb written totalSize) then
                  ret (Some (errorString
                               ("incomplete download: got " ++ itoa written
                                ++ " bytes, expected " ++ itoa totalSize)))
                else ret None
            end
      end
  end.

Definition VerifyChecksum (filePath expectedChecksum : string) : M (option error) :=
  file <- sys.Open h filePath ;;
  match file with
  | inr err => ret (Some (Errorf_w "failed to open file: " err))
  | inl node =>
      copied <- sys.call h (io_CopyHash filePath) ;;
      ret (match copied, node with
           | Some err, _ => Some (Errorf_w "failed to calculate checksum: " err)
           | None, Dir => Some (Errorf_w "failed to calculate checksum: " ErrIsDir)
           | None, File data =>
               let actualChecksum := hex.EncodeToString (sha256.Sum data) in
               if negb (strings_EqualFold (paths h) actualChecksum expectedChecksum) then
                 Some (errorString ("checksum mismatch: expected " ++ expectedChecksum
                                    ++ ", got " ++ actualChecksum))
               else None
           end)
  end.

(** the first loop of [ExtractZip]: the root directory of the archive *)
Fixpoint findRootDir (entries : list ZipFile) : string :=
  match entries with
  | [] => EmptyString
  | file :: rest =>
      if zf_IsDir file && strings.HasPrefix (zf_Name file) "jdk" then
        match strings.Split (zf_Name file) "/" with
        | part :: _ => part
        | [] => findRootDir rest
        end
      else findRootDir rest
  end.

(** the second loop of [ExtractZip] *)
Fixpoint extractFiles (destDir : string) (entries : list ZipFile) : M (option error) :=
  match entries with
  | [] => ret None
  | file :: rest =>
      let filePath := filepath_Join (paths h) [destDir; zf_Name file] in
      if zf_IsDir file then
        _ <- sys.MkdirAll h filePath ;;
        extractFiles destDir rest
      else
        e <- sys.MkdirAll h (filepath_Dir (paths h) filePath) ;;
        match e with
        | Some err => ret (Some (Errorf_w "failed to create directory: " err))
        | None =>
            e <- sys.OpenFile h filePath ;;
            match e with
            | Some err => ret (Some (Errorf_w "failed to create file: " err))
            | None =>
                e <- sys.call h (zip_Open (zf_Name file)) ;;
                match e with
                | Some err => ret (Some (Errorf_w "failed to open file in zip: " err))
                | None =>
                    '(_, e) <- sys.Copy h filePath (zf_Data file) ;;
                    match e with
                    | Some err => ret (Some (Errorf_w "failed to extract file: " err))
                    | None => extractFiles destDir rest
                    end
                end
            end
        end
  end.

Definition ExtractZip (zipPath destDir : string) : M (string * option error) :=
  reader <- sys.OpenReader h zipPath ;;
  match reader with
  | inr err => ret (EmptyString, Some (Errorf_w "failed to open zip: " err))
  | inl entries =>
      let rootDir := findRootDir entries in
      e <- extractFiles destDir entries ;;
      match e with
      | Some err => ret (EmptyString, Some err)
      | None =>
          ret (if negb (String.eqb rootDir EmptyString)
               then filepath_Join (paths h) [destDir; rootDir] else EmptyString,
               None)
      end
  end.

(** [InstallJDK] from the download on: what runs between the [defer]
    of the staging directory's removal and the return. *)
Definition installStaged (downloadInfo : DownloadInfo) (version installBase tempDir : string)
  : M (string * option error) :=
  let zipPath := filepath_Join (paths h) [tempDir; FileName downloadInfo] in
  e <- DownloadFile (URL downloadInfo) zipPath ;;
  match e with
  | Some err => ret (EmptyString, Some (Errorf_w "download failed: " err))
  | None =>
  '(verified, spinnerErr) <-
      WithSpinner "Verifying checksum..." (VerifyChecksum zipPath (Checksum downloadInfo)) ;;
  let checksumErr := match verified with Some err => err | None => None end in
  match spinnerErr, checksumErr with
  | Some err, _ => ret (EmptyString, Some err)
  | None, Some err => ret (EmptyString, Some (Errorf_w "checksum verification failed: " err))
  | None, None =>
  let tempExtractDir := filepath_Join (paths h) [tempDir; "extract"] in
  '(extracted, spinnerErr) <-
      WithSpinner "Extracting JDK..." (ExtractZip zipPath tempExtractDir) ;;
  let extractedPath := match extracted with Some r => fst r | None => EmptyString end in
  let extractErr := match extracted with Some r => snd r | None => None end in
  match spinnerErr, extractErr with
  | Some err, _ => ret (EmptyString, Some err)
  | None, Some err => ret (EmptyString, Some (Errorf_w "extraction failed: " err))
  | None, None =>
  let javaExe := filepath_Join (paths h) [extractedPath; "bin"; "java.exe"] in
  st <- sys.Stat h javaExe ;;
  match st with
  | sys.StatNotExist =>
      ret (EmptyString, Some (errorString "invalid JDK structure: bin\java.exe not found"))
  | _ =>
  let finalPath := filepath_Join (paths h) [installBase; "jdk-" ++ version] in
  st <- sys.Stat h finalPath ;;
  removed <- match st with
             | sys.StatOK => sys.RemoveAll h finalPath
             | _ => ret None
             end ;;
  match removed with
  | Some err => ret (EmptyString, Some (Errorf_w "failed to remove old installation: " err))
  | None =>
  e <- sys.Rename h extractedPath finalPath ;;
  match e with
  | Some err => ret (EmptyString, Some (Errorf_w "failed to move JDK to final location: " err))
  | None => ret (finalPath, None)
  end end end end end end.

(** the staging directory of [InstallJDK] *)
Definition stagingDir : string := filepath_Join (paths h) [tempDir h; "jv-install"].

(** the directory [InstallJDK] installs under *)
Definition installBase (distributor : string) (isSystemWide : bool) : string :=
  if isSystemWide then filepath_Join (paths h) ["C:\Program Files"; distributor]
  else filepath_Join (paths h) [homeDir h; ".jv"].

Definition InstallJDK (downloadInfo : DownloadInfo) (version distributor : string)
    (isSystemWide : bool) : M (string * option error) :=
  base <- (if isSystemWide
           then ret (inl (filepath_Join (paths h) ["C:\Program Files"; distributor]))
           else
             home <- sys.UserHomeDir h ;;
             ret (match home with
                  | inr err => inr (Errorf_w "failed to get home directory: " err)
                  | inl homeDir => inl (filepath_Join (paths h) [homeDir; ".jv"])
                  end)) ;;
  match base with
  | inr err => ret (EmptyString, Some err)
  | inl installBase =>
      e <- sys.MkdirAll h installBase ;;
      match e with
      | Some err =>
          ret (EmptyString, Some (Errorf_w "failed to create installation directory: " err))
      | None =>
          let tempDir := stagingDir in
          e <- sys.MkdirAll h tempDir ;;
          match e with
          | Some err =>
              ret (EmptyString, Some (Errorf_w "failed to create temp directory: " err))
          | None =>
              (* defer os.RemoveAll(tempDir) *)
              result <- installStaged downloadInfo version installBase tempDir ;;
              _ <- sys.RemoveAll h tempDir ;;
              ret result
          end
      end
  end.

(** *** The Adoptium distributor *)

Definition adoptiumAPIBase : string := "https://api.adoptium.net/v3".

(** the address [GetAvailableVersions] asks *)
Definition availableReleasesURL : string := adoptiumAPIBase ++ "/info/available_releases".

Definition release (version : string) (lts : bool) : JavaRelease :=
  {| Version := version; IsLTS := lts; OpenJDKVersion := EmptyString |}.

Definition getFallbackVersions : list JavaRelease :=
  [release "25" true; release "24" false; release "23" false; release "22" false;
   release "21" true; release "20" false; release "19" false; release "18" false;
   release "17" true; release "16" false; release "11" true; release "8" true].

(** [ltsMap]: a [map[int]bool], absent keys reading [false] *)
Definition ltsMapOf (lts : list Z) : Z -> bool :=
  fold_left (fun m v => fun k => if Z.eqb k v then true else m k) lts (fun _ => false).

(** [sort.Slice] by descending version string.  Releases with the same
    version string are the same record here, so the order of equals is
    immaterial. *)
Fixpoint insertDesc (r : JavaRelease) (l : list JavaRelease) : list JavaRelease :=
  match l with
  | [] => [r]
  | x :: rest =>
      if String.ltb (Version r) (Version x) then x :: insertDesc r rest
      else r :: l
  end.

Definition sortDesc (l : list JavaRelease) : list JavaRelease :=
  fold_right insertDesc [] l.

Definition adoptium_GetAvailableVersions : M (list JavaRelease * option error) :=
  let url := adoptiumAPIBase ++ "/info/available_releases" in
  resp <- sys.Get h url ;;
  match resp with
  | inr err =>
      ret (getFallbackVersions,
           Some (Errorf_w "API request failed, using fallback versions: " err))
  | inl resp =>
      if negb (Z.eqb (StatusCode resp) 200) then
        ret (getFallbackVersions,
             Some (errorString ("API returned status " ++ itoa (StatusCode resp)
                                ++ ", using fallback versions")))
      else
        body <- sys.ReadAll h url resp ;;
        match body with
        | inr err =>
            ret (getFallbackVersions,
                 Some (Errorf_w "failed to read response, using fallback versions: " err))
        | inl body =>
            match decodeReleases h body with
            | inr err =>
                ret (getFallbackVersions,
                     Some (Errorf_w "failed to parse response, using fallback versions: " err))
            | inl releasesResp =>
                let ltsMap := ltsMapOf (AvailableLTSReleases releasesResp) in
                let releases :=
                  map (fun v => release (itoa v) (ltsMap v))
                      (AvailableReleases releasesResp) in
                ret (sortDesc releases, None)
            end
        end
  end.

Definition adoptium_GetDownloadURL (version arch : string) : M (DownloadInfo + error) :=
  let adoptiumArch := if String.eqb arch "amd64" then "x64" else arch in
  let url := adoptiumAPIBase ++ "/assets/latest/" ++ version ++ "/hotspot?architecture="
             ++ adoptiumArch ++ "&image_type=jdk&os=windows&vendor=eclipse" in
  resp <- sys.Get h url ;;
  match resp with
  | inr err => ret (inr (Errorf_w "failed to query download URL: " err))
  | inl resp =>
      if negb (Z.eqb (StatusCode resp) 200) then
        ret (inr (errorString ("API returned status " ++ itoa (StatusCode resp)
                               ++ " for version " ++ version)))
      else
        body <- sys.ReadAll h url resp ;;
        match body with
        | inr err => ret (inr (Errorf_w "failed to read response: " err))
        | inl body =>
            match decodeAssets h body with
            | inr err => ret (inr (Errorf_w "failed to parse response: " err))
            | inl [] =>
                ret (inr (errorString ("no JDK found for Java " ++ version ++ " on " ++ arch)))
            | inl (asset :: _) =>
                ret (inl {| URL := pkg_Link asset; Checksum := pkg_Checksum asset;
                            ChecksumAlgo := "SHA256"; Size := pkg_Size asset;
                            FileName := pkg_Name asset |})
            end
        end
  end.

Definition AdoptiumDistributor : Distributor :=
  {| Name := "Eclipse Adoptium";
     GetAvailableVersions := adoptium_GetAvailableVersions;
     GetDownloadURL := adoptium_GetDownloadURL |}.

(** *** The interactive installer *)

Variable isAdmin : bool.

(** How a method ends: it returns, or the runtime panics. *)
Inductive outcome : Type :=
| Returned (err : option error)
| Panicked (reason : string).

(** the same for a method that returns values *)
Inductive ended (A : Type) : Type :=
| Normally (a : A)
| InPanic (reason : string).
Arguments Normally {A} a.
Arguments InPanic {A} reason.

(** [ShowVersionMenu]: a failed fetch is only warned about; the menu
    offers the long-term releases first.  The labels are display only.
    With nothing fetched the list of releases is nil. *)
Definition ShowVersionMenu (distributor : Distributor) : M (string * option error) :=
  '(fetched, spinnerErr) <-
      WithSpinner ("Fetching available versions from " ++ Name distributor ++ "...")
                  (GetAvailableVersions distributor) ;;
  let releases := match fetched with Some r => fst r | None => [] end in
  match spinnerErr with
  | Some err => ret (EmptyString, Some err)
  | None =>
      let ltsOptions := filter IsLTS releases in
      let featureOptions := filter (fun r => negb (IsLTS r)) releases in
      let allOptions := map Version (ltsOptions ++ featureOptions)%list in
      sel <- sys.Select h "Select Java Version" allOptions ;;
      ret (match sel with
           | inr err => (EmptyString, Some err)
           | inl selected => (selected, None)
           end)
  end.

Definition SelectMultipleVersions (distributor : Distributor)
  : M (list string * option error) :=
  '(fetched, spinnerErr) <-
      WithSpinner ("Fetching available versions from " ++ Name distributor ++ "...")
                  (GetAvailableVersions distributor) ;;
  let releases := match fetched with Some r => fst r | None => [] end in
  let fetchErr := match fetched with Some r => snd r | None => None end in
  match spinnerErr, fetchErr with
  | Some err, _ => ret ([], Some err)
  | None, Some err => ret ([], Some err)
  | None, None =>
      sel <- sys.MultiSelect h "Select Java Versions to Install" (map Version releases) ;;
      ret (match sel with
           | inr err => ([], Some err)
           | inl selected => (selected, None)
           end)
  end.

Definition SelectInstallScope : M (string * option error) :=
  if negb isAdmin then ret ("user", None)
  else
    sel <- sys.Select h "Select Installation Scope" ["system"; "user"] ;;
    ret (match sel with
         | inr err => (EmptyString, Some err)
         | inl scope => (scope, None)
         end).

(** [InstallVersion].  With nothing fetched and no error of the
    spinner, [downloadInfo] is the nil pointer that the printing of the
    package name dereferences. *)
Definition InstallVersion (distributor : Distributor) (version scope : string)
  : M (ended (string * option error)) :=
  let arch := GOARCH h in
  '(fetched, spinnerErr) <-
      WithSpinner "Fetching download information..." (GetDownloadURL distributor version arch) ;;
  match spinnerErr, fetched with
  | Some err, _ => ret (Normally (EmptyString, Some err))
  | None, None => ret (InPanic "nil pointer dereference")
  | None, Some (inr fetchErr) =>
      ret (Normally (EmptyString, Some (Errorf_w "failed to get download URL: " fetchErr)))
  | None, Some (inl downloadInfo) =>
      let isSystemWide := String.eqb scope "system" && isAdmin in
      '(installedPath, err) <-
          InstallJDK downloadInfo version (Name distributor) isSystemWide ;;
      match err with
      | Some err => ret (Normally (EmptyString, Some (Errorf_w "installation failed: " err)))
      | None => ret (Normally (installedPath, None))
      end
  end.

Definition ConfigureEnvironment (jdkPath : string) : M (option error) :=
  let currentJavaHome := getenv h "JAVA_HOME" in
  if negb (String.eqb currentJavaHome EmptyString) then ret None
  else if negb isAdmin then ret None
  else
    e <- env.SetJavaHome h jdkPath ;;
    ret (match e with
         | Some err => Some (Errorf_w "failed to set JAVA_HOME: " err)
         | None => None
         end).

(** the first loop of [finalizeInstallation]; [false] when [versions[idx]]
    is out of range *)
Fixpoint addRecords (idx : nat) (paths versions : list string)
    (scope distributorName : string) : M bool :=
  match paths with
  | [] => ret true
  | path :: rest =>
      _ <- (if strings_EqualFold (hostPaths h) scope "user"
            then sys.modifyConfig (config.AddCustomPath (hostPaths h) path)
            else ret tt) ;;
      match nth_error versions idx with
      | None => ret false
      | Some version =>
          let installedJDK :=
            {| config.Version := version; config.Path := path;
               config.Distributor := distributorName; config.InstalledAt := now h;
               config.Scope := scope |} in
          _ <- sys.modifyConfig (config.AddInstalledJDK (hostPaths h) installedJDK) ;;
          addRecords (S idx) rest versions scope distributorName
      end
  end.

Definition finalizeInstallation (paths versions : list string)
    (scope distributorName : string) : M outcome :=
  ok <- addRecords 0 paths versions scope distributorName ;;
  if negb ok then ret (Panicked "index out of range")
  else
    _ <- sys.Save h ;;
    _ <- match paths with
         | first :: _ => ConfigureEnvironment first
         | [] => ret None
         end ;;
    (* the summary reads versions[0], or paths[idx] for every version *)
    if Nat.eqb (List.length paths) 1 then
      ret (match versions with
           | [] => Panicked "index out of range"
           | _ => Returned None
           end)
    else if Nat.ltb (List.length paths) (List.length versions) then
      ret (Panicked "index out of range")
    else ret (Returned None).

Definition RunSingleInstall (distributor : Distributor) : M outcome :=
  '(version, err) <- ShowVersionMenu distributor ;;
  match err with
  | Some err => ret (Returned (Some err))
  | None =>
      '(scope, err) <- SelectInstallScope ;;
      match err with
      | Some err => ret (Returned (Some err))
      | None =>
          installed <- InstallVersion distributor version scope ;;
          match installed with
          | InPanic reason => ret (Panicked reason)
          | Normally (_, Some err) => ret (Returned (Some err))
          | Normally (installedPath, None) =>
              finalizeInstallation [installedPath] [version] scope (Name distributor)
          end
      end
  end.

(** the loop of [RunMultiInstall]: a failed version is reported and
    skipped; a panic ends the loop *)
Fixpoint installEach (distributor : Distributor) (scope : string)
    (versions installedPaths : list string) : M (ended (list string)) :=
  match versions with
  | [] => ret (Normally installedPaths)
  | version :: rest =>
      installed <- InstallVersion distributor version scope ;;
      match installed with
      | InPanic reason => ret (InPanic reason)
      | Normally (_, Some _) => installEach distributor scope rest installedPaths
      | Normally (installedPath, None) =>
          installEach distributor scope rest (installedPaths ++ [installedPath])%list
      end
  end.

Definition RunMultiInstall (distributor : Distributor) : M outcome :=
  '(versions, err) <- SelectMultipleVersions distributor ;;
  match err with
  | Some err => ret (Returned (Some err))
  | None =>
      if Nat.eqb (List.length versions) 0 then
        ret (Returned (Some (errorString "no versions selected")))
      else
        '(scope, err) <- SelectInstallScope ;;
        match err with
        | Some err => ret (Returned (Some err))
        | None =>
            installed <- installEach distributor scope versions [] ;;
            match installed with
            | InPanic reason => ret (Panicked reason)
            | Normally installedPaths =>
                finalizeInstallation installedPaths versions scope (Name distributor)
            end
        end
  end.

End WithHost.

Arguments Normally {A} a.
Arguments InPanic {A} reason.

End installer.

(** ** Package [updater] *)

Module updater.
Section WithHost.
Variable h : Host.
(** [u.currentVersion] *)
Variable currentVersion : string.

Definition cleanVersion (version : string) : string := strings.TrimPrefix version "v".

Definition copyFile (src dst : string) : M (option error) :=
  data <- sys.ReadFile h src ;;
  match data with
  | inr err => ret (Some err)
  | inl data => sys.WriteFile h dst data
  end.

(** [selfupdate.UpdateTo]: the asset is put in place of [cmdPath] *)
Definition UpdateTo (assetURL assetName cmdPath : string) : M (option error) :=
  r <- sys.call h (selfupdate_UpdateTo assetURL assetName cmdPath) ;;
  match r with
  | Some e => ret (Some e)
  | None => fun w =>
      (None, setFiles (update cmdPath (Some (File (assetBinary h assetURL))) (files w)) w)
  end.

Definition CheckForUpdate : M (option Release * option error) :=
  r <- sys.call h selfupdate_DetectLatest ;;
  match r with
  | Some err => ret (None, Some (Errorf_w "failed to check for updates: " err))
  | None =>
      match latestRelease h with
      | None => ret (None, Some (errorString "no releases found"))
      | Some latest =>
          _ <- sys.modifyConfig (config.setLastCheck (now h)) ;;
          _ <- sys.Save h ;;
          if LessOrEqual latest currentVersion then ret (None, None)
          else
            cfg <- sys.getConfig ;;
            if String.eqb (config.SkipVersion (config.Update cfg)) (rel_Version latest)
            then ret (None, None)
            else ret (Some latest, None)
      end
  end.

Definition backupPath (exe : string) : string := exe ++ ".backup".

(** [PerformUpdate]; the removal of the backup, ten seconds after a
    success, is only scheduled here. *)
Definition PerformUpdate (release : Release) : M (option error) :=
  exe <- sys.Executable h ;;
  match exe with
  | inr err => ret (Some (Errorf_w "failed to determine executable path: " err))
  | inl exe =>
      let backup := backupPath exe in
      e <- copyFile exe backup ;;
      match e with
      | Some err => ret (Some (Errorf_w "failed to create backup: " err))
      | None =>
          e <- UpdateTo (AssetURL release) (AssetName release) exe ;;
          match e with
          | Some err =>
              rollback <- sys.Rename h backup exe ;;
              match rollback with
              | Some rollbackErr =>
                  ret (Some (wrapError
                               ("update failed and rollback failed: update error: "
                                ++ Error err ++ ", rollback error: " ++ Error rollbackErr)
                               err))
              | None => ret (Some (Errorf_w "update failed (rolled back): " err))
              end
          | None =>
              _ <- sys.call h (go_Remove backup) ;;
              ret None
          end
      end
  end.

End WithHost.
End updater.

(** ** A host to run the program on

    A machine with a user's home and a temp directory, a network that
    serves the Adoptium release list, the asset list for Java 21 and one
    archive, and a user who is no administrator, presses no key while a
    spinner is shown and ticks Java 17 and Java 21 when asked for
    several versions.  Everything else is answered with 404. *)

Module demo.

Definition archive : list Byte.byte := list_byte_of_string "PK jdk-21 archive".

Definition entries : list ZipFile :=
  [ {| zf_Name := "jdk-21/"; zf_IsDir := true; zf_Data := [] |};
    {| zf_Name := "jdk-21/bin/"; zf_IsDir := true; zf_Data := [] |};
    {| zf_Name := "jdk-21/bin/java.exe"; zf_IsDir := false;
       zf_Data := list_byte_of_string "MZ java" |} ].

Definition archiveURL : string := "https://example.org/jdk-21.zip".

Definition assetsURL (version : string) : string :=
  "https://api.adoptium.net/v3/assets/latest/" ++ version
  ++ "/hotspot?architecture=x64&image_type=jdk&os=windows&vendor=eclipse".

Definition asset : adoptiumAssetResponse :=
  {| pkg_Link := archiveURL;
     pkg_Checksum := ASCII.ToUpper (hex.EncodeToString (sha256.Sum archive));
     pkg_Size := Z.of_nat (List.length archive);
     pkg_Name := "jdk-21.zip" |}.

(** a response that declares more bytes than it carries *)
Definition shortURL : string := "https://example.org/short.zip".

Definition notFound : Response :=
  {| StatusCode := 404; ContentLength := 0; Body := [] |}.

Definition releasesURL : string :=
  "https://api.adoptium.net/v3/info/available_releases".

Definition releases : adoptiumReleasesResponse :=
  {| AvailableLTSReleases := [8; 11; 17; 21]%Z;
     AvailableReleases := [8; 11; 17; 21; 22]%Z;
     MostRecentLTS := 21; MostRecentFeatureRelease := 22 |}.

Definition network (url : string) : Response :=
  if String.eqb url releasesURL then
    {| StatusCode := 200; ContentLength := 2; Body := list_byte_of_string "{}" |}
  else if String.eqb url (assetsURL "21") then
    {| StatusCode := 200; ContentLength := 2; Body := list_byte_of_string "[]" |}
  else if String.eqb url archiveURL then
    {| StatusCode := 200; ContentLength := Z.of_nat (List.length archive);
       Body := archive |}
  else if String.eqb url shortURL then
    {| StatusCode := 200; ContentLength := 100; Body := archive |}
  else notFound.

Definition host : Host := {|
  paths := winpath.lib;
  refuses := fun _ => None;
  interrupts := fun _ => false;
  homeDir := "C:\Users\ada";
  tempDir := "C:\Temp";
  executable := "C:\Tools\jv.exe";
  getenv := fun _ => EmptyString;
  now := "2025-01-01T00:00:00Z";
  GOARCH := "amd64";
  serves := network;
  unzip := fun data => inl entries;
  decodeReleases := fun _ => inl releases;
  decodeAssets := fun _ => inl [asset];
  chooses := fun _ _ => "21";
  choosesMany := fun _ _ => ["17"; "21"];
  latestRelease := None;
  assetBinary := fun _ => []
|}.

(** the same machine with some calls failing *)
Definition failing (refused : Call -> option error) : Host := {|
  paths := paths host; refuses := refused; interrupts := interrupts host;
  homeDir := homeDir host;
  tempDir := tempDir host; executable := executable host; getenv := getenv host;
  now := now host; GOARCH := GOARCH host; serves := serves host;
  unzip := unzip host; decodeReleases := decodeReleases host;
  decodeAssets := decodeAssets host; chooses := chooses host;
  choosesMany := choosesMany host; latestRelease := latestRelease host;
  assetBinary := assetBinary host
|}.

(** the download information the asset list yields *)
Definition info : installer.DownloadInfo :=
  {| installer.URL := archiveURL; installer.Checksum := pkg_Checksum asset;
     installer.ChecksumAlgo := "SHA256"; installer.Size := pkg_Size asset;
     installer.FileName := "jdk-21.zip" |}.

(** no request gets through *)
Definition offline (c : Call) : option error :=
  match c with
  | http_Get _ => Some (errorString "dial tcp: no route to host")
  | _ => None
  end.

(** the self-update is refused *)
Definition updateFails (c : Call) : option error :=
  match c with
  | selfupdate_UpdateTo _ _ _ => Some (errorString "checksum validation failed")
  | _ => None
  end.

(** the self-update is refused, and so is the restoring rename *)
Definition updateAndRollbackFail (c : Call) : option error :=
  match c with
  | selfupdate_UpdateTo _ _ _ => Some (errorString "checksum validation failed")
  | os_Rename _ _ => Some (errorString "Access is denied.")
  | _ => None
  end.

Definition newRelease : Release :=
  {| rel_Version := "2.0.0"; AssetURL := "https://example.org/jv.exe";
     AssetName := "jv.exe"; LessOrEqual := fun _ => false |}.

Definition world : World := {|
  files := fun _ => None;
  registry := fun _ => None;
  config := config.empty;
  saved := None;
  trace := []
|}.


(** the machine with the tool installed *)
Definition installed : World :=
  setFiles (update "C:\Tools\jv.exe" (Some (File (list_byte_of_string "jv 1.0")))
              (files world)) world.

End demo.

(** ** Package [config], continued: the other operations on the inventory *)

Module cfg.

(** the loop shared by the [Remove...] methods: the first element that
    matches is cut out of the slice, and the method returns *)
Fixpoint removeFirst {A : Type} (matches : A -> bool) (l : list A) : list A :=
  match l with
  | [] => []
  | x :: rest => if matches x then rest else x :: removeFirst matches rest
  end.

Section WithPaths.
Variable P : Platform.

Definition RemoveCustomPath (path : string) (c : config.Config) : config.Config :=
  let path := filepath_Clean P path in
  {| config.CustomPaths :=
       removeFirst (fun p => strings_EqualFold P p path) (config.CustomPaths c);
     config.InstalledJDKs := config.InstalledJDKs c;
     config.Update := config.Update c |}.

Definition HasCustomPath (path : string) (c : config.Config) : bool :=
  let path := filepath_Clean P path in
  existsb (fun p => strings_EqualFold P p path) (config.CustomPaths c).

(** The search paths are a slice of their own; the three methods on it
    touch nothing else of the configuration. *)
Definition AddSearchPath (path : string) (searchPaths : list string) : list string :=
  let path := filepath_Clean P path in
  if existsb (fun p => strings_EqualFold P p path) searchPaths then searchPaths
  else (searchPaths ++ [path])%list.

Definition RemoveSearchPath (path : string) (searchPaths : list string) : list string :=
  let path := filepath_Clean P path in
  removeFirst (fun p => strings_EqualFold P p path) searchPaths.

Definition HasSearchPath (path : string) (searchPaths : list string) : bool :=
  let path := filepath_Clean P path in
  existsb (fun p => strings_EqualFold P p path) searchPaths.

Definition RemoveInstalledJDK (path : string) (c : config.Config) : config.Config :=
  let path := filepath_Clean P path in
  {| config.CustomPaths := config.CustomPaths c;
     config.InstalledJDKs :=
       removeFirst (fun jdk => strings_EqualFold P (config.Path jdk) path)
                   (config.InstalledJDKs c);
     config.Update := config.Update c |}.

(** [GetInstalledJDK]: the first entry with the path, up to case; [None]
    is the nil pointer *)
Definition GetInstalledJDK (path : string) (c : config.Config)
  : option config.InstalledJDK :=
  let path := filepath_Clean P path in
  find (fun jdk => strings_EqualFold P (config.Path jdk) path) (config.InstalledJDKs c).

(** The loop of [Load] over the custom paths read from the file: each is
    trimmed and cleaned; empty ones, the current directory and repeats up
    to case are left out.  [seen] is the key set of the map. *)
Fixpoint sanitizeLoop (paths : list string) (seen cleaned : list string) : list string :=
  match paths with
  | [] => cleaned
  | p :: rest =>
      let p := filepath_Clean P (strings_TrimSpace P p) in
      if String.eqb p EmptyString || String.eqb p "." then sanitizeLoop rest seen cleaned
      else
        let key := strings_ToLower P p in
        if existsb (String.eqb key) seen then sanitizeLoop rest seen cleaned
        else sanitizeLoop rest (key :: seen) (cleaned ++ [p])%list
  end.

Definition sanitize (paths : list string) : list string := sanitizeLoop paths [] [].

End WithPaths.

(** [Load] drops a UTF-8 byte order mark from the front of the file. *)
Definition stripBOM (data : list Byte.byte) : list Byte.byte :=
  match data with
  | b0 :: b1 :: b2 :: rest =>
      if Byte.eqb b0 Byte.xef && Byte.eqb b1 Byte.xbb && Byte.eqb b2 Byte.xbf
      then rest else data
  | _ => data
  end.

Section WithHost.
Variable h : Host.
(** [json.Unmarshal] into the configuration with its defaults *)
Variable unmarshal : list Byte.byte -> config.Config -> config.Config + error.

Definition getConfigPath : M string :=
  let configHome := getenv h "XDG_CONFIG_HOME" in
  if negb (String.eqb configHome EmptyString) then
    ret (filepath_Join (paths h) [configHome; "jv"; "jv.json"])
  else
    home <- sys.UserHomeDir h ;;
    let homeDir := match home with inl d => d | inr _ => "." end in
    ret (filepath_Join (paths h) [homeDir; ".config"; "jv"; "jv.json"]).

Definition Load : M (config.Config + error) :=
  configPath <- getConfigPath ;;
  let cfg := config.empty in
  st <- sys.Stat h configPath ;;
  match st with
  | sys.StatNotExist => ret (inl cfg)
  | _ =>
      data <- sys.ReadFile h configPath ;;
      match data with
      | inr err => ret (inr err)
      | inl data =>
          match unmarshal (stripBOM data) cfg with
          | inr err => ret (inr err)
          | inl cfg =>
              ret (inl {| config.CustomPaths := sanitize (paths h) (config.CustomPaths cfg);
                          config.InstalledJDKs := config.InstalledJDKs cfg;
                          config.Update := config.Update cfg |})
          end
      end
  end.

End WithHost.
End cfg.

(** [distinctBy eq l]: no two elements of [l] are equal under [eq]. *)
Fixpoint distinctBy (eq : string -> string -> bool) (l : list string) : Prop :=
  match l with
  | [] => True
  | x :: rest => (forall y, In y rest -> eq y x = false) /\ distinctBy eq rest
  end.

(** [pairwiseDistinct P l]: no two elements of [l] are equal up to case,
    the invariant of the path lists of the configuration. *)
Definition pairwiseDistinct (P : Platform) (l : list string) : Prop :=
  distinctBy (strings_EqualFold P) l.

(** ** Package [installer], continued *)

Module sizes.

(** What [FormatSize] prints: the bytes as they are below 1024, else a
    quotient by [div] with a unit letter; the quotient is a float and is
    not computed here. *)
Inductive SizeText : Type :=
| Plain (text : string)
| Scaled (bytes div : Z) (unit : ascii)
| IndexOutOfRange.

(** the loop [for n := bytes / unit; n >= unit; n /= unit] *)
Fixpoint scaleLoop (fuel : nat) (n div : Z) (exp : nat) : option (Z * nat) :=
  match fuel with
  | O => None
  | S fuel' =>
      if Z.geb n 1024 then scaleLoop fuel' (Z.quot n 1024) (div * 1024)%Z (S exp)
      else Some (div, exp)
  end.

Definition units : list ascii := list_ascii_of_string "KMGTPE".

(** [FormatSize]; [None] when the loop is cut short, which the fuel given
    rules out for every 64-bit size *)
Definition FormatSize (bytes : Z) : option SizeText :=
  if Z.ltb bytes 1024 then Some (Plain (itoa bytes ++ " B"))
  else
    match scaleLoop 64 (Z.quot bytes 1024) 1024 0 with
    | None => None
    | Some (div, exp) =>
        Some (match nth_error units exp with
              | Some u => Scaled bytes div u
              | None => IndexOutOfRange
              end)
    end.

End sizes.

(** ** Package [updater], continued *)

Module updates.

(** [strings.LastIndex] of a one-byte string; -1 when it does not occur *)
Fixpoint LastIndexByte (s : string) (c : ascii) : Z :=
  match s with
  | EmptyString => (-1)%Z
  | String a r =>
      let i := LastIndexByte r c in
      if Z.leb 0 i then (i + 1)%Z
      else if Ascii.eqb a c then 0%Z else (-1)%Z
  end.

Definition newline : ascii := ascii_of_nat 10.

(** [truncateChangelog]; [None] is the panic of slicing with a negative
    bound *)
Definition truncateChangelog (P : Platform) (changelog : string) (maxLen : Z)
  : option string :=
  let changelog := strings_TrimSpace P changelog in
  if String.eqb changelog EmptyString then Some "See release notes on GitHub for details."
  else if Z.leb (Z.of_nat (String.length changelog)) maxLen then Some changelog
  else if Z.ltb maxLen 0 then None
  else
    let truncated := substring 0 (Z.to_nat maxLen) changelog in
    let idx := LastIndexByte truncated newline in
    let truncated :=
      if Z.gtb idx (Z.quot maxLen 2) then substring 0 (Z.to_nat idx) truncated
      else
        let idx := LastIndexByte truncated " " in
        if Z.gtb idx (Z.quot maxLen 2) then substring 0 (Z.to_nat idx) truncated
        else truncated in
    Some (truncated ++ "...").

Section WithHost.
Variable h : Host.

(** [SkipVersion] *)
Definition SkipVersion (version : string) : M (option error) :=
  _ <- sys.modifyConfig (config.setSkipVersion version) ;;
  sys.Save h.

End WithHost.
End updates.

(** ** Further situations on the demonstration host *)

Module scenario.

(** a configuration file, and what its JSON decodes to: custom paths
    with blanks around them, repeated in another casing, empty, and the
    current directory *)
Definition configFile : string := "C:\Users\ada\.config\jv\jv.json".

Definition rawPaths : list string :=
  [" C:\Java\jdk-17 "; "c:\java\JDK-17"; EmptyString; "."; "D:\jdk-21" ++ winpath.sep].

Definition unmarshal (data : list Byte.byte) (c : config.Config)
  : config.Config + error :=
  inl {| config.CustomPaths := rawPaths;
         config.InstalledJDKs := config.InstalledJDKs c;
         config.Update := config.Update c |}.

Definition withConfigFile : World :=
  setFiles (update configFile (Some (File (list_byte_of_string "{}"))) (files demo.world))
           demo.world.

(** the release list is served, every other request is refused *)
Definition assetsDown (c : Call) : option error :=
  match c with
  | http_Get url =>
      if String.eqb url demo.releasesURL then None
      else Some (errorString "dial tcp: connection refused")
  | _ => None
  end.

(** the demonstration host once a newer release is published *)
Definition withRelease : Host := {|
  paths := paths demo.host; refuses := refuses demo.host;
  interrupts := interrupts demo.host; homeDir := homeDir demo.host;
  tempDir := tempDir demo.host; executable := executable demo.host;
  getenv := getenv demo.host; now := now demo.host; GOARCH := GOARCH demo.host;
  serves := serves demo.host; unzip := unzip demo.host;
  decodeReleases := decodeReleases demo.host; decodeAssets := decodeAssets demo.host;
  chooses := chooses demo.host; choosesMany := choosesMany demo.host;
  latestRelease := Some demo.newRelease;
  assetBinary := fun _ => list_byte_of_string "jv 2.0"
|}.

(** the demonstration host with the user pressing ctrl+c as soon as
    the spinner with the message given is shown *)
Definition interrupting (message : string) : Host := {|
  paths := paths demo.host; refuses := refuses demo.host;
  interrupts := String.eqb message; homeDir := homeDir demo.host;
  tempDir := tempDir demo.host; executable := executable demo.host;
  getenv := getenv demo.host; now := now demo.host; GOARCH := GOARCH demo.host;
  serves := serves demo.host; unzip := unzip demo.host;
  decodeReleases := decodeReleases demo.host; decodeAssets := decodeAssets demo.host;
  chooses := chooses demo.host; choosesMany := choosesMany demo.host;
  latestRelease := latestRelease demo.host; assetBinary := assetBinary demo.host
|}.

(** download information for the archive of the demonstration host
    with a digest that is not the archive's *)
Definition wrongDigest : installer.DownloadInfo :=
  {| installer.URL := demo.archiveURL; installer.Checksum := "00ff";
     installer.ChecksumAlgo := "SHA256"; installer.Size := 17;
     installer.FileName := "jdk-21.zip" |}.

(** a service that has an archive for Java 17 and none for Java 21 *)
Definition archive17 : list Byte.byte := list_byte_of_string "PK jdk-17 archive".

Definition entries17 : list ZipFile :=
  [ {| zf_Name := "jdk-17/"; zf_IsDir := true; zf_Data := [] |};
    {| zf_Name := "jdk-17/bin/"; zf_IsDir := true; zf_Data := [] |};
    {| zf_Name := "jdk-17/bin/java.exe"; zf_IsDir := false;
       zf_Data := list_byte_of_string "MZ java 17" |} ].

Definition archiveURL17 : string := "https://example.org/jdk-17.zip".

Definition asset17 : adoptiumAssetResponse :=
  {| pkg_Link := archiveURL17;
     pkg_Checksum := hex.EncodeToString (sha256.Sum archive17);
     pkg_Size := Z.of_nat (List.length archive17);
     pkg_Name := "jdk-17.zip" |}.

Definition network17 (url : string) : Response :=
  if String.eqb url demo.releasesURL then
    {| StatusCode := 200; ContentLength := 2; Body := list_byte_of_string "{}" |}
  else if String.eqb url (demo.assetsURL "17") then
    {| StatusCode := 200; ContentLength := 2; Body := list_byte_of_string "[]" |}
  else if String.eqb url archiveURL17 then
    {| StatusCode := 200; ContentLength := Z.of_nat (List.length archive17);
       Body := archive17 |}
  else demo.notFound.

Definition only17 : Host := {|
  paths := paths demo.host; refuses := refuses demo.host;
  interrupts := interrupts demo.host; homeDir := homeDir demo.host;
  tempDir := tempDir demo.host; executable := executable demo.host;
  getenv := getenv demo.host; now := now demo.host; GOARCH := GOARCH demo.host;
  serves := network17; unzip := fun _ => inl entries17;
  decodeReleases := decodeReleases demo.host; decodeAssets := fun _ => inl [asset17];
  chooses := chooses demo.host; choosesMany := choosesMany demo.host;
  latestRelease := latestRelease demo.host; assetBinary := assetBinary demo.host
|}.

(** the removal of the staging directory is refused *)
Definition stagingLocked (c : Call) : option error :=
  match c with
  | os_RemoveAll path =>
      if String.eqb path "C:\Temp\jv-install"
      then Some (errorString "The process cannot access the file.") else None
  | _ => None
  end.

(** the staging directory cannot be made *)
Definition stagingDenied (c : Call) : option error :=
  match c with
  | os_MkdirAll path =>
      if String.eqb path "C:\Temp\jv-install"
      then Some (errorString "Access is denied.") else None
  | _ => None
  end.

(** an archive left in the staging directory by a run that was killed *)
Definition leftover : World :=
  setFiles (update "C:\Temp\jv-install\jdk-17.zip" (Some (File archive17))
              (files demo.world)) demo.world.

End scenario.

(** ** Notions the statements use *)

(** [quiet w w']: the calls made from [w] to [w'] read no archive. *)
Definition quiet (w w' : World) : Prop :=
  exists calls, trace w' = (trace w ++ calls)%list
                /\ forallb (fun c => negb (isExtraction c)) calls = true.

(** [extends w w']: [w'] is reached from [w] by making calls. *)
Definition extends (w w' : World) : Prop :=
  exists calls, trace w' = (trace w ++ calls)%list.

(** a computation only ever adds to the record of calls *)
Definition monotone {A} (m : M A) : Prop := forall w, extends w (snd (m w)).

(** [unchangedOutside S w w']: the paths that are not in [S] hold in
    [w'] what they hold in [w]. *)
Definition unchangedOutside (S : string -> bool) (w w' : World) : Prop :=
  forall p, S p = false -> files w' p = files w p.

(** a computation writes to paths in [S] only *)
Definition writesWithin (S : string -> bool) {A} (m : M A) : Prop :=
  forall w, unchangedOutside S w (snd (m w)).

(** [lastAt c s pre]: [pre] is what comes before the last [c] of [s]. *)
Definition lastAt (c : ascii) (s pre : string) : Prop :=
  exists tail, s = pre ++ String c tail /\ strings.hasByte c tail = false.

(** every entry of an archive is unpacked to a path of [S]; nothing in
    [ExtractZip] checks the names of the entries *)
Definition unpacksWithin (P : Platform) (S : string -> bool) (destDir : string)
    (entries : list ZipFile) : Prop :=
  forall file, In file entries ->
    S (filepath_Join P [destDir; zf_Name file]) = true
    /\ S (filepath_Dir P (filepath_Join P [destDir; zf_Name file])) = true.

(** the calls [InstallJDK] makes before there is a staging directory *)
Definition isSetup (c : Call) : bool :=
  match c with
  | os_UserHomeDir | os_MkdirAll _ => true
  | _ => false
  end.

(** the calls by which [InstallJDK] removes or moves a tree *)
Definition isPromotion (c : Call) : bool :=
  match c with
  | os_RemoveAll _ | os_Rename _ _ => true
  | _ => false
  end.

(** the calls by which [SetJavaHome] reads and writes the environment
    key of the registry *)
Definition isRegistry (c : Call) : bool :=
  match c with
  | registry_OpenKey | registry_GetStringValue _ | registry_SetStringValue _
  | registry_SetExpandStringValue _ | broadcastSettingChange => true
  | _ => false
  end.

(** [avoids f w w']: [w'] is reached from [w] by calls none of which
    is one of [f]. *)
Definition avoids (f : Call -> bool) (w w' : World) : Prop :=
  exists calls, trace w' = (trace w ++ calls)%list
                /\ forallb (fun c => negb (f c)) calls = true.

(** a computation that makes no call of [f] *)
Definition avoiding (f : Call -> bool) {A} (m : M A) : Prop :=
  forall w, avoids f w (snd (m w)).

(** * Properties *)

Example sha256_abc :
  hex.EncodeToString (sha256.Sum (list_byte_of_string "abc"))
  = "ba7816bf8f01cfea414140de5dae2223b00361a396177a9cb410ff61f20015ad".
Proof. vm_compute. reflexivity. Qed.

Example sha256_empty :
  hex.EncodeToString (sha256.Sum [])
  = "e3b0c44298fc1c149afbf4c8996fb92427ae41e4649b934ca495991b7852b855".
Proof. vm_compute. reflexivity. Qed.

Example sha256_two_blocks :
  hex.EncodeToString (sha256.Sum (list_byte_of_string
    "abcdbcdecdefdefgefghfghighijhijkijkljklmklmnlmnomnopnopq"))
  = "248d6a61d20638b8e5c026930c3e6039a33ce45964ff2167f6ecedd419db06c1".
Proof. vm_compute. reflexivity. Qed.

Example itoa_values : itoa 0 = "0" /\ itoa 404 = "404" /\ itoa (-1) = "-1".
Proof. repeat split. Qed.

Example updatePath_ex1 :
  env.updatePath winpath.lib "C:\X\bin; C:\Windows ;;OTHER" "C:\X" "C:\Y"
  = "%JAVA_HOME%\bin;C:\Windows;OTHER".
Proof. reflexivity. Qed.

Example updatePath_ex2 :
  env.updatePath winpath.lib EmptyString EmptyString "C:\Y" = "%JAVA_HOME%\bin".
Proof. reflexivity. Qed.

(** ** Bytes and strings: the ASCII tables *)

Ltac each_byte c := destruct c as [[] [] [] [] [] [] [] []]; vm_compute; try reflexivity.

Lemma isSpace_toLowerByte c : ASCII.isSpace (ASCII.toLowerByte c) = ASCII.isSpace c.
Proof. each_byte c. Qed.

Lemma toUpperByte_toLowerByte c :
  ASCII.toUpperByte (ASCII.toLowerByte c) = ASCII.toUpperByte c.
Proof. each_byte c. Qed.

Lemma toLowerByte_semicolon c :
  Ascii.eqb (ASCII.toLowerByte c) ";" = Ascii.eqb c ";".
Proof. each_byte c. Qed.

Lemma string_eqb_empty s : String.eqb s EmptyString = true <-> s = EmptyString.
Proof. apply String.eqb_eq. Qed.

Lemma EqualFold_ToLower s t :
  ASCII.EqualFold s t = true <-> ASCII.ToLower s = ASCII.ToLower t.
Proof.
  revert t; induction s as [|a s IH]; intros [|b t]; simpl; split; intro H;
    try reflexivity; try discriminate.
  - apply andb_true_iff in H as [Hc Hr]. apply Ascii.eqb_eq in Hc.
    apply IH in Hr. now rewrite Hc, Hr.
  - injection H as Hc Hr. apply andb_true_iff; split.
    + now apply Ascii.eqb_eq.
    + now apply IH.
Qed.

Lemma ToUpper_ToLower s : ASCII.ToUpper (ASCII.ToLower s) = ASCII.ToUpper s.
Proof.
  induction s as [|a s IH]; simpl; [reflexivity|].
  now rewrite toUpperByte_toLowerByte, IH.
Qed.

Lemma EqualFold_ToUpper s t :
  ASCII.EqualFold s t = true -> ASCII.ToUpper s = ASCII.ToUpper t.
Proof.
  intro H. apply EqualFold_ToLower in H.
  now rewrite <- (ToUpper_ToLower s), H, ToUpper_ToLower.
Qed.

Lemma hasByte_ToLower_semicolon s :
  strings.hasByte ";" (ASCII.ToLower s) = strings.hasByte ";" s.
Proof.
  induction s as [|a s IH]; simpl; [reflexivity|].
  now rewrite toLowerByte_semicolon, IH.
Qed.

(** ** Trimming *)

Lemma trimLeft_head s :
  ASCII.trimLeft s = EmptyString \/
  exists c r, ASCII.trimLeft s = String c r /\ ASCII.isSpace c = false.
Proof.
  induction s as [|a s IH]; simpl; [now left|].
  destruct (ASCII.isSpace a) eqn:Ha; [exact IH|].
  right. now exists a, s.
Qed.

Lemma trimRight_idem s : ASCII.trimRight (ASCII.trimRight s) = ASCII.trimRight s.
Proof.
  induction s as [|a s IH]; simpl; [reflexivity|].
  destruct (ASCII.trimRight s) as [|b r] eqn:E.
  - destruct (ASCII.isSpace a) eqn:Ha; simpl; [reflexivity|]. now rewrite Ha.
  - simpl in IH |- *. now rewrite IH.
Qed.

Lemma trimRight_head c r :
  ASCII.isSpace c = false -> exists r', ASCII.trimRight (String c r) = String c r'.
Proof.
  intro Hc. simpl. destruct (ASCII.trimRight r) as [|b r'].
  - rewrite Hc. now exists EmptyString.
  - now exists (String b r').
Qed.

Lemma TrimSpace_idem s : ASCII.TrimSpace (ASCII.TrimSpace s) = ASCII.TrimSpace s.
Proof.
  unfold ASCII.TrimSpace.
  destruct (trimLeft_head s) as [E | (c & r & E & Hc)]; rewrite E.
  - reflexivity.
  - destruct (trimRight_head c r Hc) as [r' E']. rewrite E'.
    simpl ASCII.trimLeft. rewrite Hc. rewrite <- E'. apply trimRight_idem.
Qed.

Lemma hasByte_trimLeft c s :
  strings.hasByte c s = false -> strings.hasByte c (ASCII.trimLeft s) = false.
Proof.
  induction s as [|a s IH]; simpl; [easy|].
  intro H. apply orb_false_iff in H as [Ha Hs].
  destruct (ASCII.isSpace a); [now apply IH|]. simpl. now rewrite Ha, Hs.
Qed.

Lemma hasByte_trimRight c s :
  strings.hasByte c s = false -> strings.hasByte c (ASCII.trimRight s) = false.
Proof.
  induction s as [|a s IH]; simpl; [easy|].
  intro H. apply orb_false_iff in H as [Ha Hs]. specialize (IH Hs).
  destruct (ASCII.trimRight s) as [|b r].
  - destruct (ASCII.isSpace a); simpl; [reflexivity|]. now rewrite Ha.
  - simpl in *. now rewrite Ha, IH.
Qed.

Lemma hasByte_TrimSpace c s :
  strings.hasByte c s = false -> strings.hasByte c (ASCII.TrimSpace s) = false.
Proof. intro H. now apply hasByte_trimRight, hasByte_trimLeft. Qed.

Lemma trimLeft_ToLower s :
  ASCII.trimLeft (ASCII.ToLower s) = ASCII.ToLower (ASCII.trimLeft s).
Proof.
  induction s as [|a s IH]; simpl; [reflexivity|].
  rewrite isSpace_toLowerByte. now destruct (ASCII.isSpace a).
Qed.

Lemma trimRight_ToLower s :
  ASCII.trimRight (ASCII.ToLower s) = ASCII.ToLower (ASCII.trimRight s).
Proof.
  induction s as [|a s IH]; simpl; [reflexivity|].
  rewrite IH, isSpace_toLowerByte.
  destruct (ASCII.trimRight s); simpl; [now destruct (ASCII.isSpace a)|reflexivity].
Qed.

Lemma TrimSpace_ToLower s :
  ASCII.TrimSpace (ASCII.ToLower s) = ASCII.ToLower (ASCII.TrimSpace s).
Proof. unfold ASCII.TrimSpace. now rewrite trimLeft_ToLower, trimRight_ToLower. Qed.

(** ** Splitting and joining *)

Lemma Split_not_nil s sep : strings.Split s sep <> [].
Proof.
  destruct s as [|a s]; simpl; [discriminate|].
  destruct (Ascii.eqb a sep); [discriminate|].
  destruct (strings.Split s sep); discriminate.
Qed.

Lemma Split_hasByte s sep p :
  In p (strings.Split s sep) -> strings.hasByte sep p = false.
Proof.
  revert p; induction s as [|a s IH]; simpl; intros p Hin.
  - destruct Hin as [<-|[]]. reflexivity.
  - destruct (Ascii.eqb a sep) eqn:Ha.
    + destruct Hin as [<-|Hin]; [reflexivity|now apply IH].
    + destruct (strings.Split s sep) as [|q rest] eqn:E.
      * now destruct (Split_not_nil s sep).
      * destruct Hin as [<-|Hin].
        -- simpl. rewrite Ha. apply IH. now left.
        -- apply IH. now right.
Qed.

Lemma Split_append s r sep :
  strings.hasByte sep s = false ->
  strings.Split (s ++ String sep r) sep = s :: strings.Split r sep.
Proof.
  induction s as [|a s IH]; simpl; intro H.
  - now rewrite Ascii.eqb_refl.
  - apply orb_false_iff in H as [Ha Hs]. rewrite Ha, (IH Hs). reflexivity.
Qed.

Lemma Split_whole s sep :
  strings.hasByte sep s = false -> strings.Split s sep = [s].
Proof.
  induction s as [|a s IH]; simpl; intro H; [reflexivity|].
  apply orb_false_iff in H as [Ha Hs]. now rewrite Ha, (IH Hs).
Qed.

Lemma Split_Join x xs sep :
  (forall p, In p (x :: xs) -> strings.hasByte sep p = false) ->
  strings.Split (strings.Join (x :: xs) (String sep EmptyString)) sep = x :: xs.
Proof.
  revert x; induction xs as [|y ys IH]; intros x H.
  - simpl. apply Split_whole, H. now left.
  - change (strings.Join (x :: y :: ys) (String sep EmptyString))
      with (x ++ String sep EmptyString ++ strings.Join (y :: ys) (String sep EmptyString)).
    simpl String.append at 2.
    rewrite Split_append by (apply H; now left).
    f_equal. apply IH. intros p Hp. apply H. now right.
Qed.

(** ** The ASCII tables are lawful *)

Lemma ASCII_EqualFold_refl s : ASCII.EqualFold s s = true.
Proof. now apply EqualFold_ToLower. Qed.

Lemma ASCII_EqualFold_sym s t : ASCII.EqualFold s t = ASCII.EqualFold t s.
Proof.
  destruct (ASCII.EqualFold s t) eqn:E1, (ASCII.EqualFold t s) eqn:E2; try reflexivity.
  - apply EqualFold_ToLower in E1. symmetry in E1. apply EqualFold_ToLower in E1. congruence.
  - apply EqualFold_ToLower in E2. symmetry in E2. apply EqualFold_ToLower in E2. congruence.
Qed.

Lemma ASCII_EqualFold_trans s t u :
  ASCII.EqualFold s t = true -> ASCII.EqualFold t u = true -> ASCII.EqualFold s u = true.
Proof.
  intros H1 H2. apply EqualFold_ToLower in H1, H2. apply EqualFold_ToLower. congruence.
Qed.

Lemma append_nil_r s : s ++ EmptyString = s.
Proof. induction s as [|c s IH]; simpl; [reflexivity|now rewrite IH]. Qed.

Lemma append_assoc (a b c : string) : (a ++ b) ++ c = a ++ b ++ c.
Proof. induction a as [|x a IH]; simpl; [reflexivity|now rewrite IH]. Qed.

Lemma trimLeft_part s : exists a, s = a ++ ASCII.trimLeft s.
Proof.
  induction s as [|c s (a & IH)]; simpl; [now exists EmptyString|].
  destruct (ASCII.isSpace c); [|now exists EmptyString].
  exists (String c a). simpl. now rewrite <- IH.
Qed.

Lemma trimRight_part s : exists b, s = ASCII.trimRight s ++ b.
Proof.
  induction s as [|c s (b & IH)]; simpl; [now exists EmptyString|].
  destruct (ASCII.trimRight s) as [|d r] eqn:E.
  - destruct (ASCII.isSpace c).
    + exists (String c s). reflexivity.
    + exists s. reflexivity.
  - exists b. simpl. simpl in IH. now rewrite <- IH.
Qed.

Lemma ASCII_TrimSpace_part s : exists a b, s = a ++ ASCII.TrimSpace s ++ b.
Proof.
  unfold ASCII.TrimSpace. destruct (trimLeft_part s) as (a & Ha).
  destruct (trimRight_part (ASCII.trimLeft s)) as (b & Hb).
  exists a, b. now rewrite <- Hb.
Qed.

(** A platform whose text functions are the ASCII ones is lawful,
    whatever its path functions are. *)
Lemma ASCII_Lawful (P : Platform) :
  strings_EqualFold P = ASCII.EqualFold -> strings_ToLower P = ASCII.ToLower ->
  strings_ToUpper P = ASCII.ToUpper -> strings_TrimSpace P = ASCII.TrimSpace ->
  Lawful P.
Proof.
  intros E L U T. constructor; rewrite ?E, ?L, ?U, ?T.
  - apply ASCII_EqualFold_refl.
  - apply ASCII_EqualFold_sym.
  - apply ASCII_EqualFold_trans.
  - reflexivity.
  - auto.
  - reflexivity.
  - intros s t H. now apply EqualFold_ToLower.
  - reflexivity.
  - reflexivity.
  - apply TrimSpace_idem.
  - apply ASCII_TrimSpace_part.
Qed.

Lemma winpath_lawful : Lawful winpath.lib.
Proof. now apply ASCII_Lawful. Qed.

(** ** What the laws give *)

Lemma hasByte_app c a b :
  strings.hasByte c (a ++ b) = strings.hasByte c a || strings.hasByte c b.
Proof.
  induction a as [|x a IH]; simpl; [reflexivity|]. now rewrite IH, orb_assoc.
Qed.

Lemma allSpaces_trimLeft s : ASCII.allSpaces s = true -> ASCII.trimLeft s = EmptyString.
Proof.
  induction s as [|a s IH]; simpl; [reflexivity|].
  intro H. apply andb_true_iff in H as [Ha Hs]. rewrite Ha. now apply IH.
Qed.

Lemma isSpace_isASCII c : ASCII.isSpace c = true -> Nat.ltb (nat_of_ascii c) 128 = true.
Proof. each_byte c; discriminate. Qed.

Lemma allSpaces_isASCII s : ASCII.allSpaces s = true -> ASCII.isASCII s = true.
Proof.
  induction s as [|a s IH]; simpl; [reflexivity|].
  intro H. apply andb_true_iff in H as [Ha Hs]. now rewrite (isSpace_isASCII a Ha), IH.
Qed.

Section Text.
Variable P : Platform.
Hypothesis HP : Lawful P.

Lemma EqualFold_refl s : strings_EqualFold P s s = true.
Proof. apply (fold_refl P HP). Qed.

Lemma EqualFold_sym s t : strings_EqualFold P s t = strings_EqualFold P t s.
Proof. apply (fold_sym P HP). Qed.

Lemma EqualFold_trans s t u :
  strings_EqualFold P s t = true -> strings_EqualFold P t u = true ->
  strings_EqualFold P s u = true.
Proof. apply (fold_trans P HP). Qed.

(** two strings equal up to case match the same strings *)
Lemma EqualFold_congr s t u :
  strings_EqualFold P t u = true -> strings_EqualFold P s t = strings_EqualFold P s u.
Proof.
  intro H. destruct (strings_EqualFold P s t) eqn:E1, (strings_EqualFold P s u) eqn:E2;
    try reflexivity.
  - rewrite (EqualFold_trans s t u E1 H) in E2. discriminate.
  - rewrite EqualFold_sym in H. rewrite (EqualFold_trans s u t E2 H) in E1. discriminate.
Qed.

Lemma hasByte_TrimSpace_lib c s :
  strings.hasByte c s = false -> strings.hasByte c (strings_TrimSpace P s) = false.
Proof.
  intro H. destruct (trim_part P HP s) as (a & b & E). rewrite E in H.
  rewrite !hasByte_app in H. apply orb_false_iff in H as [_ H].
  now apply orb_false_iff in H as [H _].
Qed.

Lemma allSpaces_isBlank s : ASCII.allSpaces s = true -> isBlank P s = true.
Proof.
  intro H. unfold isBlank.
  rewrite (trim_ascii P HP s (allSpaces_isASCII s H)). unfold ASCII.TrimSpace.
  now rewrite (allSpaces_trimLeft s H).
Qed.

Lemma trimmed_nonempty_not_blank p :
  strings_TrimSpace P p = p -> p <> EmptyString -> isBlank P p = false.
Proof.
  intros E Hp. unfold isBlank. rewrite E.
  apply not_true_iff_false. intro H. apply String.eqb_eq in H. contradiction.
Qed.

End Text.

(** ** Filtering *)

Lemma filter_Subsequence {A} (f : A -> bool) l : Subsequence (filter f l) l.
Proof.
  induction l as [|x l IH]; simpl; [constructor|].
  destruct (f x); now constructor.
Qed.

Lemma filter_all {A} (f : A -> bool) l :
  filter f l = l <-> forall x, In x l -> f x = true.
Proof.
  split.
  - induction l as [|x l IH]; simpl; intros E y Hy; [contradiction|].
    destruct (f x) eqn:Fx.
    + injection E as E. destruct Hy as [<-|Hy]; [assumption|now apply IH].
    + exfalso. pose proof (filter_length_le f l) as Hlen.
      rewrite E in Hlen. simpl in Hlen. lia.
  - intro H. induction l as [|x l IH]; simpl; [reflexivity|].
    rewrite (H x) by now left. f_equal. apply IH. intros y Hy. apply H. now right.
Qed.

Lemma filter_none {A} (f : A -> bool) l :
  (forall x, In x l -> f x = false) -> filter f l = [].
Proof.
  induction l as [|x l IH]; simpl; intro H; [reflexivity|].
  rewrite (H x) by now left. apply IH. intros y Hy. apply H. now right.
Qed.


(** ** The path rewrite *)

Section UpdatePath.
Variable P : Platform.
Hypothesis HP : Lawful P.

Lemma updatePath_step_keeps old acc s :
  env.updatePath_step P old acc s =
  if env.keeps P old (strings_TrimSpace P s)
  then (acc ++ [strings_TrimSpace P s])%list else acc.
Proof.
  unfold env.updatePath_step, env.keeps, env.isHomeRef.
  destruct (String.eqb (strings_TrimSpace P s) EmptyString); [reflexivity|].
  simpl negb at 1. rewrite andb_true_l.
  destruct (negb (String.eqb old EmptyString) && _); [reflexivity|].
  simpl negb at 1. rewrite andb_true_l.
  now destruct (strings.Contains _ _).
Qed.

Lemma updatePath_loop old segments acc :
  fold_left (env.updatePath_step P old) segments acc =
  (acc ++ filter (env.keeps P old) (map (strings_TrimSpace P) segments))%list.
Proof.
  revert acc; induction segments as [|s segments IH]; intro acc; simpl.
  - now rewrite app_nil_r.
  - rewrite IH, updatePath_step_keeps.
    destruct (env.keeps P old (strings_TrimSpace P s)); [|reflexivity].
    now rewrite <- app_assoc.
Qed.

(** The segments joined by [updatePath]: the reference, then the kept ones. *)
Lemma updatePath_segments_filter L old new :
  env.updatePath_segments P L old new =
  "%JAVA_HOME%\bin" :: filter (env.keeps P old) (env.trimmedSegments P L).
Proof.
  unfold env.updatePath_segments, env.trimmedSegments.
  now rewrite updatePath_loop.
Qed.

Lemma trimmedSegments_clean L p :
  In p (env.trimmedSegments P L) ->
  strings.hasByte ";" p = false /\ strings_TrimSpace P p = p.
Proof.
  unfold env.trimmedSegments. intro H. apply in_map_iff in H as (s & <- & Hs).
  split.
  - apply (hasByte_TrimSpace_lib P HP). now apply (Split_hasByte L).
  - apply (trim_idem P HP).
Qed.

Lemma keeps_nonempty old p : env.keeps P old p = true -> p <> EmptyString.
Proof.
  unfold env.keeps. intros H ->. discriminate.
Qed.

Lemma keeps_not_ref old p : env.keeps P old p = true -> env.isHomeRef P p = false.
Proof.
  unfold env.keeps. intro H. apply andb_true_iff in H as [_ H].
  now apply negb_true_iff.
Qed.

(** [keeps], with the test on the old home named *)
Lemma keeps_spec old p :
  env.keeps P old p =
  negb (String.eqb p EmptyString)
  && negb (negb (String.eqb old EmptyString) && env.namesHome P old p)
  && negb (env.isHomeRef P p).
Proof. reflexivity. Qed.

Lemma keeps_not_old old p :
  env.keeps P old p = true -> old <> EmptyString -> env.namesHome P old p = false.
Proof.
  rewrite keeps_spec. intros H Hold.
  apply andb_true_iff in H as [H _]. apply andb_true_iff in H as [_ H].
  apply negb_true_iff in H. apply String.eqb_neq in Hold. now rewrite Hold in H.
Qed.

(** the reference put in front is trimmed, holds no separator, and is a
    reference *)
Lemma reference_trimmed : strings_TrimSpace P "%JAVA_HOME%\bin" = "%JAVA_HOME%\bin".
Proof. now rewrite (trim_ascii P HP). Qed.

Lemma reference_isHomeRef : env.isHomeRef P "%JAVA_HOME%\bin" = true.
Proof. unfold env.isHomeRef. now rewrite (upper_ascii P HP). Qed.

Lemma split_updatePath L old new :
  strings.Split (env.updatePath P L old new) ";" =
  "%JAVA_HOME%\bin" :: filter (env.keeps P old) (env.trimmedSegments P L).
Proof.
  unfold env.updatePath. rewrite updatePath_segments_filter.
  apply Split_Join. intros p [<-|Hp]; [reflexivity|].
  apply filter_In in Hp as [Hp _]. now apply (trimmedSegments_clean L).
Qed.

Lemma trimmedSegments_updatePath L old new :
  env.trimmedSegments P (env.updatePath P L old new) =
  "%JAVA_HOME%\bin" :: filter (env.keeps P old) (env.trimmedSegments P L).
Proof.
  unfold env.trimmedSegments at 1. rewrite split_updatePath.
  cbn [map]. rewrite reference_trimmed. f_equal.
  rewrite <- (map_id (filter _ _)) at 2.
  apply map_ext_in. intros p Hp. apply filter_In in Hp as [Hp _].
  now apply (trimmedSegments_clean L).
Qed.

Lemma kept_of_split L old new p :
  In p (tl (strings.Split (env.updatePath P L old new) ";")) ->
  In p (env.trimmedSegments P L) /\ env.keeps P old p = true.
Proof.
  rewrite split_updatePath. simpl tl. intro H. now apply filter_In in H.
Qed.

Lemma ref_not_kept home : env.keeps P home "%JAVA_HOME%\bin" = false.
Proof. rewrite keeps_spec, reference_isHomeRef. now rewrite andb_false_r. Qed.

Lemma keeps_of_kept old home p :
  env.keeps P old p = true ->
  env.keeps P home p = negb (negb (String.eqb home EmptyString) && env.namesHome P home p).
Proof.
  intro Hk. rewrite (keeps_spec home).
  rewrite (keeps_not_ref old p Hk).
  destruct (String.eqb p EmptyString) eqn:E.
  - apply String.eqb_eq in E. now apply keeps_nonempty in Hk.
  - simpl. now rewrite andb_true_r.
Qed.

(** The list after the second application: the segments kept by the
    first one, less those that name the new home. *)
Lemma split_updatePath_twice L old H :
  strings.Split (env.updatePath P (env.updatePath P L old H) H H) ";" =
  "%JAVA_HOME%\bin" ::
    filter (fun p => negb (negb (String.eqb H EmptyString) && env.namesHome P H p))
           (tl (strings.Split (env.updatePath P L old H) ";")).
Proof.
  rewrite split_updatePath, trimmedSegments_updatePath, split_updatePath.
  cbn [filter tl]. rewrite ref_not_kept. f_equal.
  apply filter_ext_in. intros p Hp. apply filter_In in Hp as [_ Hk].
  now apply (keeps_of_kept old).
Qed.

Lemma count_refs L old new :
  List.length (filter (env.isHomeRef P) (strings.Split (env.updatePath P L old new) ";")) = 1.
Proof.
  rewrite split_updatePath. cbn [filter]. rewrite reference_isHomeRef.
  rewrite filter_none; [reflexivity|].
  intros p Hp. apply filter_In in Hp as [_ Hk]. now apply (keeps_not_ref old).
Qed.

End UpdatePath.

(** ** C9: shape of the rewritten list *)

(** C9.  The list [updatePath] returns starts with the %JAVA_HOME%\bin
    reference; every one of its segments is trimmed, by [strings.TrimSpace]
    as the platform computes it, and is neither empty nor made of white
    space; and the segments after the first are the trimmed segments of
    the input with some left out, in the order of the input. *)
Theorem updatePath_first_trimmed_ordered (P : Platform) (L old new : string) :
  Lawful P ->
  exists kept : list string,
    strings.Split (env.updatePath P L old new) ";" = "%JAVA_HOME%\bin" :: kept
    /\ Subsequence kept (env.trimmedSegments P L)
    /\ forall p, In p ("%JAVA_HOME%\bin" :: kept) ->
         strings_TrimSpace P p = p /\ p <> EmptyString
         /\ isBlank P p = false /\ ASCII.allSpaces p = false.
Proof.
  intro HP.
  exists (filter (env.keeps P old) (env.trimmedSegments P L)).
  split; [now apply split_updatePath|]. split; [apply filter_Subsequence|].
  assert (Hmain : forall p,
    In p ("%JAVA_HOME%\bin" :: filter (env.keeps P old) (env.trimmedSegments P L)) ->
    strings_TrimSpace P p = p /\ p <> EmptyString).
  { intros p [<-|Hp]; [split; [now apply reference_trimmed|discriminate]|].
    apply filter_In in Hp as [Hp Hk]. split.
    - now apply (trimmedSegments_clean P HP L).
    - now apply (keeps_nonempty P old). }
  intros p Hp. destruct (Hmain p Hp) as [Ht Hn].
  pose proof (trimmed_nonempty_not_blank P p Ht Hn) as Hb.
  repeat split; try assumption.
  destruct (ASCII.allSpaces p) eqn:E; [|reflexivity].
  apply (allSpaces_isBlank P HP) in E. congruence.
Qed.

(** On the ASCII platform, for a list with blank and empty segments. *)
Lemma updatePath_first_trimmed_ordered_witness :
  exists kept : list string,
    strings.Split (env.updatePath winpath.lib "C:\X\bin; C:\Windows ;; ;OTHER" "C:\X" "C:\Y")
                  ";" = "%JAVA_HOME%\bin" :: kept
    /\ Subsequence kept ["C:\X\bin"; "C:\Windows"; EmptyString; EmptyString; "OTHER"].
Proof.
  destruct (updatePath_first_trimmed_ordered winpath.lib
              "C:\X\bin; C:\Windows ;; ;OTHER" "C:\X" "C:\Y" winpath_lawful)
    as (kept & Hsplit & Hsub & _).
  exists kept. split; [exact Hsplit|exact Hsub].
Defined.

(** ** C7: segments of the old home are removed *)

(** C7.  A segment that names the old home — it is the old home's bin
    folder or the %JAVA_HOME%\bin reference up to case, or contains the
    old home up to case — is removed when there is an old home, and a
    segment holding a %JAVA_HOME% reference in any case is removed
    always; case is that of [strings.EqualFold], [strings.ToLower] and
    [strings.ToUpper] as the platform computes them.  So a list of a
    segment that is C:\X\bin up to case and white space around it,
    followed by OTHER, is rewritten to [%JAVA_HOME%\bin;OTHER]. *)
Theorem updatePath_removes_old_home_segments (P : Platform) :
  Lawful P ->
  (forall L old new s,
      In s (strings.Split L ";") -> old <> EmptyString ->
      strings_EqualFold P (strings_TrimSpace P s) (filepath_Join P [old; "bin"]) = true
      \/ strings_EqualFold P (strings_TrimSpace P s) "%JAVA_HOME%\bin" = true
      \/ strings.Contains (strings_ToLower P (strings_TrimSpace P s))
                          (strings_ToLower P old) = true ->
      ~ In (strings_TrimSpace P s) (tl (strings.Split (env.updatePath P L old new) ";")))
  /\ (forall L old new s,
      In s (strings.Split L ";") ->
      strings.Contains (strings_ToUpper P (strings_TrimSpace P s)) "%JAVA_HOME%" = true ->
      ~ In (strings_TrimSpace P s) (tl (strings.Split (env.updatePath P L old new) ";")))
  /\ (filepath_Join P ["C:\X"; "bin"] = "C:\X\bin" ->
      forall s, strings.hasByte ";" s = false ->
        strings_EqualFold P (strings_TrimSpace P s) "C:\X\bin" = true ->
        env.updatePath P (s ++ ";OTHER") "C:\X" "C:\Y" = "%JAVA_HOME%\bin;OTHER").
Proof.
  intro HP. split; [|split].
  - intros L old new s _ Hold Hname Hin.
    apply (kept_of_split P HP) in Hin as [_ Hk].
    apply (keeps_not_old P old _ Hk) in Hold.
    unfold env.namesHome in Hold. apply orb_false_iff in Hold as [H12 H3].
    apply orb_false_iff in H12 as [H1 H2].
    destruct Hname as [H|[H|H]]; congruence.
  - intros L old new s _ Href Hin.
    apply (kept_of_split P HP) in Hin as [_ Hk].
    apply keeps_not_ref in Hk. unfold env.isHomeRef in Hk. congruence.
  - intros HJ s Hsemi Hs.
    unfold env.updatePath, env.updatePath_segments.
    change (s ++ ";OTHER") with (s ++ String ";" "OTHER").
    rewrite (Split_append s "OTHER" ";" Hsemi).
    change (strings.Split "OTHER" ";") with ["OTHER"].
    rewrite updatePath_loop. cbn [map filter app].
    assert (K1 : env.keeps P "C:\X" (strings_TrimSpace P s) = false).
    { rewrite keeps_spec. unfold env.namesHome. rewrite HJ, Hs.
      cbn [orb negb String.eqb Ascii.eqb Bool.eqb andb]. now rewrite andb_false_r. }
    assert (K2 : env.keeps P "C:\X" (strings_TrimSpace P "OTHER") = true).
    { rewrite (trim_ascii P HP) by reflexivity.
      change (ASCII.TrimSpace "OTHER") with "OTHER".
      rewrite keeps_spec. unfold env.namesHome, env.isHomeRef.
      rewrite HJ, !(fold_ascii P HP), !(lower_ascii P HP), (upper_ascii P HP)
        by reflexivity.
      reflexivity. }
    rewrite K1, K2. rewrite (trim_ascii P HP) by reflexivity. reflexivity.
Qed.

(** The rewrite at the list of the claim, in three casings. *)
Lemma updatePath_removes_old_home_segments_witness :
  ~ In "C:\x\BIN" (tl (strings.Split
        (env.updatePath winpath.lib "C:\Windows; C:\x\BIN ;OTHER" "C:\X" "C:\Y") ";"))
  /\ ~ In "%java_home%\bin" (tl (strings.Split
        (env.updatePath winpath.lib "%java_home%\bin;OTHER" EmptyString "C:\Y") ";"))
  /\ env.updatePath winpath.lib (" c:\x\BIN " ++ ";OTHER") "C:\X" "C:\Y"
     = "%JAVA_HOME%\bin;OTHER".
Proof.
  destruct (updatePath_removes_old_home_segments winpath.lib winpath_lawful)
    as (H1 & H2 & H3).
  split; [|split].
  - apply (H1 "C:\Windows; C:\x\BIN ;OTHER" "C:\X" "C:\Y" " C:\x\BIN ").
    + simpl. tauto.
    + discriminate.
    + left. reflexivity.
  - apply (H2 "%java_home%\bin;OTHER" EmptyString "C:\Y" "%java_home%\bin").
    + simpl. tauto.
    + reflexivity.
  - apply H3; reflexivity.
Defined.

(** ** C1: the rewrite applied twice *)

(** C1 (as amended).  Each result of [updatePath] holds exactly one
    %JAVA_HOME% reference, the prepended one.  Applying the rewrite a
    second time, with the new home as the old one, removes the segments
    that name the new home, in the sense of the test the loop makes for
    an old home; hence the second result is the first exactly when the
    new home is empty or no segment after the first names it. *)
Theorem updatePath_twice (P : Platform) (L old H : string) :
  Lawful P ->
  let once := env.updatePath P L old H in
  let twice := env.updatePath P once H H in
  List.length (filter (env.isHomeRef P) (strings.Split once ";")) = 1
  /\ List.length (filter (env.isHomeRef P) (strings.Split twice ";")) = 1
  /\ strings.Split twice ";" =
       "%JAVA_HOME%\bin" ::
         filter (fun p => negb (negb (String.eqb H EmptyString) && env.namesHome P H p))
                (tl (strings.Split once ";"))
  /\ (twice = once <->
      H = EmptyString \/
      forall p, In p (tl (strings.Split once ";")) -> env.namesHome P H p = false).
Proof.
  intros HP once twice. subst once twice.
  split; [now apply count_refs|]. split; [now apply count_refs|].
  split; [now apply split_updatePath_twice|].
  set (kept := tl (strings.Split (env.updatePath P L old H) ";")).
  set (f := fun p => negb (negb (String.eqb H EmptyString) && env.namesHome P H p)).
  assert (Hsplit1 : strings.Split (env.updatePath P L old H) ";" = "%JAVA_HOME%\bin" :: kept).
  { unfold kept. now rewrite split_updatePath. }
  assert (Hall : filter f kept = kept <->
                 H = EmptyString \/ forall p, In p kept -> env.namesHome P H p = false).
  { rewrite filter_all. unfold f. split.
    - intro Hf. destruct (String.eqb H EmptyString) eqn:E.
      + left. now apply String.eqb_eq.
      + right. intros p Hp. specialize (Hf p Hp). simpl in Hf.
        now apply negb_true_iff in Hf.
    - intros [-> | Hno] p Hp; [reflexivity|].
      rewrite (Hno p Hp). now rewrite andb_false_r. }
  rewrite <- Hall. split.
  - intro E. pose proof (split_updatePath_twice P HP L old H) as H2.
    rewrite E, Hsplit1 in H2. fold kept f in H2. now injection H2.
  - intro E. unfold env.updatePath at 1.
    rewrite (updatePath_segments_filter P).
    pose proof (split_updatePath_twice P HP L old H) as H2.
    rewrite (split_updatePath P HP) in H2. fold kept f in H2. rewrite E in H2.
    injection H2 as H2. rewrite H2.
    unfold env.updatePath. rewrite (updatePath_segments_filter P).
    f_equal. f_equal. unfold kept. now rewrite split_updatePath.
Qed.

(** The claim as it was made fails: the literal bin folder of the new
    home, kept by the first rewrite, is dropped by the second. *)
Lemma second_rewrite_drops_literal_bin :
  env.updatePath winpath.lib
    (env.updatePath winpath.lib "C:\Y\bin;C:\Windows" "C:\X" "C:\Y") "C:\Y" "C:\Y"
  <> env.updatePath winpath.lib "C:\Y\bin;C:\Windows" "C:\X" "C:\Y".
Proof. vm_compute. discriminate. Qed.

Example updatePath_twice_values :
  env.updatePath winpath.lib "C:\Y\bin;C:\Windows" "C:\X" "C:\Y"
    = "%JAVA_HOME%\bin;C:\Y\bin;C:\Windows"
  /\ env.updatePath winpath.lib "%JAVA_HOME%\bin;C:\Y\bin;C:\Windows" "C:\Y" "C:\Y"
    = "%JAVA_HOME%\bin;C:\Windows".
Proof. split; reflexivity. Qed.

(** ** Running the state-passing code *)

Lemma bind_run {A B} (m : M A) (k : A -> M B) w :
  bind m k w = k (fst (m w)) (snd (m w)).
Proof. unfold bind. now destruct (m w). Qed.

Lemma call_run h c w : sys.call h c w = (refuses h c, logCall c w).
Proof. reflexivity. Qed.

Lemma update_same {V} key (v : option V) f : update key v f key = v.
Proof. unfold update. now rewrite String.eqb_refl. Qed.

Lemma update_other {V} key (v : option V) f k : k <> key -> update key v f k = f k.
Proof.
  unfold update. intro H. destruct (String.eqb k key) eqn:E; [|reflexivity].
  apply String.eqb_eq in E. contradiction.
Qed.

(** unfold the calls of the model down to the world *)
Ltac run_sys :=
  unfold sys.Create, sys.OpenFile, sys.truncate, sys.Get, sys.Copy, sys.Open, sys.Stat,
    sys.MkdirAll, sys.RemoveAll, sys.Rename, sys.ReadFile, sys.WriteFile, sys.ReadAll,
    sys.OpenReader, sys.UserHomeDir, sys.Executable, sys.Select, sys.MultiSelect,
    sys.Save, sys.modifyConfig, sys.getConfig, sys.call, bind, ret in *.

Ltac step :=
  cbv beta iota;
  cbn [fst snd negb files registry config saved trace
       logCall setFiles setRegistry setConfig setSaved].

(** ** C5, C6: the download *)

Section Download.
Variable h : Host.

(** A download that returns no error wrote as many bytes as the
    response declared. *)
Lemma DownloadFile_nil_complete url destPath w :
  fst (installer.DownloadFile h url destPath w) = None ->
  Z.of_nat (List.length (Body (serves h url))) = ContentLength (serves h url).
Proof.
  unfold installer.DownloadFile. run_sys. step.
  destruct (refuses h (os_Create destPath)); step; [discriminate|].
  destruct (files w destPath) as [[|]|]; step; try discriminate.
  all: destruct (refuses h (http_Get url)); step; [discriminate|].
  all: destruct (Z.eqb (StatusCode (serves h url)) 200); step; [|discriminate].
  all: destruct (refuses h (io_Copy destPath)); step; [discriminate|].
  all: destruct (Z.eqb _ _) eqn:E; step; [|discriminate].
  all: intros _; now apply Z.eqb_eq.
Qed.

(** C5.  When the transfer itself reports no error and the bytes
    written are not as many as the response declared, [DownloadFile]
    returns the incomplete-download error; and whatever the transfer
    reports, it never returns without error on such a count. *)
Theorem DownloadFile_incomplete (url destPath : string) (w : World) :
  let resp := serves h url in
  let written := Z.of_nat (List.length (Body resp)) in
  refuses h (os_Create destPath) = None -> files w destPath <> Some Dir ->
  refuses h (http_Get url) = None -> StatusCode resp = 200%Z ->
  refuses h (io_Copy destPath) = None ->
  written <> ContentLength resp ->
  fst (installer.DownloadFile h url destPath w)
  = Some (errorString ("incomplete download: got " ++ itoa written
                       ++ " bytes, expected " ++ itoa (ContentLength resp)))
  /\ forall w0 dest0, fst (installer.DownloadFile h url dest0 w0) <> None.
Proof.
  intros resp written Hcreate Hdir Hget Hstatus Hcopy Hneq. subst resp written. split.
  - unfold installer.DownloadFile. run_sys. step.
    rewrite Hcreate. step.
    destruct (files w destPath) as [[|]|] eqn:F; step;
      try (exfalso; now apply Hdir).
    all: rewrite Hget; step; rewrite Hstatus; step; rewrite Hcopy; step.
    all: apply Z.eqb_neq in Hneq; now rewrite Hneq.
  - intros w0 dest0 Hnil. apply DownloadFile_nil_complete in Hnil. contradiction.
Qed.

(** C6 (as amended).  [DownloadFile] creates the destination, or
    empties it if it exists, before it issues the request; when the
    request fails to start it returns that failure and leaves the
    destination behind, empty. *)
Theorem DownloadFile_creates_before_request (url destPath : string) (w : World)
    (e : error) :
  refuses h (os_Create destPath) = None -> files w destPath <> Some Dir ->
  refuses h (http_Get url) = Some e ->
  fst (installer.DownloadFile h url destPath w) = Some (Errorf_w "failed to download: " e)
  /\ trace (snd (installer.DownloadFile h url destPath w))
     = (trace w ++ [os_Create destPath; http_Get url])%list
  /\ files (snd (installer.DownloadFile h url destPath w)) destPath = Some (File []).
Proof.
  intros Hcreate Hdir Hget.
  unfold installer.DownloadFile. run_sys. step. rewrite Hcreate. step.
  destruct (files w destPath) as [[|]|] eqn:F; step;
    try (exfalso; now apply Hdir).
  all: rewrite Hget; step.
  all: rewrite update_same, <- app_assoc; auto.
Qed.

End Download.

Lemma DownloadFile_incomplete_witness :
  fst (installer.DownloadFile demo.host demo.shortURL "C:\Temp\short.zip" demo.world)
  = Some (errorString "incomplete download: got 17 bytes, expected 100").
Proof.
  refine (proj1 (DownloadFile_incomplete demo.host demo.shortURL "C:\Temp\short.zip"
                   demo.world _ _ _ _ _ _)).
  - reflexivity.
  - discriminate.
  - reflexivity.
  - reflexivity.
  - reflexivity.
  - vm_compute. discriminate.
Defined.

Lemma DownloadFile_creates_before_request_witness :
  files (snd (installer.DownloadFile (demo.failing demo.offline) demo.archiveURL
                "C:\Temp\jdk.zip" demo.world)) "C:\Temp\jdk.zip"
  = Some (File []).
Proof.
  refine (proj2 (proj2 (DownloadFile_creates_before_request (demo.failing demo.offline)
            demo.archiveURL "C:\Temp\jdk.zip" demo.world
            (errorString "dial tcp: no route to host") _ _ _))).
  - reflexivity.
  - discriminate.
  - reflexivity.
Defined.

(** C6 fails as stated.  With the network down and no destination on
    disk, [DownloadFile] fails and an empty destination is on disk
    afterwards; and the creation is not exclusive: a destination that
    exists is overwritten by the download. *)
Lemma DownloadFile_leaves_destination :
  let down := installer.DownloadFile (demo.failing demo.offline) demo.archiveURL
                "C:\Temp\jdk.zip" demo.world in
  let existing := setFiles (update "C:\Temp\jdk.zip"
                              (Some (File (list_byte_of_string "old"))) (files demo.world))
                           demo.world in
  let again := installer.DownloadFile demo.host demo.archiveURL "C:\Temp\jdk.zip" existing in
  files demo.world "C:\Temp\jdk.zip" = None
  /\ fst down <> None
  /\ files (snd down) "C:\Temp\jdk.zip" = Some (File [])
  /\ fst again = None
  /\ files (snd again) "C:\Temp\jdk.zip" = Some (File demo.archive).
Proof. vm_compute. repeat split. discriminate. Qed.

(** ** C4: the checksum gate *)

Lemma quiet_refl w : quiet w w.
Proof. exists []. now rewrite app_nil_r. Qed.

Lemma quiet_trans w1 w2 w3 : quiet w1 w2 -> quiet w2 w3 -> quiet w1 w3.
Proof.
  intros (c1 & E1 & F1) (c2 & E2 & F2). exists (c1 ++ c2)%list. split.
  - now rewrite E2, E1, app_assoc.
  - now rewrite forallb_app, F1, F2.
Qed.

Lemma quiet_same_trace w w1 w2 : trace w2 = trace w1 -> quiet w w1 -> quiet w w2.
Proof. intros E (c & E1 & F1). exists c. now rewrite E. Qed.

Lemma quiet_logCall w w' c : isExtraction c = false -> quiet w w' -> quiet w (logCall c w').
Proof.
  intros Hc (cs & E & F). exists (cs ++ [c])%list. split.
  - cbn [trace logCall]. now rewrite E, app_assoc.
  - rewrite forallb_app, F. simpl. now rewrite Hc.
Qed.

Lemma quiet_setFiles w w' f : quiet w w' -> quiet w (setFiles f w').
Proof. now apply quiet_same_trace. Qed.

Lemma quiet_In w w' c : quiet w w' -> In c (trace w') -> isExtraction c = true -> In c (trace w).
Proof.
  intros (cs & E & F) Hin Hc. rewrite E in Hin. apply in_app_iff in Hin as [Hin|Hin].
  - assumption.
  - rewrite forallb_forall in F. specialize (F c Hin). rewrite Hc in F. discriminate.
Qed.

Ltac quiet_done :=
  repeat first [ apply quiet_refl
               | apply quiet_setFiles
               | apply quiet_logCall; [reflexivity|] ].

Section Gate.
Variable h : Host.

Lemma WithSpinner_run {A} message (fn : M A) w :
  interrupts h message = false ->
  installer.WithSpinner h message fn w
  = ((Some (fst (fn w)), refuses h (tea_Run message)),
     logCall (tea_Run message) (snd (fn w))).
Proof.
  intro Hint. unfold installer.WithSpinner. rewrite Hint, bind_run, bind_run. reflexivity.
Qed.

(** When the spinner ends first, the callback has assigned nothing. *)
Lemma WithSpinner_interrupted {A} message (fn : M A) w :
  interrupts h message = true ->
  installer.WithSpinner h message fn w
  = ((None, refuses h (tea_Run message)),
     logCall (go_func message) (logCall (tea_Run message) w)).
Proof.
  intro Hint. unfold installer.WithSpinner. rewrite Hint, bind_run, bind_run. reflexivity.
Qed.

Lemma DownloadFile_quiet url destPath w :
  quiet w (snd (installer.DownloadFile h url destPath w)).
Proof.
  unfold installer.DownloadFile. run_sys. step.
  destruct (refuses h (os_Create destPath)); step; [quiet_done|].
  destruct (files w destPath) as [[|]|]; step; try quiet_done.
  all: destruct (refuses h (http_Get url)); step; [quiet_done|].
  all: destruct (Z.eqb (StatusCode (serves h url)) 200); step; [|quiet_done].
  all: destruct (refuses h (io_Copy destPath)); step; [quiet_done|].
  all: destruct (Z.eqb _ _); step; quiet_done.
Qed.

(** After a download that returned no error, the destination holds the
    body served. *)
Lemma DownloadFile_content url destPath w :
  fst (installer.DownloadFile h url destPath w) = None ->
  files (snd (installer.DownloadFile h url destPath w)) destPath
  = Some (File (Body (serves h url))).
Proof.
  unfold installer.DownloadFile. run_sys. step.
  destruct (refuses h (os_Create destPath)); step; [discriminate|].
  destruct (files w destPath) as [[|]|]; step; try discriminate.
  all: destruct (refuses h (http_Get url)); step; [discriminate|].
  all: destruct (Z.eqb (StatusCode (serves h url)) 200); step; [|discriminate].
  all: destruct (refuses h (io_Copy destPath)); step; [discriminate|].
  all: destruct (Z.eqb _ _); step; [|discriminate].
  all: intros _; now rewrite !update_same.
Qed.

Lemma VerifyChecksum_quiet filePath expected w :
  quiet w (snd (installer.VerifyChecksum h filePath expected w)).
Proof.
  unfold installer.VerifyChecksum. run_sys. step.
  destruct (refuses h (os_Open filePath)); step; [quiet_done|].
  destruct (files w filePath); step; quiet_done.
Qed.

(** What [VerifyChecksum] returns on a file that is there. *)
Lemma VerifyChecksum_run filePath expected w data :
  files w filePath = Some (File data) ->
  fst (installer.VerifyChecksum h filePath expected w) =
  match refuses h (os_Open filePath), refuses h (io_CopyHash filePath) with
  | Some err, _ => Some (Errorf_w "failed to open file: " err)
  | None, Some err => Some (Errorf_w "failed to calculate checksum: " err)
  | None, None =>
      let actual := hex.EncodeToString (sha256.Sum data) in
      if strings_EqualFold (paths h) actual expected then None
      else Some (errorString ("checksum mismatch: expected " ++ expected
                              ++ ", got " ++ actual))
  end.
Proof.
  intro F. unfold installer.VerifyChecksum. run_sys. step.
  destruct (refuses h (os_Open filePath)); step; [reflexivity|].
  rewrite F. step.
  destruct (refuses h (io_CopyHash filePath)); [reflexivity|].
  now destruct (strings_EqualFold _ _ _).
Qed.

Lemma installStaged_mismatch downloadInfo version installBase tempDir w :
  interrupts h "Verifying checksum..." = false ->
  strings_EqualFold (paths h)
    (hex.EncodeToString (sha256.Sum (Body (serves h (installer.URL downloadInfo)))))
    (installer.Checksum downloadInfo) = false ->
  snd (fst (installer.installStaged h downloadInfo version installBase tempDir w)) <> None
  /\ quiet w (snd (installer.installStaged h downloadInfo version installBase tempDir w)).
Proof.
  intros Hint Hmis. unfold installer.installStaged.
  set (zipPath := filepath_Join (paths h) [tempDir; installer.FileName downloadInfo]).
  rewrite bind_run.
  pose proof (DownloadFile_quiet (installer.URL downloadInfo) zipPath w) as Q1.
  destruct (fst (installer.DownloadFile h (installer.URL downloadInfo) zipPath w)) eqn:D.
  - unfold ret. cbn [fst snd]. split; [discriminate|exact Q1].
  - pose proof (DownloadFile_content _ _ _ D) as F.
    set (w1 := snd (installer.DownloadFile h (installer.URL downloadInfo) zipPath w)) in *.
    rewrite bind_run, (WithSpinner_run _ _ _ Hint). cbn [fst snd].
    pose proof (VerifyChecksum_quiet zipPath (installer.Checksum downloadInfo) w1) as Q2.
    rewrite (VerifyChecksum_run _ _ _ _ F). cbv zeta. rewrite Hmis.
    set (w2 := snd (installer.VerifyChecksum h zipPath (installer.Checksum downloadInfo) w1))
      in *.
    assert (Q : quiet w (logCall (tea_Run "Verifying checksum...") w2)).
    { apply quiet_logCall; [reflexivity|]. now apply (quiet_trans w w1 w2). }
    destruct (refuses h (tea_Run "Verifying checksum..."));
      destruct (refuses h (os_Open zipPath));
      destruct (refuses h (io_CopyHash zipPath));
      unfold ret; cbn [fst snd]; (split; [discriminate|exact Q]).
Qed.

Lemma InstallJDK_mismatch downloadInfo version distributor isSystemWide w :
  interrupts h "Verifying checksum..." = false ->
  strings_EqualFold (paths h)
    (hex.EncodeToString (sha256.Sum (Body (serves h (installer.URL downloadInfo)))))
    (installer.Checksum downloadInfo) = false ->
  snd (fst (installer.InstallJDK h downloadInfo version distributor isSystemWide w)) <> None
  /\ quiet w (snd (installer.InstallJDK h downloadInfo version distributor isSystemWide w)).
Proof.
  intros Hint Hmis. unfold installer.InstallJDK.
  assert (Hstaged : forall installBase w1, quiet w w1 ->
    let m := (e <- sys.MkdirAll h installBase ;;
      match e with
      | Some err =>
          ret (EmptyString,
               Some (Errorf_w "failed to create installation directory: " err))
      | None =>
          e0 <- sys.MkdirAll h (installer.stagingDir h) ;;
          match e0 with
          | Some err =>
              ret (EmptyString, Some (Errorf_w "failed to create temp directory: " err))
          | None =>
              result <- installer.installStaged h downloadInfo version installBase
                          (installer.stagingDir h) ;;
              _ <- sys.RemoveAll h (installer.stagingDir h) ;;
              ret result
          end
      end) in
    snd (fst (m w1)) <> None /\ quiet w (snd (m w1))).
  { intros installBase w1 Q0 m. subst m.
    rewrite bind_run.
    assert (QA : quiet w (snd (sys.MkdirAll h installBase w1))).
    { unfold sys.MkdirAll. run_sys. step.
      destruct (refuses h (os_MkdirAll installBase)); step; [quiet_done; exact Q0|].
      destruct (files w1 installBase) as [[|]|]; step; quiet_done; exact Q0. }
    destruct (fst (sys.MkdirAll h installBase w1)).
    { unfold ret. cbn [fst snd]. split; [discriminate|exact QA]. }
    set (w2 := snd (sys.MkdirAll h installBase w1)) in *.
    rewrite bind_run.
    assert (QB : quiet w (snd (sys.MkdirAll h (installer.stagingDir h) w2))).
    { unfold sys.MkdirAll. run_sys. step.
      destruct (refuses h (os_MkdirAll (installer.stagingDir h))); step;
        [quiet_done; exact QA|].
      destruct (files w2 (installer.stagingDir h)) as [[|]|]; step; quiet_done; exact QA. }
    destruct (fst (sys.MkdirAll h (installer.stagingDir h) w2)).
    { unfold ret. cbn [fst snd]. split; [discriminate|exact QB]. }
    set (w3 := snd (sys.MkdirAll h (installer.stagingDir h) w2)) in *.
    rewrite bind_run, bind_run.
    destruct (installStaged_mismatch downloadInfo version installBase
                (installer.stagingDir h) w3 Hint Hmis) as [He Q3].
    unfold ret. cbn [fst snd]. split; [exact He|].
    apply (quiet_trans w w3); [exact QB|].
    eapply quiet_trans; [exact Q3|].
    unfold sys.RemoveAll. run_sys. step.
    destruct (refuses h (os_RemoveAll (installer.stagingDir h))); step; quiet_done. }
  rewrite bind_run. destruct isSystemWide.
  - unfold ret at 1. cbn [fst snd]. apply Hstaged. apply quiet_refl.
  - rewrite bind_run. unfold sys.UserHomeDir. rewrite bind_run, call_run.
    unfold ret at 1 2. cbn [fst snd].
    destruct (refuses h os_UserHomeDir).
    + unfold ret. cbn [fst snd]. split; [discriminate|]. quiet_done.
    + apply Hstaged. quiet_done.
Qed.

(** With the verification interrupted, the expected digest has no part
    in what [installStaged] does. *)
Lemma installStaged_unverified d d' version installBase tempDir w :
  interrupts h "Verifying checksum..." = true ->
  installer.URL d = installer.URL d' -> installer.FileName d = installer.FileName d' ->
  installer.installStaged h d version installBase tempDir w
  = installer.installStaged h d' version installBase tempDir w.
Proof.
  intros Hint Hu Hf. unfold installer.installStaged.
  rewrite Hu, Hf, !bind_run.
  destruct (fst (installer.DownloadFile h _ _ w)); [reflexivity|].
  now rewrite !bind_run, !(WithSpinner_interrupted _ _ _ Hint).
Qed.

End Gate.

(** C4.  On a file that can be opened and read, [VerifyChecksum] returns
    an error exactly when the hex-encoded SHA-256 digest of the file and
    the expected digest differ up to case, and the error is the checksum
    mismatch.  When the spinner shown during the verification runs until
    the verification is done, an archive that does not have the expected
    digest makes [InstallJDK] return an error, that of [VerifyChecksum]
    wrapped, and no archive is read: no call of [ExtractZip] is made.
    When that spinner is ended first, by ctrl+c, the result of the
    verification is never read: what [InstallJDK] does from the download
    on is the same for every expected digest. *)
Theorem VerifyChecksum_gates_extraction (h : Host) :
  (forall filePath expected w data,
      refuses h (os_Open filePath) = None -> files w filePath = Some (File data) ->
      refuses h (io_CopyHash filePath) = None ->
      let actual := hex.EncodeToString (sha256.Sum data) in
      (fst (installer.VerifyChecksum h filePath expected w) <> None
       <-> strings_EqualFold (paths h) actual expected = false)
      /\ (strings_EqualFold (paths h) actual expected = false ->
          fst (installer.VerifyChecksum h filePath expected w)
          = Some (errorString ("checksum mismatch: expected " ++ expected
                               ++ ", got " ++ actual))))
  /\ (interrupts h "Verifying checksum..." = false ->
      (forall downloadInfo version distributor isSystemWide w,
        strings_EqualFold (paths h)
          (hex.EncodeToString (sha256.Sum (Body (serves h (installer.URL downloadInfo)))))
          (installer.Checksum downloadInfo) = false ->
        let r := installer.InstallJDK h downloadInfo version distributor isSystemWide w in
        snd (fst r) <> None
        /\ forall c, In c (trace (snd r)) -> isExtraction c = true -> In c (trace w))
      /\ (forall downloadInfo version installBase tempDir w err,
        let zipPath := filepath_Join (paths h) [tempDir; installer.FileName downloadInfo] in
        let downloaded := installer.DownloadFile h (installer.URL downloadInfo) zipPath w in
        fst downloaded = None ->
        fst (installer.VerifyChecksum h zipPath (installer.Checksum downloadInfo)
               (snd downloaded)) = Some err ->
        refuses h (tea_Run "Verifying checksum...") = None ->
        fst (installer.installStaged h downloadInfo version installBase tempDir w)
        = (EmptyString, Some (Errorf_w "checksum verification failed: " err))))
  /\ (interrupts h "Verifying checksum..." = true ->
      forall d d' version installBase tempDir w,
        installer.URL d = installer.URL d' ->
        installer.FileName d = installer.FileName d' ->
        installer.installStaged h d version installBase tempDir w
        = installer.installStaged h d' version installBase tempDir w).
Proof.
  split; [|split].
  - intros filePath expected w data Hopen F Hcopy actual. subst actual.
    rewrite (VerifyChecksum_run h _ _ _ _ F), Hopen, Hcopy. cbv zeta.
    destruct (strings_EqualFold _ _ _); split; try split;
      intros; try discriminate; try reflexivity; congruence.
  - intro Hint. split.
    + intros downloadInfo version distributor isSystemWide w Hmis r. subst r.
      destruct (InstallJDK_mismatch h downloadInfo version distributor isSystemWide w
                  Hint Hmis) as [He Q].
      split; [exact He|]. intros c Hin Hc. exact (quiet_In _ _ _ Q Hin Hc).
    + intros downloadInfo version installBase tempDir w err zipPath downloaded D V Hui.
      subst downloaded. unfold installer.installStaged. fold zipPath.
      rewrite bind_run, D, bind_run, (WithSpinner_run h _ _ _ Hint). cbn [fst snd].
      rewrite V, Hui. reflexivity.
  - intros Hint d d' version installBase tempDir w Hu Hf.
    now apply installStaged_unverified.
Qed.

(** On the demonstration host a wrong digest is refused and [InstallJDK]
    fails without reading the archive.  With ctrl+c pressed while the
    verification is shown, the archive with the wrong digest is
    installed: [InstallJDK] returns no error, the archive has been read
    and the tree is at its final path. *)
Lemma VerifyChecksum_gates_extraction_witness :
  let staged := setFiles (update "C:\Temp\a.zip" (Some (File demo.archive))
                            (files demo.world)) demo.world in
  let pressed := scenario.interrupting "Verifying checksum..." in
  let r := installer.InstallJDK pressed scenario.wrongDigest "21" "Eclipse Adoptium"
             false demo.world in
  (fst (installer.VerifyChecksum demo.host "C:\Temp\a.zip" "00ff" staged) <> None
   <-> strings_EqualFold (paths demo.host)
         (hex.EncodeToString (sha256.Sum demo.archive)) "00ff" = false)
  /\ snd (fst (installer.InstallJDK demo.host scenario.wrongDigest "21" "Eclipse Adoptium"
                 false demo.world)) <> None
  /\ fst (installer.installStaged demo.host scenario.wrongDigest "21" "C:\Users\ada\.jv"
            "C:\Temp\jv-install" demo.world)
     = (EmptyString,
        Some (Errorf_w "checksum verification failed: "
                (errorString ("checksum mismatch: expected 00ff, got "
                              ++ hex.EncodeToString (sha256.Sum demo.archive)))))
  /\ installer.installStaged pressed scenario.wrongDigest "21" "C:\Users\ada\.jv"
       "C:\Temp\jv-install" demo.world
     = installer.installStaged pressed demo.info "21" "C:\Users\ada\.jv"
         "C:\Temp\jv-install" demo.world
  /\ fst r = ("C:\Users\ada\.jv\jdk-21", None)
  /\ In (zip_OpenReader "C:\Temp\jv-install\jdk-21.zip") (trace (snd r))
  /\ files (snd r) "C:\Users\ada\.jv\jdk-21\bin\java.exe" <> None.
Proof.
  intros staged pressed r.
  destruct (VerifyChecksum_gates_extraction demo.host) as (H1 & H2 & _).
  destruct (H2 eq_refl) as (H2a & H2b).
  destruct (VerifyChecksum_gates_extraction pressed) as (_ & _ & H3).
  split; [|split; [|split; [|split; [|split; [|split]]]]].
  - apply (H1 "C:\Temp\a.zip" "00ff" staged demo.archive); reflexivity.
  - apply (H2a scenario.wrongDigest "21" "Eclipse Adoptium" false demo.world).
    vm_compute. reflexivity.
  - apply (H2b scenario.wrongDigest "21" "C:\Users\ada\.jv" "C:\Temp\jv-install"
             demo.world).
    + vm_compute. reflexivity.
    + vm_compute. reflexivity.
    + reflexivity.
  - apply (H3 eq_refl); reflexivity.
  - vm_compute. reflexivity.
  - vm_compute. tauto.
  - vm_compute. discriminate.
Defined.

(** ** The record of calls only grows *)

Lemma extends_refl w : extends w w.
Proof. exists []. now rewrite app_nil_r. Qed.

Lemma extends_trans w1 w2 w3 : extends w1 w2 -> extends w2 w3 -> extends w1 w3.
Proof.
  intros (c1 & E1) (c2 & E2). exists (c1 ++ c2)%list. now rewrite E2, E1, app_assoc.
Qed.

Lemma extends_logCall w w' c : extends w w' -> extends w (logCall c w').
Proof.
  intros (cs & E). exists (cs ++ [c])%list. cbn [trace logCall]. now rewrite E, app_assoc.
Qed.

Lemma extends_same_trace w w1 w2 : trace w2 = trace w1 -> extends w w1 -> extends w w2.
Proof. intros E (c & E1). exists c. now rewrite E. Qed.

Lemma monotone_ret {A} (a : A) : monotone (ret a).
Proof. intro w. apply extends_refl. Qed.

Lemma monotone_bind {A B} (m : M A) (k : A -> M B) :
  monotone m -> (forall a, monotone (k a)) -> monotone (bind m k).
Proof.
  intros Hm Hk w. rewrite bind_run.
  eapply extends_trans; [apply Hm|apply Hk].
Qed.

Lemma monotone_call h c : monotone (sys.call h c).
Proof. intro w. rewrite call_run. cbn [snd]. apply extends_logCall, extends_refl. Qed.

(** a step that leaves the record of calls alone *)
Lemma monotone_quiet {A} (m : M A) :
  (forall w, trace (snd (m w)) = trace w) -> monotone m.
Proof. intros H w. exists []. now rewrite app_nil_r. Qed.

Ltac monotone_step :=
  first [ apply monotone_ret
        | apply monotone_call
        | apply monotone_bind; [|intros]
        | match goal with
          | |- monotone (match ?x with _ => _ end) => destruct x
          | |- monotone (if ?b then _ else _) => destruct b
          | |- monotone (fun w => _) =>
              apply monotone_quiet; intro; repeat (step; match goal with
                | |- context [match ?x with _ => _ end] => destruct x end); reflexivity
          end ].

Create HintDb monotone.

Section Monotone.
Variable h : Host.

Lemma monotone_MkdirAll p : monotone (sys.MkdirAll h p).
Proof. unfold sys.MkdirAll. repeat monotone_step. Qed.

Lemma monotone_RemoveAll p : monotone (sys.RemoveAll h p).
Proof. unfold sys.RemoveAll. repeat monotone_step. Qed.

Lemma monotone_truncate c p : monotone (sys.truncate h c p).
Proof. unfold sys.truncate. repeat monotone_step. Qed.

Lemma monotone_Open p : monotone (sys.Open h p).
Proof. unfold sys.Open. repeat monotone_step. Qed.

Lemma monotone_Stat p : monotone (sys.Stat h p).
Proof. unfold sys.Stat. repeat monotone_step. Qed.

Lemma monotone_Rename a b : monotone (sys.Rename h a b).
Proof. unfold sys.Rename. repeat monotone_step. Qed.

Lemma monotone_Copy dst src : monotone (sys.Copy h dst src).
Proof. unfold sys.Copy. repeat monotone_step. Qed.

Lemma monotone_Get url : monotone (sys.Get h url).
Proof. unfold sys.Get. repeat monotone_step. Qed.

Lemma monotone_OpenReader p : monotone (sys.OpenReader h p).
Proof. unfold sys.OpenReader. repeat monotone_step. Qed.

Lemma monotone_UserHomeDir : monotone (sys.UserHomeDir h).
Proof. unfold sys.UserHomeDir. repeat monotone_step. Qed.

#[local] Hint Resolve monotone_MkdirAll monotone_RemoveAll monotone_truncate monotone_Open
  monotone_Stat monotone_Rename monotone_Copy monotone_Get monotone_OpenReader
  monotone_UserHomeDir : monotone.

Ltac monotone_all :=
  repeat first [ solve [auto with monotone] | monotone_step ].

Lemma monotone_WithSpinner {A} message (fn : M A) :
  monotone fn -> monotone (installer.WithSpinner h message fn).
Proof. intro H. unfold installer.WithSpinner. monotone_all. Qed.

Lemma monotone_DownloadFile url destPath : monotone (installer.DownloadFile h url destPath).
Proof. unfold installer.DownloadFile, sys.Create. monotone_all. Qed.

Lemma monotone_VerifyChecksum filePath expected :
  monotone (installer.VerifyChecksum h filePath expected).
Proof. unfold installer.VerifyChecksum. monotone_all. Qed.

Lemma monotone_extractFiles destDir entries :
  monotone (installer.extractFiles h destDir entries).
Proof.
  induction entries as [|file rest IH]; cbn [installer.extractFiles].
  - apply monotone_ret.
  - unfold sys.OpenFile. monotone_all.
Qed.

Lemma monotone_ExtractZip zipPath destDir : monotone (installer.ExtractZip h zipPath destDir).
Proof.
  unfold installer.ExtractZip. pose proof (monotone_extractFiles destDir) as E.
  monotone_all.
Qed.

Lemma monotone_installStaged downloadInfo version installBase tempDir :
  monotone (installer.installStaged h downloadInfo version installBase tempDir).
Proof.
  unfold installer.installStaged.
  pose proof monotone_DownloadFile as D. pose proof monotone_VerifyChecksum as V.
  pose proof monotone_ExtractZip as X.
  pose proof (@monotone_WithSpinner (option error)) as S1.
  pose proof (@monotone_WithSpinner (string * option error)) as S2.
  monotone_all.
Qed.

End Monotone.

(** ** C10: the staging directory *)

(** a run that ends before the staging directory is made *)
Ltac early cs :=
  left; unfold ret; cbn [fst snd]; split; [discriminate|];
  split;
  [ exists cs; split;
    [ cbn [trace logCall setFiles];
      match goal with Ht : trace _ = _ |- _ => rewrite Ht end;
      rewrite <- ?app_assoc; reflexivity
    | rewrite ?forallb_app;
      match goal with Hc : forallb isSetup _ = true |- _ => rewrite ?Hc end; reflexivity ]
  | intros p Hp; cbn [files logCall setFiles]; rewrite ?update_other by exact Hp;
    match goal with Hf : files _ = files _ |- _ => rewrite ?Hf end; reflexivity ].

Section Staging.
Variable h : Host.

Lemma RemoveAll_run path w :
  sys.RemoveAll h path w =
  match refuses h (os_RemoveAll path) with
  | Some e => (Some e, logCall (os_RemoveAll path) w)
  | None =>
      (None, setFiles (fun p => if beneath (paths h) path p then None else files w p)
                      (logCall (os_RemoveAll path) w))
  end.
Proof.
  unfold sys.RemoveAll. run_sys. step. now destruct (refuses h (os_RemoveAll path)).
Qed.

Lemma MkdirAll_run path w :
  sys.MkdirAll h path w =
  match refuses h (os_MkdirAll path) with
  | Some e => (Some e, logCall (os_MkdirAll path) w)
  | None =>
      match files (logCall (os_MkdirAll path) w) path with
      | Some (File _) => (Some ErrNotDir, logCall (os_MkdirAll path) w)
      | _ => (None, setFiles (update path (Some Dir) (files w)) (logCall (os_MkdirAll path) w))
      end
  end.
Proof.
  unfold sys.MkdirAll. run_sys. cbv beta iota. cbn [fst snd].
  now destruct (refuses h (os_MkdirAll path)).
Qed.

Lemma RemoveAll_trace path w :
  trace (snd (sys.RemoveAll h path w)) = (trace w ++ [os_RemoveAll path])%list.
Proof. rewrite RemoveAll_run. now destruct (refuses h (os_RemoveAll path)). Qed.

(** what a removal leaves of a path outside the tree removed *)
Lemma RemoveAll_outside path w p :
  beneath (paths h) path p = false ->
  files (snd (sys.RemoveAll h path w)) p = files w p.
Proof.
  intro H. rewrite RemoveAll_run.
  destruct (refuses h (os_RemoveAll path)); step; [reflexivity|]. now rewrite H.
Qed.

Lemma RemoveAll_inside path w p :
  refuses h (os_RemoveAll path) = None -> beneath (paths h) path p = true ->
  files (snd (sys.RemoveAll h path w)) p = None.
Proof. intros R H. rewrite RemoveAll_run, R. step. now rewrite H. Qed.

Lemma Rename_success oldpath newpath w :
  beneath (paths h) newpath newpath = true ->
  reroot (paths h) newpath oldpath newpath = oldpath ->
  fst (sys.Rename h oldpath newpath w) = None ->
  files (snd (sys.Rename h oldpath newpath w)) newpath <> None.
Proof.
  intros Hb Hr. unfold sys.Rename. run_sys. step.
  destruct (refuses h (os_Rename oldpath newpath)); step; [discriminate|].
  destruct (String.eqb oldpath EmptyString); step; [discriminate|].
  destruct (files w oldpath) as [n|] eqn:Fo; step; [|discriminate].
  destruct (files w newpath) as [[|]|]; step; try discriminate.
  all: intros _; rewrite Hb, Hr, Fo; discriminate.
Qed.

(** a rename that fails moves nothing *)
Lemma Rename_failure oldpath newpath w e :
  fst (sys.Rename h oldpath newpath w) = Some e ->
  files (snd (sys.Rename h oldpath newpath w)) = files w.
Proof.
  unfold sys.Rename. run_sys. step.
  destruct (refuses h (os_Rename oldpath newpath)); step; [reflexivity|].
  destruct (String.eqb oldpath EmptyString); step; [reflexivity|].
  destruct (files w oldpath) as [n|]; step; [|reflexivity].
  destruct (files w newpath) as [[|]|]; step; try reflexivity; discriminate.
Qed.

Lemma WithSpinner_cases {A} message (fn : M A) w :
  installer.WithSpinner h message fn w =
  if interrupts h message
  then ((None, refuses h (tea_Run message)),
        logCall (go_func message) (logCall (tea_Run message) w))
  else ((Some (fst (fn w)), refuses h (tea_Run message)),
        logCall (tea_Run message) (snd (fn w))).
Proof.
  destruct (interrupts h message) eqn:E.
  - now apply WithSpinner_interrupted.
  - now apply WithSpinner_run.
Qed.

(** When the staged part of [InstallJDK] succeeds, it returns the final
    path, and the renamed tree is there. *)
Lemma ret_run {A} (a : A) w : ret a w = (a, w).
Proof. reflexivity. Qed.

Lemma installStaged_success downloadInfo version installBase tempDir w :
  let finalPath := filepath_Join (paths h) [installBase; "jdk-" ++ version] in
  let r := installer.installStaged h downloadInfo version installBase tempDir w in
  beneath (paths h) finalPath finalPath = true ->
  (forall old, reroot (paths h) finalPath old finalPath = old) ->
  snd (fst r) = None ->
  fst (fst r) = finalPath /\ files (snd r) finalPath <> None.
Proof.
  intros finalPath r Hb Hr. destruct r as [res w'] eqn:E. subst r. cbn [fst snd].
  revert E. unfold installer.installStaged. fold finalPath.
  rewrite bind_run.
  destruct (fst (installer.DownloadFile h _ _ w));
    [rewrite ret_run; intros [= <- <-]; discriminate|].
  rewrite bind_run, WithSpinner_cases.
  destruct (interrupts h "Verifying checksum..."); cbn [fst snd].
  all: destruct (refuses h (tea_Run "Verifying checksum..."));
    [rewrite ret_run; intros [= <- <-]; discriminate|].
  2: destruct (fst (installer.VerifyChecksum h _ _ _));
    [rewrite ret_run; intros [= <- <-]; discriminate|].
  all: rewrite bind_run, WithSpinner_cases.
  all: destruct (interrupts h "Extracting JDK..."); cbn [fst snd].
  all: try destruct (fst (installer.ExtractZip h _ _ _)) as [extractedPath extractErr].
  all: cbn [fst snd].
  all: destruct (refuses h (tea_Run "Extracting JDK..."));
    [rewrite ret_run; intros [= <- <-]; discriminate|].
  all: try (destruct extractErr; [rewrite ret_run; intros [= <- <-]; discriminate|]).
  all: rewrite bind_run.
  all: destruct (fst (sys.Stat h _ _));
    [|rewrite ret_run; intros [= <- <-]; discriminate|].
  all: rewrite bind_run.
  all: destruct (fst (sys.Stat h _ _)); cbv iota.
  all: rewrite bind_run.
  all: first [ rewrite ret_run; cbn [fst snd]
             | destruct (fst (sys.RemoveAll h _ _));
               [rewrite ret_run; intros [= <- <-]; discriminate|] ].
  all: rewrite bind_run.
  all: match goal with
       | |- context [sys.Rename _ ?a ?b ?w0] =>
           destruct (fst (sys.Rename h a b w0)) eqn:R
       end;
    [rewrite ret_run; intros [= <- <-]; discriminate|].
  all: rewrite ret_run; intros [= <- <-] _; cbn [fst]; split; [reflexivity|].
  all: now apply Rename_success.
Qed.

(** [InstallJDK] either fails before there is a staging directory,
    having made set-up calls only, or runs its staged part from some
    world and removes the staging directory after it. *)
Lemma InstallJDK_cases downloadInfo version distributor isSystemWide w :
  let staging := installer.stagingDir h in
  let base := installer.installBase h distributor isSystemWide in
  let r := installer.InstallJDK h downloadInfo version distributor isSystemWide w in
  (snd (fst r) <> None
   /\ (exists calls, trace (snd r) = (trace w ++ calls)%list
                     /\ forallb isSetup calls = true)
   /\ (forall p, p <> base -> files (snd r) p = files w p))
  \/ (exists w3,
       r = (fst (installer.installStaged h downloadInfo version base staging w3),
            snd (sys.RemoveAll h staging
                   (snd (installer.installStaged h downloadInfo version base
                           staging w3))))
       /\ extends w w3
       /\ (forall p, p <> base -> p <> staging -> files w3 p = files w p)).
Proof.
  intros staging base r. subst r. unfold installer.InstallJDK. fold staging.
  assert (Hsetup : forall w1 calls,
    trace w1 = (trace w ++ calls)%list -> forallb isSetup calls = true ->
    files w1 = files w ->
    let m := (e <- sys.MkdirAll h base ;;
      match e with
      | Some err =>
          ret (EmptyString,
               Some (Errorf_w "failed to create installation directory: " err))
      | None =>
          e0 <- sys.MkdirAll h staging ;;
          match e0 with
          | Some err =>
              ret (EmptyString, Some (Errorf_w "failed to create temp directory: " err))
          | None =>
              result <- installer.installStaged h downloadInfo version base staging ;;
              _ <- sys.RemoveAll h staging ;;
              ret result
          end
      end) in
    (snd (fst (m w1)) <> None
     /\ (exists calls, trace (snd (m w1)) = (trace w ++ calls)%list
                       /\ forallb isSetup calls = true)
     /\ (forall p, p <> base -> files (snd (m w1)) p = files w p))
    \/ (exists w3,
         m w1 = (fst (installer.installStaged h downloadInfo version base staging w3),
                 snd (sys.RemoveAll h staging
                        (snd (installer.installStaged h downloadInfo version base
                                staging w3))))
         /\ extends w w3
         /\ (forall p, p <> base -> p <> staging -> files w3 p = files w p))).
  { intros w1 calls Ht Hc Hf m. subst m.
    rewrite bind_run, MkdirAll_run.
    destruct (refuses h (os_MkdirAll base)); cbn [fst snd]; [early (calls ++ [os_MkdirAll base])%list|].
    destruct (files (logCall (os_MkdirAll base) w1) base) as [[|]|] eqn:Fb; cbn [fst snd];
      [early (calls ++ [os_MkdirAll base])%list| |].
    all: rewrite bind_run, MkdirAll_run.
    all: destruct (refuses h (os_MkdirAll staging)); cbn [fst snd];
      [early (calls ++ [os_MkdirAll base; os_MkdirAll staging])%list|].
    all: match goal with |- context [match files ?w2 ?s with _ => _ end] =>
           destruct (files w2 s) as [[|]|] eqn:Fs end; cbn [fst snd].
    all: try (early (calls ++ [os_MkdirAll base; os_MkdirAll staging])%list).
    all: right; eexists; split; [rewrite bind_run, bind_run, ret_run; reflexivity|].
    all: split;
      [ exists (calls ++ [os_MkdirAll base; os_MkdirAll staging])%list;
        cbn [trace logCall setFiles]; rewrite Ht, <- !app_assoc; reflexivity
      | intros p Hp1 Hp2; cbn [files logCall setFiles];
        rewrite !update_other by assumption; now rewrite Hf ]. }
  unfold installer.installBase in base.
  rewrite bind_run. destruct isSystemWide.
  - unfold ret at 1. cbn [fst snd]. cbv beta iota.
    apply (Hsetup w []); [now rewrite app_nil_r|reflexivity|reflexivity].
  - rewrite bind_run. unfold sys.UserHomeDir. rewrite bind_run, call_run.
    unfold ret at 1 2. cbn [fst snd].
    destruct (refuses h os_UserHomeDir); cbv beta iota.
    + left. unfold ret. cbn [fst snd]. split; [discriminate|]. split.
      * exists [os_UserHomeDir]. now split.
      * reflexivity.
    + apply (Hsetup _ [os_UserHomeDir]); reflexivity.
Qed.

End Staging.

(** ** What a computation leaves untouched *)

Lemma unchangedOutside_refl S w : unchangedOutside S w w.
Proof. now intros p _. Qed.

Lemma unchangedOutside_trans S w1 w2 w3 :
  unchangedOutside S w1 w2 -> unchangedOutside S w2 w3 -> unchangedOutside S w1 w3.
Proof. intros H1 H2 p Hp. now rewrite (H2 p Hp), (H1 p Hp). Qed.

Lemma writesWithin_ret S {A} (a : A) : writesWithin S (ret a).
Proof. intro w. apply unchangedOutside_refl. Qed.

Lemma writesWithin_bind S {A B} (m : M A) (k : A -> M B) :
  writesWithin S m -> (forall a, writesWithin S (k a)) -> writesWithin S (bind m k).
Proof.
  intros Hm Hk w. rewrite bind_run. eapply unchangedOutside_trans; [apply Hm|apply Hk].
Qed.

(** the same, with what is known of the value the first part yields *)
Lemma writesWithin_bind_post S {A B} (Q : A -> Prop) (m : M A) (k : A -> M B) :
  writesWithin S m -> (forall w, Q (fst (m w))) ->
  (forall a, Q a -> writesWithin S (k a)) -> writesWithin S (bind m k).
Proof.
  intros Hm HQ Hk w. rewrite bind_run.
  eapply unchangedOutside_trans; [apply Hm|apply Hk, HQ].
Qed.

Lemma writesWithin_call S h c : writesWithin S (sys.call h c).
Proof. intros w p _. now rewrite call_run. Qed.

Lemma writesWithin_reads S {A} (m : M A) :
  (forall w, files (snd (m w)) = files w) -> writesWithin S m.
Proof. intros H w p _. now rewrite H. Qed.

Ltac within_step :=
  first [ apply writesWithin_ret
        | apply writesWithin_call
        | apply writesWithin_bind; [|intros]
        | match goal with
          | |- writesWithin _ (match ?x with _ => _ end) => destruct x
          | |- writesWithin _ (if ?b then _ else _) => destruct b
          | |- writesWithin _ (fun w => _) =>
              apply writesWithin_reads; intro; repeat (step; match goal with
                | |- context [match ?x with _ => _ end] => destruct x end); reflexivity
          end ].

Section Frame.
Variable h : Host.
Variable S : string -> bool.

Lemma update_outside {V} p (v : option V) f q :
  S p = true -> S q = false -> update p v f q = f q.
Proof. intros Hp Hq. apply update_other. intros ->. congruence. Qed.

Lemma within_MkdirAll p : S p = true -> writesWithin S (sys.MkdirAll h p).
Proof.
  intros Hp w q Hq. rewrite MkdirAll_run.
  destruct (refuses h (os_MkdirAll p)); [reflexivity|].
  destruct (files (logCall (os_MkdirAll p) w) p) as [[|]|]; step;
    try reflexivity; now apply update_outside.
Qed.

Lemma within_truncate c p : S p = true -> writesWithin S (sys.truncate h c p).
Proof.
  intros Hp w q Hq. unfold sys.truncate. run_sys. step.
  destruct (refuses h c); step; [reflexivity|].
  destruct (files w p) as [[|]|]; step; try reflexivity; now apply update_outside.
Qed.

Lemma within_Copy dst src : S dst = true -> writesWithin S (sys.Copy h dst src).
Proof.
  intros Hp w q Hq. unfold sys.Copy. run_sys. step.
  destruct (refuses h (io_Copy dst)); step; [reflexivity|]. now apply update_outside.
Qed.

Lemma within_RemoveAll p :
  (forall q, beneath (paths h) p q = true -> S q = true) ->
  writesWithin S (sys.RemoveAll h p).
Proof.
  intros Hp w q Hq. rewrite RemoveAll_run.
  destruct (refuses h (os_RemoveAll p)); step; [reflexivity|].
  destruct (beneath (paths h) p q) eqn:B; [|reflexivity].
  apply Hp in B. congruence.
Qed.

Lemma within_Rename a b :
  (a <> EmptyString -> forall q, beneath (paths h) a q = true -> S q = true) ->
  (forall q, beneath (paths h) b q = true -> S q = true) ->
  writesWithin S (sys.Rename h a b).
Proof.
  intros Ha Hb w q Hq. unfold sys.Rename. run_sys. step.
  destruct (refuses h (os_Rename a b)); step; [reflexivity|].
  destruct (String.eqb a EmptyString) eqn:Ea; step; [reflexivity|].
  apply String.eqb_neq in Ea.
  destruct (files w a); step; [|reflexivity].
  destruct (files w b) as [[|]|]; step; try reflexivity.
  all: destruct (beneath (paths h) b q) eqn:Bb; [apply Hb in Bb; congruence|].
  all: destruct (beneath (paths h) a q) eqn:Ba; [apply (Ha Ea) in Ba; congruence|].
  all: reflexivity.
Qed.

Lemma within_Stat p : writesWithin S (sys.Stat h p).
Proof. unfold sys.Stat. repeat within_step. Qed.

Lemma within_Open p : writesWithin S (sys.Open h p).
Proof. unfold sys.Open. repeat within_step. Qed.

Lemma within_Get url : writesWithin S (sys.Get h url).
Proof. unfold sys.Get. repeat within_step. Qed.

Lemma within_OpenReader p : writesWithin S (sys.OpenReader h p).
Proof. unfold sys.OpenReader. repeat within_step. Qed.

Lemma within_WithSpinner {A} message (fn : M A) :
  writesWithin S fn -> writesWithin S (installer.WithSpinner h message fn).
Proof. intro H. unfold installer.WithSpinner. repeat first [assumption | within_step]. Qed.

Lemma within_DownloadFile url destPath :
  S destPath = true -> writesWithin S (installer.DownloadFile h url destPath).
Proof.
  intro Hd. unfold installer.DownloadFile, sys.Create.
  repeat first [ apply within_truncate; assumption | apply within_Get
               | apply within_Copy; assumption | within_step ].
Qed.

Lemma within_VerifyChecksum filePath expected :
  writesWithin S (installer.VerifyChecksum h filePath expected).
Proof.
  unfold installer.VerifyChecksum. repeat first [ apply within_Open | within_step ].
Qed.

Lemma within_extractFiles destDir entries :
  unpacksWithin (paths h) S destDir entries ->
  writesWithin S (installer.extractFiles h destDir entries).
Proof.
  induction entries as [|file rest IH]; intro Hin; cbn [installer.extractFiles].
  - apply writesWithin_ret.
  - destruct (Hin file (or_introl eq_refl)) as [Hf Hd].
    assert (IH' : writesWithin S (installer.extractFiles h destDir rest)).
    { apply IH. intros f Hf'. apply Hin. now right. }
    unfold sys.OpenFile.
    repeat first [ assumption
                 | apply within_MkdirAll; assumption
                 | apply within_truncate; assumption
                 | apply within_Copy; assumption
                 | within_step ].
Qed.

(** what [zip.OpenReader] yields is what the host unpacks from some bytes *)
Lemma OpenReader_unzip p w :
  match fst (sys.OpenReader h p w) with
  | inl entries => exists data, unzip h data = inl entries
  | inr _ => True
  end.
Proof.
  unfold sys.OpenReader. run_sys. step.
  destruct (refuses h (zip_OpenReader p)); step; [exact I|].
  destruct (files w p) as [[data|]|]; try exact I.
  destruct (unzip h data) eqn:U; [|exact I]. now exists data.
Qed.

Section Unpacked.
Variable destDir : string.
Hypothesis Hentries : forall data entries,
  unzip h data = inl entries -> unpacksWithin (paths h) S destDir entries.

Lemma within_ExtractZip zipPath :
  writesWithin S (installer.ExtractZip h zipPath destDir).
Proof.
  unfold installer.ExtractZip.
  apply (writesWithin_bind_post S
           (fun r => match r with
                     | inl entries => exists data, unzip h data = inl entries
                     | inr _ => True
                     end)).
  - apply within_OpenReader.
  - apply OpenReader_unzip.
  - intros [entries|err] HQ; [|apply writesWithin_ret].
    destruct HQ as (data & U).
    apply writesWithin_bind; [apply within_extractFiles, (Hentries data), U|].
    intros [err|]; apply writesWithin_ret.
Qed.

(** the path [ExtractZip] returns without an error: empty, or the root
    directory of the archive under the destination *)
Lemma ExtractZip_root zipPath w :
  match fst (installer.ExtractZip h zipPath destDir w) with
  | (path, None) =>
      path = EmptyString
      \/ exists data entries,
           unzip h data = inl entries
           /\ installer.findRootDir entries <> EmptyString
           /\ path = filepath_Join (paths h) [destDir; installer.findRootDir entries]
  | (_, Some _) => True
  end.
Proof.
  unfold installer.ExtractZip. rewrite bind_run.
  pose proof (OpenReader_unzip zipPath w) as U.
  destruct (fst (sys.OpenReader h zipPath w)) as [entries|err]; [|exact I].
  destruct U as (data & U). rewrite bind_run.
  destruct (fst (installer.extractFiles h destDir entries _)); [exact I|].
  rewrite ret_run. cbn [fst].
  destruct (String.eqb (installer.findRootDir entries) EmptyString) eqn:E; cbn [negb].
  - now left.
  - right. exists data, entries. apply String.eqb_neq in E. auto.
Qed.

End Unpacked.

(** [installStaged] writes to the archive, to where the entries are
    unpacked, and to the final path; it removes what is at the final
    path and under the root directory unpacked. *)
Lemma within_installStaged downloadInfo version installBase tempDir :
  let zipPath := filepath_Join (paths h) [tempDir; installer.FileName downloadInfo] in
  let extractDir := filepath_Join (paths h) [tempDir; "extract"] in
  let finalPath := filepath_Join (paths h) [installBase; "jdk-" ++ version] in
  S zipPath = true ->
  (forall data entries,
      unzip h data = inl entries -> unpacksWithin (paths h) S extractDir entries) ->
  (forall data entries q,
      unzip h data = inl entries -> installer.findRootDir entries <> EmptyString ->
      beneath (paths h)
        (filepath_Join (paths h) [extractDir; installer.findRootDir entries]) q = true ->
      S q = true) ->
  (forall q, beneath (paths h) finalPath q = true -> S q = true) ->
  writesWithin S (installer.installStaged h downloadInfo version installBase tempDir).
Proof.
  intros zipPath extractDir finalPath Hzip Hent Hroot Hfinal.
  unfold installer.installStaged. fold zipPath extractDir finalPath.
  apply writesWithin_bind; [now apply within_DownloadFile|].
  intros [err|]; [apply writesWithin_ret|].
  apply writesWithin_bind; [apply within_WithSpinner, within_VerifyChecksum|].
  intros [verified spinnerErr].
  destruct spinnerErr; [apply writesWithin_ret|].
  destruct (match verified with Some err => err | None => None end);
    [apply writesWithin_ret|].
  apply (writesWithin_bind_post S
           (fun r : option (string * option error) * option error =>
              match fst r with
              | Some (path, None) =>
                  path <> EmptyString -> forall q, beneath (paths h) path q = true ->
                  S q = true
              | _ => True
              end)).
  - now apply within_WithSpinner, within_ExtractZip.
  - intro w. rewrite WithSpinner_cases.
    destruct (interrupts h "Extracting JDK..."); cbn [fst]; [exact I|].
    pose proof (ExtractZip_root extractDir zipPath w) as R.
    destruct (fst (installer.ExtractZip h zipPath extractDir w)) as [path [err|]];
      [exact I|].
    intros Hne q Hq. destruct R as [->|(data & entries & U & Hr & ->)]; [contradiction|].
    now apply (Hroot data entries).
  - intros [extracted spinnerErr] HQ. cbn [fst] in HQ.
    destruct spinnerErr; [apply writesWithin_ret|].
    destruct extracted as [[path [err|]]|]; cbn [fst snd]; try apply writesWithin_ret.
    + apply writesWithin_bind; [apply within_Stat|]. intros st.
      assert (Hrest : writesWithin S
        (st0 <- sys.Stat h finalPath ;;
         removed <- match st0 with
                    | sys.StatOK => sys.RemoveAll h finalPath
                    | _ => ret None
                    end ;;
         match removed with
         | Some err =>
             ret (EmptyString,
                  Some (Errorf_w "failed to remove old installation: " err))
         | None =>
             e <- sys.Rename h path finalPath ;;
             match e with
             | Some err =>
                 ret (EmptyString,
                      Some (Errorf_w "failed to move JDK to final location: " err))
             | None => ret (finalPath, None)
             end
         end)).
      { apply writesWithin_bind; [apply within_Stat|]. intros st0.
        apply writesWithin_bind.
        - destruct st0; try apply writesWithin_ret. now apply within_RemoveAll.
        - intros [err|]; [apply writesWithin_ret|].
          apply writesWithin_bind; [now apply within_Rename|].
          intros [err|]; apply writesWithin_ret. }
      destruct st; [exact Hrest|apply writesWithin_ret|exact Hrest].
    + apply writesWithin_bind; [apply within_Stat|]. intros st.
      assert (Hrest : writesWithin S
        (st0 <- sys.Stat h finalPath ;;
         removed <- match st0 with
                    | sys.StatOK => sys.RemoveAll h finalPath
                    | _ => ret None
                    end ;;
         match removed with
         | Some err =>
             ret (EmptyString,
                  Some (Errorf_w "failed to remove old installation: " err))
         | None =>
             e <- sys.Rename h EmptyString finalPath ;;
             match e with
             | Some err =>
                 ret (EmptyString,
                      Some (Errorf_w "failed to move JDK to final location: " err))
             | None => ret (finalPath, None)
             end
         end)).
      { apply writesWithin_bind; [apply within_Stat|]. intros st0.
        apply writesWithin_bind.
        - destruct st0; try apply writesWithin_ret. now apply within_RemoveAll.
        - intros [err|]; [apply writesWithin_ret|].
          apply writesWithin_bind; [apply within_Rename; [congruence|assumption]|].
          intros [err|]; apply writesWithin_ret. }
      destruct st; [exact Hrest|apply writesWithin_ret|exact Hrest].
Qed.

End Frame.

Lemma HasPrefix_app s a b :
  strings.HasPrefix s (a ++ b) = true -> strings.HasPrefix s a = true.
Proof.
  revert s; induction a as [|c a IH]; intros s H; [now destruct s|].
  destruct s as [|d s]; [discriminate|]. cbn [append strings.HasPrefix] in *.
  destruct (Ascii.eqb d c); [now apply IH|discriminate].
Qed.



(** ** C8: discovery falls back, the update check does not *)

Section Discovery.
Variable h : Host.

Lemma GetAvailableVersions_fallback w :
  refuses h (http_Get installer.availableReleasesURL) <> None
  \/ StatusCode (serves h installer.availableReleasesURL) <> 200%Z
  \/ refuses h (io_ReadAll installer.availableReleasesURL) <> None
  \/ (exists e, decodeReleases h (Body (serves h installer.availableReleasesURL)) = inr e) ->
  fst (fst (installer.adoptium_GetAvailableVersions h w)) = installer.getFallbackVersions
  /\ snd (fst (installer.adoptium_GetAvailableVersions h w)) <> None.
Proof.
  intro Hfail. unfold installer.adoptium_GetAvailableVersions.
  change (installer.adoptiumAPIBase ++ "/info/available_releases") with installer.availableReleasesURL.
  run_sys. step.
  destruct (refuses h (http_Get installer.availableReleasesURL)); step; [split; [reflexivity|discriminate]|].
  destruct (Z.eqb (StatusCode (serves h installer.availableReleasesURL)) 200) eqn:S; step;
    [|split; [reflexivity|discriminate]].
  destruct (refuses h (io_ReadAll installer.availableReleasesURL)); step;
    [split; [reflexivity|discriminate]|].
  destruct (decodeReleases h (Body (serves h installer.availableReleasesURL))) eqn:D; step;
    [|split; [reflexivity|discriminate]].
  exfalso. apply Z.eqb_eq in S.
  destruct Hfail as [F|[F|[F|[e F]]]]; try contradiction; try congruence.
Qed.

(** the option values [ShowVersionMenu] builds from the fallback list *)
Lemma fallback_options :
  map installer.Version
      (filter installer.IsLTS installer.getFallbackVersions
       ++ filter (fun r => negb (installer.IsLTS r)) installer.getFallbackVersions)%list
  = ["25"; "21"; "17"; "11"; "8"; "24"; "23"; "22"; "20"; "19"; "18"; "16"].
Proof. reflexivity. Qed.

Lemma ShowVersionMenu_fallback w :
  refuses h (http_Get installer.availableReleasesURL) <> None
  \/ StatusCode (serves h installer.availableReleasesURL) <> 200%Z
  \/ refuses h (io_ReadAll installer.availableReleasesURL) <> None
  \/ (exists e, decodeReleases h (Body (serves h installer.availableReleasesURL)) = inr e) ->
  refuses h (tea_Run "Fetching available versions from Eclipse Adoptium...") = None ->
  interrupts h "Fetching available versions from Eclipse Adoptium..." = false ->
  fst (installer.ShowVersionMenu h (installer.AdoptiumDistributor h) w)
  = match refuses h (huh_Run "Select Java Version") with
    | Some e => (EmptyString, Some e)
    | None =>
        (chooses h "Select Java Version"
           ["25"; "21"; "17"; "11"; "8"; "24"; "23"; "22"; "20"; "19"; "18"; "16"],
         None)
    end.
Proof.
  intros Hfail Hui Hint. unfold installer.ShowVersionMenu.
  cbn [installer.Name installer.GetAvailableVersions installer.AdoptiumDistributor].
  change ("Fetching available versions from " ++ "Eclipse Adoptium" ++ "...")
    with "Fetching available versions from Eclipse Adoptium...".
  rewrite bind_run, (WithSpinner_run h _ _ _ Hint). cbn [fst snd].
  rewrite Hui.
  destruct (GetAvailableVersions_fallback w Hfail) as [Hlist _].
  destruct (fst (installer.adoptium_GetAvailableVersions h w)) as [releases fetchErr].
  cbn [fst] in Hlist. subst releases. cbn [fst snd]. rewrite fallback_options.
  unfold sys.Select. rewrite !bind_run, !call_run, !ret_run. cbn [fst snd].
  now destruct (refuses h (huh_Run "Select Java Version")).
Qed.

(** with the spinner ended before the list is fetched, the menu has no
    option to offer *)
Lemma ShowVersionMenu_interrupted (d : installer.Distributor) w :
  refuses h (tea_Run ("Fetching available versions from " ++ installer.Name d ++ "...")) = None ->
  interrupts h ("Fetching available versions from " ++ installer.Name d ++ "...") = true ->
  fst (installer.ShowVersionMenu h d w)
  = match refuses h (huh_Run "Select Java Version") with
    | Some e => (EmptyString, Some e)
    | None => (chooses h "Select Java Version" [], None)
    end.
Proof.
  intros Hui Hint. unfold installer.ShowVersionMenu.
  rewrite bind_run, (WithSpinner_interrupted h _ _ _ Hint). cbn [fst snd].
  rewrite Hui. cbn [filter app map].
  unfold sys.Select. rewrite !bind_run, !call_run, !ret_run. cbn [fst snd].
  now destruct (refuses h (huh_Run "Select Java Version")).
Qed.

Lemma CheckForUpdate_hard_error currentVersion w :
  (forall e, refuses h selfupdate_DetectLatest = Some e ->
     fst (updater.CheckForUpdate h currentVersion w)
     = (None, Some (Errorf_w "failed to check for updates: " e)))
  /\ (refuses h selfupdate_DetectLatest = None -> latestRelease h = None ->
      fst (updater.CheckForUpdate h currentVersion w)
      = (None, Some (errorString "no releases found"))).
Proof.
  unfold updater.CheckForUpdate. split.
  - intros e He. rewrite bind_run, call_run. cbn [fst snd]. now rewrite He.
  - intros He Hl. rewrite bind_run, call_run. cbn [fst snd]. now rewrite He, Hl.
Qed.

End Discovery.

(** C8.  When the request for the available versions fails, or is
    answered with another status than 200, or its body cannot be read or
    parsed, [GetAvailableVersions] returns the fallback list (with an
    error that says so), and [ShowVersionMenu], whose spinner has run
    until the list was there, goes on to offer the versions of that
    list; had the spinner been ended first, the menu would have no
    option to offer.  A failure to detect the latest release, or no
    release found, makes [CheckForUpdate] return an error and no
    release. *)
Theorem discovery_falls_back_update_check_fails (h : Host) (currentVersion : string)
    (w : World) :
  let url := installer.availableReleasesURL in
  let fetching := "Fetching available versions from Eclipse Adoptium..." in
  (refuses h (http_Get url) <> None
   \/ StatusCode (serves h url) <> 200%Z
   \/ refuses h (io_ReadAll url) <> None
   \/ (exists e, decodeReleases h (Body (serves h url)) = inr e) ->
   (fst (fst (installer.adoptium_GetAvailableVersions h w)) = installer.getFallbackVersions
    /\ snd (fst (installer.adoptium_GetAvailableVersions h w)) <> None)
   /\ (refuses h (tea_Run fetching) = None ->
       fst (installer.ShowVersionMenu h (installer.AdoptiumDistributor h) w)
       = match refuses h (huh_Run "Select Java Version") with
         | Some e => (EmptyString, Some e)
         | None =>
             (chooses h "Select Java Version"
                (if interrupts h fetching then []
                 else ["25"; "21"; "17"; "11"; "8"; "24"; "23"; "22"; "20"; "19"; "18";
                       "16"]),
              None)
         end))
  /\ (forall e, refuses h selfupdate_DetectLatest = Some e ->
        fst (updater.CheckForUpdate h currentVersion w)
        = (None, Some (Errorf_w "failed to check for updates: " e)))
  /\ (refuses h selfupdate_DetectLatest = None -> latestRelease h = None ->
      fst (updater.CheckForUpdate h currentVersion w)
      = (None, Some (errorString "no releases found"))).
Proof.
  intros url fetching. split; [|apply CheckForUpdate_hard_error].
  intro Hfail. split.
  - now apply GetAvailableVersions_fallback.
  - intro Hui. destruct (interrupts h fetching) eqn:Hint.
    + now apply (ShowVersionMenu_interrupted h (installer.AdoptiumDistributor h)).
    + now apply ShowVersionMenu_fallback.
Qed.

(** With the network down, the menu still offers the fallback versions
    and the user's choice is returned; the update check fails. *)
Lemma discovery_falls_back_update_check_fails_witness :
  let h := demo.failing demo.offline in
  fst (fst (installer.adoptium_GetAvailableVersions h demo.world))
    = installer.getFallbackVersions
  /\ fst (installer.ShowVersionMenu h (installer.AdoptiumDistributor h) demo.world)
     = ("21", None)
  /\ fst (updater.CheckForUpdate h "1.0.0" demo.world)
     = (None, Some (errorString "no releases found")).
Proof.
  intro h.
  destruct (discovery_falls_back_update_check_fails h "1.0.0" demo.world)
    as (Hfall & _ & Hnone).
  assert (Hdown : refuses h (http_Get installer.availableReleasesURL) <> None)
    by discriminate.
  destruct (Hfall (or_introl Hdown)) as [[Hlist _] Hmenu].
  split; [exact Hlist|]. split.
  - apply Hmenu. reflexivity.
  - apply Hnone; reflexivity.
Defined.

(** ** C3: self-update and rollback *)

Lemma append_not_self s t : t <> EmptyString -> s <> s ++ t.
Proof.
  intros Ht. induction s as [|c s IH]; simpl.
  - intro E. now apply Ht.
  - intros [= E]. now apply IH.
Qed.

Lemma backupPath_nonempty exe : String.eqb (updater.backupPath exe) EmptyString = false.
Proof. unfold updater.backupPath. now destruct exe. Qed.

Lemma backupPath_differs exe : String.eqb exe (updater.backupPath exe) = false.
Proof.
  apply String.eqb_neq. unfold updater.backupPath. apply append_not_self. discriminate.
Qed.

(** C3.  When the backup was made and the replacement fails,
    [PerformUpdate] at once renames the backup to the executable path.
    If that goes through, the error returned says that the update failed
    and was rolled back, and the executable is the one of before.  If
    the rename fails too, the error returned carries the text of the
    update error and of the rollback error, and the rollback error, a
    [*LinkError], names the backup path. *)
Theorem PerformUpdate_rolls_back (h : Host) (release : Release) (w : World)
    (data : list Byte.byte) (updateErr : error) :
  let exe := executable h in
  let backup := updater.backupPath exe in
  let r := updater.PerformUpdate h release w in
  refuses h os_Executable = None ->
  refuses h (os_ReadFile exe) = None -> files w exe = Some (File data) ->
  refuses h (os_WriteFile backup) = None -> files w backup <> Some Dir ->
  refuses h (selfupdate_UpdateTo (AssetURL release) (AssetName release) exe)
    = Some updateErr ->
  trace (snd r)
  = (trace w ++ [os_Executable; os_ReadFile exe; os_WriteFile backup;
                 selfupdate_UpdateTo (AssetURL release) (AssetName release) exe;
                 os_Rename backup exe])%list
  /\ (refuses h (os_Rename backup exe) = None ->
      fst r = Some (Errorf_w "update failed (rolled back): " updateErr)
      /\ (beneath (paths h) exe exe = true -> reroot (paths h) exe backup exe = backup ->
          files (snd r) exe = Some (File data)))
  /\ (forall cause, refuses h (os_Rename backup exe) = Some cause ->
      exists e, fst r = Some e
        /\ e = wrapError ("update failed and rollback failed: update error: "
                          ++ Error updateErr ++ ", rollback error: "
                          ++ Error (LinkError "rename" backup exe cause)) updateErr
        /\ Error e = "update failed and rollback failed: update error: "
                     ++ Error updateErr ++ ", rollback error: rename " ++ backup
                     ++ " " ++ exe ++ ": " ++ Error cause).
Proof.
  intros exe backup r Hexe Hread Hfile Hwrite Hnodir Hupd. subst r.
  unfold updater.PerformUpdate, updater.copyFile, updater.UpdateTo.
  run_sys. step. rewrite Hexe. step. fold exe. rewrite Hread. step.
  rewrite Hfile. step. fold backup. rewrite Hwrite. step.
  assert (Hb : files w backup = None \/ exists d, files w backup = Some (File d)).
  { destruct (files w backup) as [[d|]|]; [right; now exists d|now elim Hnodir|now left]. }
  assert (Hne : String.eqb backup EmptyString = false) by apply backupPath_nonempty.
  assert (Hupdate : forall v, update backup v (files w) exe = Some (File data)).
  { intro v. unfold update. unfold backup. now rewrite backupPath_differs. }
  destruct Hb as [Hb | [d Hb]]; rewrite Hb; step; rewrite Hupd; step.
  all: destruct (refuses h (os_Rename backup exe)) as [cause|] eqn:Hren; step.
  all: try rewrite Hne; step.
  all: try rewrite update_same, Hupdate; step.
  all: split; [now rewrite <- !app_assoc|].
  all: split.
  all: try (intros [=]; fail).
  all: try (intros _; split; [reflexivity|];
            intros Hbe Hre; now rewrite Hbe, Hre, update_same).
  all: intros cause' Hc; try discriminate.
  all: injection Hc as <-; eexists; split; [reflexivity|]; split; reflexivity.
Qed.

(** On the demonstration host: rolled back when only the update fails;
    both errors and the backup path in the text when the rename fails as
    well. *)
Lemma PerformUpdate_rolls_back_witness :
  let rolled := updater.PerformUpdate (demo.failing demo.updateFails) demo.newRelease
                  demo.installed in
  let stuck := updater.PerformUpdate (demo.failing demo.updateAndRollbackFail)
                 demo.newRelease demo.installed in
  (fst rolled = Some (Errorf_w "update failed (rolled back): "
                        (errorString "checksum validation failed"))
   /\ files (snd rolled) "C:\Tools\jv.exe" = Some (File (list_byte_of_string "jv 1.0")))
  /\ option_map Error (fst stuck)
     = Some ("update failed and rollback failed: update error: checksum validation failed"
             ++ ", rollback error: rename C:\Tools\jv.exe.backup C:\Tools\jv.exe: "
             ++ "Access is denied.").
Proof.
  intros rolled stuck.
  assert (Hnodir : files demo.installed (updater.backupPath "C:\Tools\jv.exe") <> Some Dir)
    by discriminate.
  split.
  - pose proof (PerformUpdate_rolls_back (demo.failing demo.updateFails) demo.newRelease
                  demo.installed (list_byte_of_string "jv 1.0")
                  (errorString "checksum validation failed")
                  eq_refl eq_refl eq_refl eq_refl Hnodir eq_refl) as (_ & Hrolled & _).
    destruct (Hrolled eq_refl) as [Herr Hfile]. split; [exact Herr|].
    apply Hfile; reflexivity.
  - pose proof (PerformUpdate_rolls_back (demo.failing demo.updateAndRollbackFail)
                  demo.newRelease demo.installed (list_byte_of_string "jv 1.0")
                  (errorString "checksum validation failed")
                  eq_refl eq_refl eq_refl eq_refl Hnodir eq_refl) as (_ & _ & Hstuck).
    destruct (Hstuck (errorString "Access is denied.") eq_refl) as (e & He & _ & Htext).
    unfold stuck. rewrite He. cbn [option_map]. now rewrite Htext.
Defined.

(** ** C2: the records of a multi-version run *)

(** C2 (the code departs from the claim).  Java 17 and Java 21 are
    ticked; the form returns them in the order of its options, which is
    that of the list of the service, descending: 21, then 17.  The
    service has no package for Java 21, so its installation fails; that
    of 17 succeeds.  [RunMultiInstall] returns without error and saves
    one record: it pairs the path where Java 17 was installed with the
    version 21, which was not installed. *)
Theorem RunMultiInstall_records_failed_version :
  let h := scenario.only17 in
  let d := installer.AdoptiumDistributor h in
  let r := installer.RunMultiInstall h false d demo.world in
  fst (installer.SelectMultipleVersions h d demo.world) = (["21"; "17"], None)
  /\ fst (installer.InstallVersion h false d "21" "user" demo.world)
     = installer.Normally
         (EmptyString,
          Some (Errorf_w "failed to get download URL: "
                  (errorString "API returned status 404 for version 21")))
  /\ fst (installer.InstallVersion h false d "17" "user" demo.world)
     = installer.Normally ("C:\Users\ada\.jv\jdk-17", None)
  /\ fst r = installer.Returned None
  /\ option_map config.InstalledJDKs (saved (snd r))
     = Some [ {| config.Version := "21";
                 config.Path := "C:\Users\ada\.jv\jdk-17";
                 config.Distributor := "Eclipse Adoptium";
                 config.InstalledAt := "2025-01-01T00:00:00Z";
                 config.Scope := "user" |} ]
  /\ files (snd r) "C:\Users\ada\.jv\jdk-17\bin\java.exe"
     = Some (File (list_byte_of_string "MZ java 17"))
  /\ files (snd r) "C:\Users\ada\.jv\jdk-21" = None.
Proof. vm_compute. repeat split. Qed.

(** When it is the later of the versions selected whose installation
    fails, the paths and the versions still line up: on the host that
    has Java 21 and not Java 17 the record is the right one. *)
Example RunMultiInstall_later_failure :
  let d := installer.AdoptiumDistributor demo.host in
  let r := installer.RunMultiInstall demo.host false d demo.world in
  fst (installer.SelectMultipleVersions demo.host d demo.world) = (["21"; "17"], None)
  /\ fst r = installer.Returned None
  /\ option_map config.InstalledJDKs (saved (snd r))
     = Some [ {| config.Version := "21";
                 config.Path := "C:\Users\ada\.jv\jdk-21";
                 config.Distributor := "Eclipse Adoptium";
                 config.InstalledAt := "2025-01-01T00:00:00Z";
                 config.Scope := "user" |} ].
Proof. vm_compute. repeat split. Qed.

(** A single-version run on the same host records what it installed. *)
Example RunSingleInstall_records_installed_version :
  let r := installer.RunSingleInstall demo.host false
             (installer.AdoptiumDistributor demo.host) demo.world in
  fst r = installer.Returned None
  /\ option_map config.InstalledJDKs (saved (snd r))
     = Some [ {| config.Version := "21";
                 config.Path := "C:\Users\ada\.jv\jdk-21";
                 config.Distributor := "Eclipse Adoptium";
                 config.InstalledAt := "2025-01-01T00:00:00Z";
                 config.Scope := "user" |} ].
Proof. vm_compute. repeat split. Qed.

(** [SetJavaHome] called twice with the same path: the second call
    reads the new home as the old one, and the literal bin folder the
    first call kept is gone. *)
Example SetJavaHome_twice :
  let w0 := setRegistry (update "Path" (Some "C:\Y\bin;C:\Windows")
                           (update "JAVA_HOME" (Some "C:\X") (registry demo.world)))
                        demo.world in
  let w1 := snd (env.SetJavaHome demo.host "C:\Y" w0) in
  let w2 := snd (env.SetJavaHome demo.host "C:\Y" w1) in
  registry w1 "Path" = Some "%JAVA_HOME%\bin;C:\Y\bin;C:\Windows"
  /\ registry w2 "Path" = Some "%JAVA_HOME%\bin;C:\Windows"
  /\ registry w2 "JAVA_HOME" = Some "C:\Y".
Proof. vm_compute. repeat split. Qed.

(** The path rewrite leaves a list alone on its second application when
    no kept segment names the new home. *)
Lemma updatePath_twice_witness :
  env.updatePath winpath.lib
    (env.updatePath winpath.lib "C:\X\bin;C:\Windows" "C:\X" "C:\Y") "C:\Y" "C:\Y"
  = env.updatePath winpath.lib "C:\X\bin;C:\Windows" "C:\X" "C:\Y".
Proof.
  destruct (updatePath_twice winpath.lib "C:\X\bin;C:\Windows" "C:\X" "C:\Y"
              winpath_lawful) as (_ & _ & _ & Hiff).
  apply Hiff. right. intros p [<-|[]]. reflexivity.
Defined.

(** * Further properties of the code *)

(** ** Removing the first match *)

Lemma removeFirst_none {A} (f : A -> bool) l :
  (forall x, In x l -> f x = false) -> cfg.removeFirst f l = l.
Proof.
  induction l as [|x l IH]; simpl; intro H; [reflexivity|].
  rewrite (H x) by now left. f_equal. apply IH. intros y Hy. apply H. now right.
Qed.

Lemma removeFirst_last {A} (f : A -> bool) l y :
  (forall x, In x l -> f x = false) -> f y = true -> cfg.removeFirst f (l ++ [y]) = l.
Proof.
  induction l as [|x l IH]; simpl; intros H Hy.
  - now rewrite Hy.
  - rewrite (H x) by now left. f_equal. apply IH; [|assumption].
    intros z Hz. apply H. now right.
Qed.

Lemma removeFirst_In {A} (f : A -> bool) l x :
  In x (cfg.removeFirst f l) -> In x l.
Proof.
  induction l as [|y l IH]; simpl; [easy|].
  destruct (f y); [now right|]. intros [->|H]; [now left|right; now apply IH].
Qed.

Lemma existsb_false {A} (f : A -> bool) l :
  existsb f l = false <-> forall x, In x l -> f x = false.
Proof.
  induction l as [|y l IH]; simpl; [easy|]. rewrite orb_false_iff, IH. split.
  - intros [Hy Hl] x [<-|Hx]; auto.
  - intro H. split; [apply H; now left|]. intros x Hx. apply H. now right.
Qed.

(** ** The installed-package records *)

Section Inventory.
Variable P : Platform.
Hypothesis HP : Lawful P.

Lemma replaceByPath_find jdk l l' :
  config.replaceByPath P jdk l = Some l' ->
  find (fun x => strings_EqualFold P (config.Path x) (config.Path jdk)) l' = Some jdk
  /\ List.length l' = List.length l
  /\ existsb (fun x => strings_EqualFold P (config.Path x) (config.Path jdk)) l = true.
Proof.
  revert l'; induction l as [|x l IH]; simpl; intros l' H; [discriminate|].
  destruct (strings_EqualFold P (config.Path x) (config.Path jdk)) eqn:E.
  - injection H as <-. simpl. rewrite (EqualFold_refl P HP). auto.
  - destruct (config.replaceByPath P jdk l) as [r|]; [|discriminate].
    injection H as <-. simpl. rewrite E. destruct (IH r eq_refl) as (F & L & X).
    rewrite F, L, X. auto.
Qed.

Lemma replaceByPath_none jdk l :
  config.replaceByPath P jdk l = None ->
  forall x, In x l -> strings_EqualFold P (config.Path x) (config.Path jdk) = false.
Proof.
  induction l as [|y l IH]; simpl; intros H x Hx; [contradiction|].
  destruct (strings_EqualFold P (config.Path y) (config.Path jdk)) eqn:E; [discriminate|].
  destruct (config.replaceByPath P jdk l); [discriminate|].
  destruct Hx as [<-|Hx]; [assumption|now apply IH].
Qed.

Lemma find_app_last {A} (f : A -> bool) l y :
  (forall x, In x l -> f x = false) -> f y = true -> find f (l ++ [y]) = Some y.
Proof.
  induction l as [|x l IH]; simpl; intros H Hy; [now rewrite Hy|].
  rewrite (H x) by now left. apply IH; [|assumption]. intros z Hz. apply H. now right.
Qed.

(** the record [AddInstalledJDK] stores: the path cleaned *)
Lemma AddInstalledJDK_stored jdk c :
  let stored := {| config.Version := config.Version jdk;
                   config.Path := filepath_Clean P (config.Path jdk);
                   config.Distributor := config.Distributor jdk;
                   config.InstalledAt := config.InstalledAt jdk;
                   config.Scope := config.Scope jdk |} in
  config.InstalledJDKs (config.AddInstalledJDK P jdk c)
  = match config.replaceByPath P stored (config.InstalledJDKs c) with
    | Some l => l
    | None => (config.InstalledJDKs c ++ [stored])%list
    end.
Proof. reflexivity. Qed.

(** the lookup that follows an addition meets the record added *)
Lemma AddInstalledJDK_lookup (jdk : config.InstalledJDK)
    (c : config.Config) :
  cfg.GetInstalledJDK P (config.Path jdk) (config.AddInstalledJDK P jdk c)
  = Some {| config.Version := config.Version jdk;
            config.Path := filepath_Clean P (config.Path jdk);
            config.Distributor := config.Distributor jdk;
            config.InstalledAt := config.InstalledAt jdk;
            config.Scope := config.Scope jdk |}.
Proof.
  unfold cfg.GetInstalledJDK. rewrite AddInstalledJDK_stored. cbv zeta.
  set (stored := {| config.Version := config.Version jdk;
                    config.Path := filepath_Clean P (config.Path jdk);
                    config.Distributor := config.Distributor jdk;
                    config.InstalledAt := config.InstalledAt jdk;
                    config.Scope := config.Scope jdk |}).
  change (filepath_Clean P (config.Path jdk)) with (config.Path stored).
  destruct (config.replaceByPath P stored (config.InstalledJDKs c)) as [l|] eqn:R.
  - now apply replaceByPath_find in R.
  - apply find_app_last; [|apply (EqualFold_refl P HP)].
    now apply replaceByPath_none.
Qed.

(** X1.  Looking a record up by the path it was added under finds it,
    whatever the inventory held: the record added is the first one a
    lookup by that path meets. *)
Theorem GetInstalledJDK_after_AddInstalledJDK (jdk : config.InstalledJDK)
    (c : config.Config) :
  cfg.GetInstalledJDK P (config.Path jdk) (config.AddInstalledJDK P jdk c)
  = Some {| config.Version := config.Version jdk;
            config.Path := filepath_Clean P (config.Path jdk);
            config.Distributor := config.Distributor jdk;
            config.InstalledAt := config.InstalledAt jdk;
            config.Scope := config.Scope jdk |}.
Proof. apply AddInstalledJDK_lookup. Qed.


Lemma pairwiseDistinct_app l x :
  pairwiseDistinct P l -> (forall y, In y l -> strings_EqualFold P y x = false) ->
  pairwiseDistinct P (l ++ [x]).
Proof.
  induction l as [|a l IH]; simpl; intros Hd Hx.
  - split; [intros y []|exact I].
  - destruct Hd as [Ha Hl]. split.
    + intros y Hy. apply in_app_iff in Hy as [Hy|[<-|[]]]; [now apply Ha|].
      rewrite (EqualFold_sym P HP). apply Hx. now left.
    + apply IH; [assumption|]. intros y Hy. apply Hx. now right.
Qed.

Lemma pairwiseDistinct_removeFirst f l :
  pairwiseDistinct P l -> pairwiseDistinct P (cfg.removeFirst f l).
Proof.
  induction l as [|a l IH]; simpl; [easy|]. intros [Ha Hl].
  destruct (f a); [assumption|]. simpl. split; [|now apply IH].
  intros y Hy. apply Ha. now apply removeFirst_In in Hy.
Qed.

(** replacing an entry by one with the same path up to case keeps the
    paths apart *)
Lemma replaceByPath_distinct jdk l l' :
  config.replaceByPath P jdk l = Some l' ->
  pairwiseDistinct P (map config.Path l) -> pairwiseDistinct P (map config.Path l').
Proof.
  revert l'; induction l as [|x l IH]; simpl; intros l' H Hd; [discriminate|].
  destruct Hd as [Hx Hl].
  destruct (strings_EqualFold P (config.Path x) (config.Path jdk)) eqn:E.
  - injection H as <-. simpl. split; [|assumption].
    intros y Hy. rewrite <- (EqualFold_congr P HP y _ _ E). now apply Hx.
  - destruct (config.replaceByPath P jdk l) as [r|] eqn:R; [|discriminate].
    injection H as <-. simpl. split; [|now apply IH].
    intros y Hy. apply in_map_iff in Hy as (z & <- & Hz).
    revert z Hz. clear IH.
    revert r R. induction l as [|a l IHl]; simpl; intros r R z Hz; [discriminate|].
    destruct (strings_EqualFold P (config.Path a) (config.Path jdk)) eqn:Ea.
    + injection R as <-. destruct Hz as [<-|Hz].
      * rewrite (EqualFold_sym P HP), <- (EqualFold_congr P HP _ _ _ Ea), (EqualFold_sym P HP).
        apply Hx. now left.
      * apply Hx. right. now apply in_map.
    + destruct (config.replaceByPath P jdk l) as [r'|] eqn:R'; [|discriminate].
      injection R as <-. destruct Hz as [<-|Hz].
      * apply Hx. now left.
      * destruct Hl as [_ Hl]. apply (IHl (fun y Hy => Hx y (or_intror Hy)) Hl r' eq_refl).
        exact Hz.
Qed.

(** X2.  The inventory never holds two records for one path: [AddInstalledJDK]
    keeps the paths pairwise distinct up to case.  Adding under a path
    that is there, in any casing, overwrites and leaves the number of
    records as it is; otherwise there is one record more. *)
Theorem AddInstalledJDK_keeps_paths_distinct (jdk : config.InstalledJDK)
    (c : config.Config) :
  pairwiseDistinct P (map config.Path (config.InstalledJDKs c)) ->
  pairwiseDistinct P (map config.Path (config.InstalledJDKs (config.AddInstalledJDK P jdk c)))
  /\ List.length (config.InstalledJDKs (config.AddInstalledJDK P jdk c))
     = if existsb (fun x => strings_EqualFold P (config.Path x)
                              (filepath_Clean P (config.Path jdk)))
                  (config.InstalledJDKs c)
       then List.length (config.InstalledJDKs c)
       else S (List.length (config.InstalledJDKs c)).
Proof.
  intro Hd. rewrite AddInstalledJDK_stored. cbv zeta.
  set (stored := {| config.Version := config.Version jdk;
                    config.Path := filepath_Clean P (config.Path jdk);
                    config.Distributor := config.Distributor jdk;
                    config.InstalledAt := config.InstalledAt jdk;
                    config.Scope := config.Scope jdk |}).
  change (filepath_Clean P (config.Path jdk)) with (config.Path stored).
  destruct (config.replaceByPath P stored (config.InstalledJDKs c)) as [l|] eqn:R.
  - split; [now apply (replaceByPath_distinct stored _ _ R)|].
    destruct (replaceByPath_find stored _ _ R) as (_ & L & X). now rewrite X.
  - pose proof (replaceByPath_none stored _ R) as Hn. split.
    + rewrite map_app. simpl. apply pairwiseDistinct_app; [assumption|].
      intros y Hy. apply in_map_iff in Hy as (z & <- & Hz). now apply Hn.
    + apply existsb_false in Hn. rewrite Hn, length_app. simpl. lia.
Qed.

Lemma find_nothing {A} (f : A -> bool) l :
  (forall x, In x l -> f x = false) -> find f l = None.
Proof.
  induction l as [|x l IH]; simpl; intro H; [reflexivity|].
  rewrite (H x) by now left. apply IH. intros y Hy. apply H. now right.
Qed.

Lemma find_removeFirst_distinct (path : string) (l : list config.InstalledJDK) :
  pairwiseDistinct P (map config.Path l) ->
  find (fun jdk => strings_EqualFold P (config.Path jdk) path)
       (cfg.removeFirst (fun jdk => strings_EqualFold P (config.Path jdk) path) l) = None.
Proof.
  induction l as [|x l IH]; simpl; [reflexivity|]. intros [Hx Hl].
  destruct (strings_EqualFold P (config.Path x) path) eqn:E.
  - apply find_nothing. intros y Hy.
    rewrite (EqualFold_congr P HP _ path (config.Path x)) by (now rewrite (EqualFold_sym P HP)).
    apply Hx. now apply in_map.
  - simpl. rewrite E. now apply IH.
Qed.

(** X3.  With the paths of the inventory pairwise distinct, a record removed
    is gone: a lookup by the path removed finds nothing.  The paths stay
    distinct. *)
Theorem GetInstalledJDK_after_RemoveInstalledJDK (path : string) (c : config.Config) :
  pairwiseDistinct P (map config.Path (config.InstalledJDKs c)) ->
  cfg.GetInstalledJDK P path (cfg.RemoveInstalledJDK P path c) = None
  /\ pairwiseDistinct P (map config.Path
                         (config.InstalledJDKs (cfg.RemoveInstalledJDK P path c))).
Proof.
  intro Hd. split.
  - unfold cfg.GetInstalledJDK, cfg.RemoveInstalledJDK. cbn [config.InstalledJDKs].
    now apply find_removeFirst_distinct.
  - unfold cfg.RemoveInstalledJDK. cbn [config.InstalledJDKs].
    revert Hd. generalize (config.InstalledJDKs c). intro l.
    induction l as [|x l IH]; simpl; [easy|]. intros [Hx Hl].
    destruct (strings_EqualFold P (config.Path x) (filepath_Clean P path)); [assumption|].
    simpl. split; [|now apply IH].
    intros y Hy. apply Hx. apply in_map_iff in Hy as (z & <- & Hz).
    apply in_map. now apply removeFirst_In in Hz.
Qed.

End Inventory.

Lemma GetInstalledJDK_after_AddInstalledJDK_witness :
  let jdk := {| config.Version := "21"; config.Path := "C:\Java\jdk-21" ++ winpath.sep;
                config.Distributor := "Eclipse Adoptium";
                config.InstalledAt := "2025-01-01"; config.Scope := "user" |} in
  option_map config.Path
    (cfg.GetInstalledJDK winpath.lib (config.Path jdk)
       (config.AddInstalledJDK winpath.lib jdk config.empty))
  = Some "C:\Java\jdk-21".
Proof.
  intro jdk.
  now rewrite (GetInstalledJDK_after_AddInstalledJDK winpath.lib winpath_lawful jdk
                 config.empty).
Defined.

Lemma AddInstalledJDK_keeps_paths_distinct_witness :
  let jdk v p := {| config.Version := v; config.Path := p;
                    config.Distributor := "Eclipse Adoptium";
                    config.InstalledAt := "2025-01-01"; config.Scope := "user" |} in
  let c := config.AddInstalledJDK winpath.lib (jdk "17" "C:\Java\jdk-17") config.empty in
  List.length (config.InstalledJDKs
                 (config.AddInstalledJDK winpath.lib (jdk "21" "c:\java\JDK-17") c)) = 1
  /\ List.length (config.InstalledJDKs
                    (config.AddInstalledJDK winpath.lib (jdk "21" "C:\Java\jdk-21") c)) = 2.
Proof.
  cbv zeta.
  set (jdk := fun v p => {| config.Version := v; config.Path := p;
                            config.Distributor := "Eclipse Adoptium";
                            config.InstalledAt := "2025-01-01"; config.Scope := "user" |}).
  set (c := config.AddInstalledJDK winpath.lib (jdk "17" "C:\Java\jdk-17") config.empty).
  assert (Hd : pairwiseDistinct winpath.lib (map config.Path (config.InstalledJDKs c))).
  { split; [intros y []|exact I]. }
  split.
  - exact (proj2 (AddInstalledJDK_keeps_paths_distinct winpath.lib winpath_lawful
                    (jdk "21" "c:\java\JDK-17") c Hd)).
  - exact (proj2 (AddInstalledJDK_keeps_paths_distinct winpath.lib winpath_lawful
                    (jdk "21" "C:\Java\jdk-21") c Hd)).
Defined.

Lemma GetInstalledJDK_after_RemoveInstalledJDK_witness :
  let c := config.AddInstalledJDK winpath.lib
             {| config.Version := "17"; config.Path := "C:\Java\jdk-17";
                config.Distributor := "Eclipse Adoptium";
                config.InstalledAt := "2025-01-01"; config.Scope := "user" |}
             config.empty in
  cfg.GetInstalledJDK winpath.lib "c:\java\JDK-17"
    (cfg.RemoveInstalledJDK winpath.lib "c:\java\JDK-17" c) = None.
Proof.
  cbv zeta.
  refine (proj1 (GetInstalledJDK_after_RemoveInstalledJDK winpath.lib winpath_lawful _ _ _)).
  split; [intros y []|exact I].
Defined.

(** ** The custom paths and the search paths *)

Section PathLists.
Variable P : Platform.
Hypothesis HP : Lawful P.

Lemma Config_eta (c : config.Config) :
  {| config.CustomPaths := config.CustomPaths c;
     config.InstalledJDKs := config.InstalledJDKs c;
     config.Update := config.Update c |} = c.
Proof. now destruct c. Qed.

(** what [AddCustomPath] does, by the cleaned path *)
Lemma AddCustomPath_cases path c :
  let q := filepath_Clean P (strings_TrimSpace P path) in
  (config.AddCustomPath P path c = c
   /\ (q = EmptyString \/ q = "."
       \/ existsb (fun p => strings_EqualFold P p q) (config.CustomPaths c) = true))
  \/ (config.CustomPaths (config.AddCustomPath P path c) = (config.CustomPaths c ++ [q])%list
      /\ config.InstalledJDKs (config.AddCustomPath P path c) = config.InstalledJDKs c
      /\ config.Update (config.AddCustomPath P path c) = config.Update c
      /\ q <> EmptyString /\ q <> "."
      /\ existsb (fun p => strings_EqualFold P p q) (config.CustomPaths c) = false).
Proof.
  intro q. unfold config.AddCustomPath. fold q.
  destruct (String.eqb q EmptyString) eqn:E1; simpl.
  { left. apply String.eqb_eq in E1. auto. }
  destruct (String.eqb q ".") eqn:E2; simpl.
  { left. apply String.eqb_eq in E2. auto. }
  destruct (existsb _ _) eqn:E3; [left; auto|].
  right. apply String.eqb_neq in E1, E2. repeat split; auto.
Qed.

(** X4.  [AddCustomPath] is idempotent; it keeps the custom paths pairwise
    distinct up to case; and the only path it can add is the trimmed and
    cleaned one, which is neither empty nor the current directory. *)
Theorem AddCustomPath_idempotent_distinct (path : string) (c : config.Config) :
  pairwiseDistinct P (config.CustomPaths c) ->
  config.AddCustomPath P path (config.AddCustomPath P path c) = config.AddCustomPath P path c
  /\ pairwiseDistinct P (config.CustomPaths (config.AddCustomPath P path c))
  /\ forall q, In q (config.CustomPaths (config.AddCustomPath P path c)) ->
       In q (config.CustomPaths c)
       \/ (q = filepath_Clean P (strings_TrimSpace P path) /\ q <> EmptyString /\ q <> ".").
Proof.
  intro Hd.
  destruct (AddCustomPath_cases path c) as [[E Hwhy] | (Hl & Hj & Hu & Hn1 & Hn2 & Hex)].
  - rewrite !E. repeat split; auto.
  - split; [|split].
    + destruct (AddCustomPath_cases path (config.AddCustomPath P path c))
        as [[E _] | (_ & _ & _ & _ & _ & Hex')]; [exact E|].
      rewrite Hl, existsb_app in Hex'. simpl in Hex'.
      rewrite (EqualFold_refl P HP), orb_true_r in Hex'. discriminate.
    + rewrite Hl. apply (pairwiseDistinct_app P HP); [assumption|].
      now apply existsb_false.
    + intros q Hq. rewrite Hl in Hq. apply in_app_iff in Hq as [Hq|[<-|[]]]; auto.
Qed.

(** X5.  A path just added is found by [HasCustomPath], and removing it gives
    back the configuration of before, when the path was not there: here
    the path is queried in its cleaned form, which [filepath.Clean]
    leaves as it is. *)
Theorem RemoveCustomPath_after_AddCustomPath (path : string) (c : config.Config) :
  let q := filepath_Clean P (strings_TrimSpace P path) in
  q <> EmptyString -> q <> "." -> filepath_Clean P q = q ->
  cfg.HasCustomPath P q c = false ->
  cfg.HasCustomPath P q (config.AddCustomPath P path c) = true
  /\ cfg.RemoveCustomPath P q (config.AddCustomPath P path c) = c.
Proof.
  intros q Hn1 Hn2 Hclean Hhas. unfold cfg.HasCustomPath in *. rewrite Hclean in *.
  pose proof (AddCustomPath_cases path c) as C. cbv zeta in C. fold q in C.
  destruct C as [[E Hwhy] | (Hl & Hj & Hu & _ & _ & Hex)].
  - destruct Hwhy as [H|[H|H]]; congruence.
  - split.
    + rewrite Hl, existsb_app. simpl. now rewrite (EqualFold_refl P HP), orb_true_r.
    + unfold cfg.RemoveCustomPath. rewrite Hclean, Hl, Hj, Hu.
      rewrite removeFirst_last; [apply Config_eta| |apply (EqualFold_refl P HP)].
      now apply existsb_false.
Qed.

(** X6.  The search paths: a path added is found, adding it again changes
    nothing, and removing it gives back the list of before when it was
    not there.  Unlike a custom path, a search path is not trimmed and
    may be empty or the current directory. *)
Theorem RemoveSearchPath_after_AddSearchPath (path : string) (l : list string) :
  let q := filepath_Clean P path in
  filepath_Clean P q = q ->
  cfg.HasSearchPath P q (cfg.AddSearchPath P path l) = true
  /\ cfg.AddSearchPath P q (cfg.AddSearchPath P path l) = cfg.AddSearchPath P path l
  /\ (cfg.HasSearchPath P q l = false ->
      cfg.RemoveSearchPath P q (cfg.AddSearchPath P path l) = l)
  /\ (pairwiseDistinct P l -> pairwiseDistinct P (cfg.AddSearchPath P path l)).
Proof.
  intros q Hclean.
  unfold cfg.HasSearchPath, cfg.AddSearchPath, cfg.RemoveSearchPath.
  fold q. rewrite Hclean.
  destruct (existsb (fun p => strings_EqualFold P p q) l) eqn:E.
  - rewrite E. repeat split; auto. discriminate.
  - assert (Hthere : existsb (fun p => strings_EqualFold P p q) (l ++ [q]) = true).
    { rewrite existsb_app. simpl. now rewrite (EqualFold_refl P HP), orb_true_r. }
    rewrite Hthere. repeat split; auto.
    + intros _. apply removeFirst_last; [now apply existsb_false|apply (EqualFold_refl P HP)].
    + intro Hd. apply (pairwiseDistinct_app P HP); [assumption|now apply existsb_false].
Qed.

End PathLists.

Lemma RemoveCustomPath_after_AddCustomPath_witness :
  cfg.HasCustomPath winpath.lib "C:\Java\jdk-17"
    (config.AddCustomPath winpath.lib " C:\Java\jdk-17\ " config.empty) = true
  /\ cfg.RemoveCustomPath winpath.lib "C:\Java\jdk-17"
       (config.AddCustomPath winpath.lib " C:\Java\jdk-17\ " config.empty) = config.empty.
Proof.
  apply (RemoveCustomPath_after_AddCustomPath winpath.lib winpath_lawful " C:\Java\jdk-17\ " config.empty);
    try discriminate; reflexivity.
Defined.

Lemma AddCustomPath_idempotent_distinct_witness :
  pairwiseDistinct winpath.lib
    (config.CustomPaths (config.AddCustomPath winpath.lib "c:\java\JDK-17"
       (config.AddCustomPath winpath.lib "C:\Java\jdk-17" config.empty))).
Proof.
  apply (AddCustomPath_idempotent_distinct winpath.lib winpath_lawful "c:\java\JDK-17").
  apply (AddCustomPath_idempotent_distinct winpath.lib winpath_lawful "C:\Java\jdk-17" config.empty).
  exact I.
Defined.

Lemma RemoveSearchPath_after_AddSearchPath_witness :
  cfg.RemoveSearchPath winpath.lib "D:\jdks"
    (cfg.AddSearchPath winpath.lib "D:/jdks/" ["C:\Java"]) = ["C:\Java"].
Proof.
  refine (proj1 (proj2 (proj2 (RemoveSearchPath_after_AddSearchPath winpath.lib winpath_lawful "D:/jdks/" ["C:\Java"] _)))
            _); reflexivity.
Defined.


(** ** Loading the configuration *)

Lemma NoDup_snoc {A} (l : list A) (x : A) : NoDup l -> ~ In x l -> NoDup (l ++ [x]).
Proof.
  induction l as [|a l IH]; simpl; intros Hd Hx.
  - constructor; [easy|constructor].
  - inversion Hd as [|? ? Ha Hl]; subst. constructor.
    + intro H. apply in_app_iff in H as [H|[->|[]]]; [contradiction|]. apply Hx. now left.
    + apply IH; [assumption|]. intro H. apply Hx. now right.
Qed.

Section Sanitize.
Variable P : Platform.
Hypothesis HP : Lawful P.

Lemma existsb_eqb_In key seen : existsb (String.eqb key) seen = true <-> In key seen.
Proof.
  rewrite existsb_exists. split.
  - intros (x & Hx & E). apply String.eqb_eq in E. now subst.
  - intro H. exists key. split; [assumption|apply String.eqb_refl].
Qed.

(** paths with distinct lowered keys differ by more than the case of
    their ASCII letters *)
Lemma distinct_keys_distinct l :
  NoDup (map (strings_ToLower P) l) -> distinctBy ASCII.EqualFold l.
Proof.
  induction l as [|x l IH]; simpl; intro Hd; [exact I|].
  inversion Hd as [|? ? Hx Hl]; subst. split; [|now apply IH].
  intros y Hy. destruct (ASCII.EqualFold y x) eqn:E; [|reflexivity].
  exfalso. apply Hx. rewrite <- (lower_of_ascii P HP y x E). now apply in_map.
Qed.

Lemma sanitizeLoop_spec ps : forall seen cleaned,
  (forall k, In k seen <-> In k (map (strings_ToLower P) cleaned)) ->
  NoDup (map (strings_ToLower P) cleaned) ->
  (forall q, In q cleaned -> q <> EmptyString /\ q <> ".") ->
  let r := cfg.sanitizeLoop P ps seen cleaned in
  NoDup (map (strings_ToLower P) r)
  /\ (forall q, In q r -> q <> EmptyString /\ q <> ".")
  /\ (exists extra, r = (cleaned ++ extra)%list
        /\ Subsequence extra
             (map (fun p => filepath_Clean P (strings_TrimSpace P p)) ps))
  /\ (forall p, In p ps ->
        let q := filepath_Clean P (strings_TrimSpace P p) in
        q <> EmptyString -> q <> "." ->
        exists q', In q' r /\ strings_ToLower P q' = strings_ToLower P q).
Proof.
  induction ps as [|p ps IH]; intros seen cleaned Hseen Hd Hne; cbn [cfg.sanitizeLoop].
  - cbv zeta. repeat split; try assumption; try (now apply Hne).
    + exists []. rewrite app_nil_r. split; [reflexivity|constructor].
    + intros p [].
  - set (q := filepath_Clean P (strings_TrimSpace P p)).
    assert (Hskip : forall r,
      r = cfg.sanitizeLoop P ps seen cleaned ->
      (q = EmptyString \/ q = "." \/ In (strings_ToLower P q) seen) ->
      NoDup (map (strings_ToLower P) r)
      /\ (forall q0, In q0 r -> q0 <> EmptyString /\ q0 <> ".")
      /\ (exists extra, r = (cleaned ++ extra)%list
            /\ Subsequence extra
                 (map (fun p => filepath_Clean P (strings_TrimSpace P p)) (p :: ps)))
      /\ (forall p0, In p0 (p :: ps) ->
            let q0 := filepath_Clean P (strings_TrimSpace P p0) in
            q0 <> EmptyString -> q0 <> "." ->
            exists q', In q' r /\ strings_ToLower P q' = strings_ToLower P q0)).
    { intros r -> Hwhy.
      destruct (IH seen cleaned Hseen Hd Hne) as (D & N & (extra & E & S) & C).
      split; [exact D|]. split; [exact N|]. split.
      - exists extra. split; [exact E|]. simpl. now constructor.
      - intros p0 [<-|Hp0]; [|now apply C].
        cbv zeta. fold q. intros Hq1 Hq2.
        destruct Hwhy as [H|[H|H]]; try contradiction.
        apply Hseen in H. apply in_map_iff in H as (q' & Hlow & Hq').
        exists q'. split; [|exact Hlow].
        rewrite E. apply in_app_iff. now left. }
    destruct (String.eqb q EmptyString) eqn:E1; cbn [orb].
    { apply (Hskip _ eq_refl). left. now apply String.eqb_eq. }
    destruct (String.eqb q ".") eqn:E2; cbn [orb].
    { apply (Hskip _ eq_refl). right. left. now apply String.eqb_eq. }
    destruct (existsb (String.eqb (strings_ToLower P q)) seen) eqn:E3.
    { apply (Hskip _ eq_refl). right. right. now apply existsb_eqb_In. }
    apply String.eqb_neq in E1, E2.
    assert (Hnew : ~ In (strings_ToLower P q) seen).
    { intro H. apply existsb_eqb_In in H. congruence. }
    destruct (IH (strings_ToLower P q :: seen) (cleaned ++ [q])%list)
      as (D & N & (extra & E & S) & C).
    + intro k. rewrite map_app, in_app_iff. simpl. rewrite Hseen. tauto.
    + rewrite map_app. simpl. apply NoDup_snoc; [assumption|].
      intro H. now apply Hnew, Hseen.
    + intros q0 Hq0. apply in_app_iff in Hq0 as [Hq0|[<-|[]]]; auto.
    + cbv zeta. split; [exact D|]. split; [exact N|]. split.
      * exists (q :: extra). split; [now rewrite E, <- app_assoc|].
        simpl. now constructor.
      * intros p0 [<-|Hp0]; [|now apply C].
        cbv zeta. fold q. intros _ _. exists q. split; [|reflexivity].
        rewrite E. apply in_app_iff. left. apply in_app_iff. right. now left.
Qed.

(** what [sanitize] keeps, for the loading of the configuration *)
Lemma sanitize_spec (ps : list string) :
  let clean := fun p => filepath_Clean P (strings_TrimSpace P p) in
  let r := cfg.sanitize P ps in
  NoDup (map (strings_ToLower P) r)
  /\ distinctBy ASCII.EqualFold r
  /\ (forall q, In q r -> q <> EmptyString /\ q <> ".")
  /\ Subsequence r (map clean ps)
  /\ (forall p, In p ps -> clean p <> EmptyString -> clean p <> "." ->
        exists q', In q' r /\ strings_ToLower P q' = strings_ToLower P (clean p)).
Proof.
  intros clean r. subst r. unfold cfg.sanitize.
  destruct (sanitizeLoop_spec ps [] []) as (D & N & (extra & E & S) & C);
    try easy; [constructor|].
  cbv zeta in *. split; [exact D|]. split; [now apply distinct_keys_distinct|].
  split; [exact N|]. split; [|exact C].
  simpl in E. now rewrite E.
Qed.

(** X7.  The custom paths [Load] keeps of those read from the file: each
    is a path of the file, trimmed and cleaned; none is empty or the
    current directory; no two have the same key, the path in lower
    case, so no two differ only in the case of ASCII letters; they come
    in the order of the file; and for every usable path of the file a
    path with the same key is kept. *)
Theorem sanitize_custom_paths (ps : list string) :
  let clean := fun p => filepath_Clean P (strings_TrimSpace P p) in
  let r := cfg.sanitize P ps in
  NoDup (map (strings_ToLower P) r)
  /\ distinctBy ASCII.EqualFold r
  /\ (forall q, In q r -> q <> EmptyString /\ q <> ".")
  /\ Subsequence r (map clean ps)
  /\ (forall p, In p ps -> clean p <> EmptyString -> clean p <> "." ->
        exists q', In q' r /\ strings_ToLower P q' = strings_ToLower P (clean p)).
Proof. apply sanitize_spec. Qed.

End Sanitize.

Lemma sanitize_custom_paths_witness :
  cfg.sanitize winpath.lib scenario.rawPaths = ["C:\Java\jdk-17"; "D:\jdk-21"]
  /\ NoDup (map ASCII.ToLower (cfg.sanitize winpath.lib scenario.rawPaths)).
Proof.
  split; [reflexivity|].
  exact (proj1 (sanitize_custom_paths winpath.lib winpath_lawful scenario.rawPaths)).
Defined.

Section LoadConfig.
Variable h : Host.
Hypothesis HP : Lawful (paths h).
Variable unmarshal : list Byte.byte -> config.Config -> config.Config + error.

Lemma Stat_run p w :
  sys.Stat h p w
  = (match refuses h (os_Stat p) with
     | Some e => sys.StatFailed e
     | None => match files w p with Some _ => sys.StatOK | None => sys.StatNotExist end
     end, logCall (os_Stat p) w).
Proof. unfold sys.Stat. run_sys. step. now destruct (refuses h (os_Stat p)). Qed.

Lemma ReadFile_run p w :
  sys.ReadFile h p w
  = (match refuses h (os_ReadFile p) with
     | Some e => inr e
     | None => match files w p with
               | Some (File data) => inl data
               | Some Dir => inr ErrIsDir
               | None => inr ErrNotExist
               end
     end, logCall (os_ReadFile p) w).
Proof. unfold sys.ReadFile. run_sys. step. now destruct (refuses h (os_ReadFile p)). Qed.

Lemma getConfigPath_frame w :
  files (snd (cfg.getConfigPath h w)) = files w
  /\ config (snd (cfg.getConfigPath h w)) = config w
  /\ saved (snd (cfg.getConfigPath h w)) = saved w.
Proof.
  unfold cfg.getConfigPath. run_sys. step.
  destruct (negb (String.eqb (getenv h "XDG_CONFIG_HOME") EmptyString)); step; auto.
Qed.

(** X8.  [Load] only reads: it asks for the home directory, stats and reads
    the file.  What it returns without error has custom paths with
    distinct keys, so pairwise distinct up to the case of ASCII letters,
    and free of empty paths; when there is no file, it is the empty
    configuration. *)
Theorem Load_sanitized_read_only (w : World) :
  let r := cfg.Load h unmarshal w in
  files (snd r) = files w /\ config (snd r) = config w /\ saved (snd r) = saved w
  /\ (forall c, fst r = inl c ->
        NoDup (map (strings_ToLower (paths h)) (config.CustomPaths c))
        /\ distinctBy ASCII.EqualFold (config.CustomPaths c)
        /\ forall q, In q (config.CustomPaths c) -> q <> EmptyString /\ q <> ".")
  /\ (forall p, fst (cfg.getConfigPath h w) = p ->
        refuses h (os_Stat p) = None -> files w p = None ->
        fst r = inl config.empty).
Proof.
  cbv zeta. unfold cfg.Load.
  assert (Hempty : NoDup (map (strings_ToLower (paths h)) (config.CustomPaths config.empty))
                   /\ distinctBy ASCII.EqualFold (config.CustomPaths config.empty)
                   /\ forall q, In q (config.CustomPaths config.empty) ->
                        q <> EmptyString /\ q <> ".").
  { split; [constructor|]. split; [exact I|intros q []]. }
  assert (Hsan : forall c0,
            NoDup (map (strings_ToLower (paths h))
                       (cfg.sanitize (paths h) (config.CustomPaths c0)))
            /\ distinctBy ASCII.EqualFold (cfg.sanitize (paths h) (config.CustomPaths c0))
            /\ forall q, In q (cfg.sanitize (paths h) (config.CustomPaths c0)) ->
                 q <> EmptyString /\ q <> ".").
  { intro c0. destruct (sanitize_spec (paths h) HP (config.CustomPaths c0))
      as (D & A & N & _). auto. }
  rewrite bind_run.
  destruct (getConfigPath_frame w) as (Ff & Fc & Fs).
  set (p := fst (cfg.getConfigPath h w)) in *.
  set (w1 := snd (cfg.getConfigPath h w)) in *.
  rewrite bind_run, Stat_run. cbn [fst snd].
  destruct (refuses h (os_Stat p)) eqn:RS;
    [|destruct (files w1 p) as [n|] eqn:F].
  3: { rewrite ret_run. cbn [fst snd files config saved logCall].
       split; [assumption|]; split; [assumption|]; split; [assumption|]; split.
       - intros c0 [= <-]. apply Hempty.
       - reflexivity. }
  all: rewrite bind_run, ReadFile_run; cbn [fst snd].
  all: destruct (refuses h (os_ReadFile p)) eqn:RR.
  all: try rewrite F.
  all: repeat match goal with
         | |- context [match files ?w0 ?q with _ => _ end] => destruct (files w0 q) as [[d|]|]
         | |- context [match ?n with File _ => _ | Dir => _ end] => destruct n
         | |- context [match unmarshal ?d ?c with _ => _ end] => destruct (unmarshal d c)
         end.
  all: rewrite ret_run; cbn [fst snd files config saved logCall].
  all: split; [assumption|]; split; [assumption|]; split; [assumption|]; split.
  all: try (intros c0 [= <-]; cbn [config.CustomPaths]; apply Hsan).
  all: try (intros c0 E; discriminate E).
  all: intros q Hq HS HF; subst q; try congruence.
  all: rewrite <- Ff in HF; congruence.
Qed.

End LoadConfig.

Lemma Load_sanitized_read_only_witness :
  fst (cfg.Load demo.host scenario.unmarshal demo.world) = inl config.empty
  /\ exists c, fst (cfg.Load demo.host scenario.unmarshal scenario.withConfigFile) = inl c
       /\ distinctBy ASCII.EqualFold (config.CustomPaths c)
       /\ config.CustomPaths c = ["C:\Java\jdk-17"; "D:\jdk-21"].
Proof.
  destruct (Load_sanitized_read_only demo.host winpath_lawful scenario.unmarshal demo.world)
    as (_ & _ & _ & _ & Hnone).
  destruct (Load_sanitized_read_only demo.host winpath_lawful scenario.unmarshal
              scenario.withConfigFile) as (_ & _ & _ & Hsan & _).
  split.
  - apply (Hnone scenario.configFile); reflexivity.
  - eexists. split; [reflexivity|]. split; [|reflexivity].
    apply (Hsan _ eq_refl).
Defined.

(** ** The size shown for a download *)

Lemma scaleLoop_spec : forall (k fuel : nat) (n div : Z) (exp : nat),
  (k < fuel)%nat -> (0 <= n < 1024 ^ (Z.of_nat k + 1))%Z ->
  exists j : nat,
    (j <= k)%nat
    /\ sizes.scaleLoop fuel n div exp = Some ((div * 1024 ^ Z.of_nat j)%Z, (exp + j)%nat)
    /\ (n < 1024 ^ (Z.of_nat j + 1))%Z
    /\ (j = 0%nat \/ (1024 ^ Z.of_nat j <= n)%Z).
Proof.
  induction k as [|k IH]; intros fuel n div exp Hk Hn.
  - destruct fuel as [|fuel]; [lia|]. exists 0%nat. simpl.
    change (1024 ^ (0 + 1))%Z with 1024%Z in Hn.
    destruct (Z.geb_spec n 1024); [lia|].
    rewrite Z.mul_1_r, Nat.add_0_r. repeat split; lia.
  - destruct fuel as [|fuel]; [lia|]. simpl sizes.scaleLoop.
    destruct (Z.geb_spec n 1024) as [Hge|Hlt].
    + assert (Hq : (0 <= Z.quot n 1024 < 1024 ^ (Z.of_nat k + 1))%Z).
      { rewrite Z.quot_div_nonneg by lia. split; [apply Z.div_pos; lia|].
        apply Z.div_lt_upper_bound; [lia|].
        replace (Z.of_nat (S k) + 1)%Z with (Z.succ (Z.of_nat k + 1)) in Hn by lia.
        rewrite Z.pow_succ_r in Hn by lia. lia. }
      destruct (IH fuel (Z.quot n 1024) (div * 1024)%Z (S exp) ltac:(lia) Hq)
        as (j & Hj & E & Hup & Hlow).
      exists (S j). split; [lia|]. rewrite E.
      replace (Z.of_nat (S j)) with (Z.succ (Z.of_nat j)) by lia.
      rewrite Z.pow_succ_r by lia.
      replace (Z.succ (Z.of_nat j) + 1)%Z with (Z.succ (Z.of_nat j + 1)) by lia.
      rewrite Z.pow_succ_r by lia.
      rewrite Z.quot_div_nonneg in Hup, Hlow by lia.
      pose proof (Z.div_mod n 1024 ltac:(lia)) as Hdm.
      pose proof (Z.mod_pos_bound n 1024 ltac:(lia)) as Hmod.
      split; [f_equal; f_equal; lia|]. split; [lia|]. right.
      destruct Hlow as [->|Hlow]; [change (1024 ^ Z.of_nat 0)%Z with 1%Z; lia|lia].
    + exists 0%nat. rewrite Z.mul_1_r, Nat.add_0_r.
      change (1024 ^ (Z.of_nat 0 + 1))%Z with 1024%Z.
      repeat split; lia.
Qed.

(** X9.  [FormatSize] has a unit for every size an [int64] holds: below
    1024 the bytes are printed as they are; from 1024 on the divisor is a
    power of 1024 that fits in an [int64], the size lies between the
    divisor and 1024 times it, and the index into the unit letters is in
    range.  The loop ends within the fuel the model gives it. *)
Theorem FormatSize_unit_in_range (bytes : Z) :
  (bytes < 2 ^ 63)%Z ->
  if Z.ltb bytes 1024 then sizes.FormatSize bytes = Some (sizes.Plain (itoa bytes ++ " B"))
  else exists exp u,
      sizes.FormatSize bytes = Some (sizes.Scaled bytes (1024 ^ (Z.of_nat exp + 1)) u)
      /\ nth_error sizes.units exp = Some u
      /\ (1024 ^ (Z.of_nat exp + 1) <= bytes < 1024 * 1024 ^ (Z.of_nat exp + 1))%Z
      /\ (1024 ^ (Z.of_nat exp + 1) < 2 ^ 63)%Z.
Proof.
  intro Hmax. unfold sizes.FormatSize.
  destruct (Z.ltb_spec bytes 1024) as [Hlt|Hge]; [reflexivity|].
  assert (Hq : (0 <= Z.quot bytes 1024 < 1024 ^ (Z.of_nat 5 + 1))%Z).
  { rewrite Z.quot_div_nonneg by lia. split; [apply Z.div_pos; lia|].
    apply Z.div_lt_upper_bound; [lia|]. change (1024 ^ (Z.of_nat 5 + 1))%Z with (2 ^ 60)%Z.
    lia. }
  destruct (scaleLoop_spec 5 64 (Z.quot bytes 1024) 1024 0 ltac:(lia) Hq)
    as (j & Hj & E & Hup & Hlow).
  rewrite E. simpl Nat.add.
  rewrite Z.quot_div_nonneg in Hup, Hlow by lia.
  pose proof (Z.div_mod bytes 1024 ltac:(lia)) as Hdm.
  pose proof (Z.mod_pos_bound bytes 1024 ltac:(lia)) as Hmod.
  assert (Hpow : (1024 * 1024 ^ Z.of_nat j = 1024 ^ (Z.of_nat j + 1))%Z).
  { rewrite Z.pow_add_r by lia. lia. }
  rewrite Hpow.
  assert (Hunit : exists u, nth_error sizes.units j = Some u).
  { do 6 (destruct j as [|j]; [eexists; reflexivity|]). lia. }
  destruct Hunit as (u & Hu). rewrite Hu.
  exists j, u. split; [reflexivity|]. split; [assumption|]. split.
  - split.
    + rewrite <- Hpow. destruct Hlow as [->|Hlow]; [change (1024 ^ Z.of_nat 0)%Z with 1%Z|]; lia.
    + lia.
  - assert (1024 ^ (Z.of_nat j + 1) <= 1024 ^ (Z.of_nat 5 + 1))%Z
      by (apply Z.pow_le_mono_r; lia).
    change (1024 ^ (Z.of_nat 5 + 1))%Z with (2 ^ 60)%Z in H. lia.
Qed.

Lemma FormatSize_unit_in_range_witness :
  sizes.FormatSize 1023 = Some (sizes.Plain "1023 B")
  /\ exists exp u,
      sizes.FormatSize 5368709120
      = Some (sizes.Scaled 5368709120 (1024 ^ (Z.of_nat exp + 1)) u)
      /\ nth_error sizes.units exp = Some u.
Proof.
  split.
  - exact (FormatSize_unit_in_range 1023 eq_refl).
  - destruct (FormatSize_unit_in_range 5368709120 eq_refl) as (exp & u & E & U & _).
    exists exp, u. split; assumption.
Defined.

(** ** The changelog shown with an update *)

Lemma substring_prefix : forall (n : nat) (s : string),
  exists rest, s = substring 0 n s ++ rest.
Proof.
  induction n as [|n IH]; intros [|c s]; simpl.
  - now exists EmptyString.
  - now exists (String c s).
  - now exists EmptyString.
  - destruct (IH s) as (rest & E). exists rest. now rewrite <- E.
Qed.

Lemma substring_short : forall (n : nat) (s : string),
  (n <= String.length s)%nat -> String.length (substring 0 n s) = n.
Proof.
  induction n as [|n IH]; intros [|c s]; simpl; intro H; try lia; try reflexivity.
  now rewrite IH by lia.
Qed.

Lemma substring_app (pre rest : string) :
  substring 0 (String.length pre) (pre ++ rest) = pre.
Proof.
  induction pre as [|c pre IH]; simpl; [now destruct rest|]. now rewrite IH.
Qed.

Lemma LastIndexByte_range (s : string) (c : ascii) :
  (-1 <= updates.LastIndexByte s c < Z.of_nat (String.length s))%Z.
Proof.
  induction s as [|a s IH]; simpl; [lia|].
  destruct (Z.leb_spec 0 (updates.LastIndexByte s c)); [lia|].
  destruct (Ascii.eqb a c); lia.
Qed.

Lemma LastIndexByte_absent (s : string) (c : ascii) :
  strings.hasByte c s = false <-> updates.LastIndexByte s c = (-1)%Z.
Proof.
  induction s as [|a s IH]; simpl; [easy|].
  pose proof (LastIndexByte_range s c) as R.
  destruct (Z.leb_spec 0 (updates.LastIndexByte s c)) as [H|H].
  - split; intro E; [|lia]. apply orb_false_iff in E as [_ E]. apply IH in E. lia.
  - destruct (Ascii.eqb a c); simpl; [easy|]. rewrite IH. split; intros _; [reflexivity|lia].
Qed.

(** the index is that of the last occurrence *)
Lemma LastIndexByte_at (pre tail : string) (c : ascii) :
  strings.hasByte c tail = false ->
  updates.LastIndexByte (pre ++ String c tail) c = Z.of_nat (String.length pre).
Proof.
  intro H. induction pre as [|a pre IH]; cbn [append updates.LastIndexByte String.length].
  - apply LastIndexByte_absent in H. rewrite H. simpl. now rewrite Ascii.eqb_refl.
  - rewrite IH. destruct (Z.leb_spec 0 (Z.of_nat (String.length pre))); lia.
Qed.

Lemma LastIndexByte_found (s : string) (c : ascii) :
  (0 <= updates.LastIndexByte s c)%Z ->
  exists pre, lastAt c s pre
              /\ Z.of_nat (String.length pre) = updates.LastIndexByte s c.
Proof.
  induction s as [|a s IH]; cbn [updates.LastIndexByte]; [lia|].
  destruct (Z.leb_spec 0 (updates.LastIndexByte s c)) as [H|H].
  - intros _. destruct (IH H) as (pre & (tail & E & Ht) & L).
    exists (String a pre). split.
    + exists tail. split; [now rewrite E|exact Ht].
    + cbn [String.length]. lia.
  - destruct (Ascii.eqb_spec a c) as [->|_]; [|lia]. intros _.
    exists EmptyString. split; [|reflexivity].
    exists s. split; [reflexivity|]. apply LastIndexByte_absent.
    pose proof (LastIndexByte_range s c). lia.
Qed.

Lemma lastAt_index (c : ascii) (s pre : string) :
  lastAt c s pre -> updates.LastIndexByte s c = Z.of_nat (String.length pre).
Proof. intros (tail & -> & H). now apply LastIndexByte_at. Qed.

Lemma lastAt_substring (c : ascii) (s pre : string) :
  lastAt c s pre -> substring 0 (String.length pre) s = pre.
Proof. intros (tail & -> & _). apply substring_app. Qed.

(** X10.  [truncateChangelog] returns the trimmed changelog when it fits,
    and a stand-in text when it is blank, whatever the bound.
    Otherwise it looks at the first [maxLen] bytes of the trimmed
    changelog and returns, followed by three dots: what comes before
    the last line break among them, when that is more than half of
    [maxLen] bytes; else what comes before the last blank, on the same
    condition; else all of them.  With a changelog that is not blank a
    negative bound makes the slice expression panic. *)
Theorem truncateChangelog_bounded (P : Platform) (changelog : string) (maxLen : Z) :
  let trimmed := strings_TrimSpace P changelog in
  let pastMiddle := fun pre : string => (Z.quot maxLen 2 < Z.of_nat (String.length pre))%Z in
  match updates.truncateChangelog P changelog maxLen with
  | None => trimmed <> EmptyString /\ (maxLen < 0)%Z
  | Some t =>
      (trimmed = EmptyString /\ t = "See release notes on GitHub for details.")
      \/ (trimmed <> EmptyString /\ (Z.of_nat (String.length trimmed) <= maxLen)%Z
          /\ t = trimmed)
      \/ (trimmed <> EmptyString /\ (0 <= maxLen < Z.of_nat (String.length trimmed))%Z
          /\ exists first rest pre,
               trimmed = first ++ rest /\ Z.of_nat (String.length first) = maxLen
               /\ t = pre ++ "..."
               /\ ((lastAt updates.newline first pre /\ pastMiddle pre)
                   \/ ((forall p, lastAt updates.newline first p -> ~ pastMiddle p)
                       /\ lastAt " " first pre /\ pastMiddle pre)
                   \/ ((forall p, lastAt updates.newline first p -> ~ pastMiddle p)
                       /\ (forall p, lastAt " " first p -> ~ pastMiddle p)
                       /\ pre = first)))
  end.
Proof.
  cbv zeta. unfold updates.truncateChangelog.
  set (trimmed := strings_TrimSpace P changelog).
  destruct (String.eqb_spec trimmed EmptyString) as [E|NE]; [now left|].
  destruct (Z.leb_spec (Z.of_nat (String.length trimmed)) maxLen) as [Hfit|Hlong];
    [right; left; auto|].
  destruct (Z.ltb_spec maxLen 0) as [Hneg|Hpos]; [auto|].
  right; right. split; [assumption|]. split; [lia|].
  set (cut := substring 0 (Z.to_nat maxLen) trimmed).
  assert (Hlen : Z.of_nat (String.length cut) = maxLen).
  { unfold cut. rewrite substring_short; lia. }
  destruct (substring_prefix (Z.to_nat maxLen) trimmed) as (rest & Hrest). fold cut in Hrest.
  exists cut, rest.
  assert (Hat : forall c,
    (updates.LastIndexByte cut c >? Z.quot maxLen 2)%Z = true ->
    exists pre, substring 0 (Z.to_nat (updates.LastIndexByte cut c)) cut = pre
                /\ lastAt c cut pre
                /\ (Z.quot maxLen 2 < Z.of_nat (String.length pre))%Z).
  { intros c Hc. apply Z.gtb_lt in Hc.
    assert (0 <= Z.quot maxLen 2)%Z by (apply Z.quot_pos; lia).
    destruct (LastIndexByte_found cut c) as (pre & Hpre & L); [lia|].
    exists pre. rewrite <- L, Nat2Z.id. split; [now apply (lastAt_substring c)|].
    split; [exact Hpre|lia]. }
  assert (Hnot : forall c,
    (updates.LastIndexByte cut c >? Z.quot maxLen 2)%Z = false ->
    forall p, lastAt c cut p -> ~ (Z.quot maxLen 2 < Z.of_nat (String.length p))%Z).
  { intros c Hc p Hp. apply lastAt_index in Hp.
    destruct (Z.gtb_spec (updates.LastIndexByte cut c) (Z.quot maxLen 2)); [discriminate|].
    lia. }
  destruct (updates.LastIndexByte cut updates.newline >? Z.quot maxLen 2)%Z eqn:Gn.
  { destruct (Hat _ Gn) as (pre & -> & Hpre & Hmid). exists pre.
    split; [assumption|]. split; [assumption|]. split; [reflexivity|].
    left. auto. }
  destruct (updates.LastIndexByte cut " " >? Z.quot maxLen 2)%Z eqn:Gs.
  { destruct (Hat _ Gs) as (pre & -> & Hpre & Hmid). exists pre.
    split; [assumption|]. split; [assumption|]. split; [reflexivity|].
    right. left. split; [now apply Hnot|]. auto. }
  exists cut. split; [assumption|]. split; [assumption|]. split; [reflexivity|].
  right. right. split; [now apply Hnot|]. split; [now apply Hnot|reflexivity].
Qed.

Example truncateChangelog_values :
  updates.truncateChangelog winpath.lib "  Fixes the installer on Windows  " 20
    = Some "Fixes the installer..."
  /\ updates.truncateChangelog winpath.lib "one two" 6 = Some "one tw..."
  /\ updates.truncateChangelog winpath.lib "  " 3
     = Some "See release notes on GitHub for details."
  /\ updates.truncateChangelog winpath.lib "note" (-1) = None.
Proof. repeat split; reflexivity. Qed.

(** ** How an installation run ends *)

Section Finalize.
Variable h : Host.
Variable isAdmin : bool.

Lemma Save_run w :
  sys.Save h w
  = (refuses h config_Save,
     match refuses h config_Save with
     | Some _ => logCall config_Save w
     | None => setSaved (config (logCall config_Save w)) (logCall config_Save w)
     end).
Proof. unfold sys.Save. run_sys. step. now destruct (refuses h config_Save). Qed.

Lemma SetJavaHome_frame javaPath w :
  let w' := snd (env.SetJavaHome h javaPath w) in
  files w' = files w /\ config w' = config w /\ saved w' = saved w.
Proof.
  cbv zeta. unfold env.SetJavaHome, sys.GetStringValue, sys.SetValue. run_sys. step.
  repeat match goal with
         | |- context [match refuses ?h0 ?c with _ => _ end] => destruct (refuses h0 c); step
         | |- context [match registry ?w0 ?k with _ => _ end] => destruct (registry w0 k); step
         end; auto.
Qed.

Lemma ConfigureEnvironment_frame jdkPath w :
  let w' := snd (installer.ConfigureEnvironment h isAdmin jdkPath w) in
  files w' = files w /\ config w' = config w /\ saved w' = saved w.
Proof.
  cbv zeta. unfold installer.ConfigureEnvironment.
  destruct (negb (String.eqb (getenv h "JAVA_HOME") EmptyString)); [now rewrite ret_run|].
  destruct (negb isAdmin); [now rewrite ret_run|].
  rewrite bind_run, ret_run. apply SetJavaHome_frame.
Qed.

Lemma addRecords_ok : forall ps idx versions scope name w,
  (idx <= List.length versions)%nat ->
  fst (installer.addRecords h idx ps versions scope name w)
  = Nat.leb (idx + List.length ps) (List.length versions).
Proof.
  induction ps as [|path rest IH]; intros idx versions scope name w Hidx.
  - simpl. rewrite Nat.add_0_r. symmetry. now apply Nat.leb_le.
  - cbn [installer.addRecords]. rewrite bind_run.
    destruct (nth_error versions idx) as [version|] eqn:N.
    + rewrite bind_run.
      assert (idx < List.length versions)%nat by (apply nth_error_Some; congruence).
      rewrite IH by lia. simpl List.length. f_equal. lia.
    + rewrite ret_run. apply nth_error_None in N. simpl. symmetry.
      apply Nat.leb_gt. lia.
Qed.

Lemma addRecords_frame : forall ps idx versions scope name w,
  let w' := snd (installer.addRecords h idx ps versions scope name w) in
  files w' = files w /\ saved w' = saved w /\ trace w' = trace w.
Proof.
  induction ps as [|path rest IH]; intros idx versions scope name w; cbv zeta.
  - simpl. auto.
  - cbn [installer.addRecords]. rewrite bind_run.
    set (w1 := snd ((if strings_EqualFold (paths h) scope "user"
                     then sys.modifyConfig (config.AddCustomPath (paths h) path)
                     else ret tt) w)).
    assert (F1 : files w1 = files w /\ saved w1 = saved w /\ trace w1 = trace w).
    { unfold w1. destruct (strings_EqualFold (paths h) scope "user"); auto. }
    destruct (nth_error versions idx) as [version|].
    + rewrite bind_run.
      match goal with
      | |- context [installer.addRecords _ _ _ _ _ _ ?w0] =>
          pose proof (IH (S idx) versions scope name w0) as X; cbv zeta in X;
          destruct X as (A & B & C)
      end.
      rewrite A, B, C. exact F1.
    + rewrite ret_run. exact F1.
Qed.

Lemma finalizeInstallation_result (ps versions : list string)
    (scope distributorName : string) (w : World) :
  fst (installer.finalizeInstallation h isAdmin ps versions scope distributorName w)
  = (if Nat.eqb (List.length ps) (List.length versions)
        || (Nat.eqb (List.length ps) 1 && Nat.leb 1 (List.length versions))
     then installer.Returned None
     else installer.Panicked "index out of range").
Proof.
  unfold installer.finalizeInstallation. rewrite bind_run.
  rewrite addRecords_ok by lia.
  change (0 + List.length ps)%nat with (List.length ps).
  destruct (Nat.leb_spec (List.length ps) (List.length versions)) as [Hle|Hgt];
    cbn [negb].
  - rewrite bind_run, bind_run.
    destruct (Nat.eqb_spec (List.length ps) 1) as [H1|H1].
    + rewrite ret_run. cbn [fst]. destruct versions as [|v vs]; [simpl in Hle; lia|].
      rewrite H1. simpl. now rewrite Bool.orb_true_r.
    + rewrite Bool.orb_false_r.
      destruct (Nat.ltb_spec (List.length ps) (List.length versions)) as [Hlt|Hge];
        rewrite ret_run; cbn [fst].
      * destruct (Nat.eqb_spec (List.length ps) (List.length versions)); [lia|reflexivity].
      * destruct (Nat.eqb_spec (List.length ps) (List.length versions)); [reflexivity|lia].
  - rewrite ret_run. cbn [fst].
    destruct (Nat.eqb_spec (List.length ps) (List.length versions)); [lia|].
    destruct (Nat.eqb_spec (List.length ps) 1) as [H1|H1]; [|reflexivity].
    destruct (Nat.leb_spec 1 (List.length versions)); [lia|reflexivity].
Qed.

Lemma SetJavaHome_extends javaPath w : extends w (snd (env.SetJavaHome h javaPath w)).
Proof.
  unfold env.SetJavaHome, sys.GetStringValue, sys.SetValue. run_sys. step.
  repeat match goal with
         | |- context [match refuses ?h0 ?c with _ => _ end] => destruct (refuses h0 c); step
         | |- context [match registry ?w0 ?k with _ => _ end] => destruct (registry w0 k); step
         end.
  all: unfold extends; step; eexists; rewrite <- ?app_assoc; reflexivity.
Qed.

Lemma ConfigureEnvironment_extends jdkPath w :
  extends w (snd (installer.ConfigureEnvironment h isAdmin jdkPath w)).
Proof.
  unfold installer.ConfigureEnvironment.
  destruct (negb (String.eqb (getenv h "JAVA_HOME") EmptyString)); [apply extends_refl|].
  destruct (negb isAdmin); [apply extends_refl|].
  rewrite bind_run, ret_run. apply SetJavaHome_extends.
Qed.

(** the machine [finalizeInstallation] leaves: that of the recording
    loop when the loop panics; otherwise the configuration of the loop,
    saved unless the save is refused, and the calls of the save and of
    the environment set-up *)
Lemma finalizeInstallation_state (ps versions : list string)
    (scope distributorName : string) (w : World) :
  let r := installer.finalizeInstallation h isAdmin ps versions scope distributorName w in
  let w1 := snd (installer.addRecords h 0 ps versions scope distributorName w) in
  if Nat.leb (List.length ps) (List.length versions)
  then config (snd r) = config w1
       /\ saved (snd r) = match refuses h config_Save with
                          | None => Some (config w1)
                          | Some _ => saved w1
                          end
       /\ exists calls, trace (snd r) = (trace w1 ++ config_Save :: calls)%list
  else snd r = w1.
Proof.
  cbv zeta. unfold installer.finalizeInstallation. rewrite bind_run.
  rewrite addRecords_ok by lia.
  change (0 + List.length ps)%nat with (List.length ps).
  set (w1 := snd (installer.addRecords h 0 ps versions scope distributorName w)).
  destruct (Nat.leb (List.length ps) (List.length versions)); cbn [negb];
    [|reflexivity].
  rewrite bind_run, Save_run. cbn [fst snd]. rewrite bind_run.
  set (w2 := match refuses h config_Save with
             | Some _ => logCall config_Save w1
             | None => setSaved (config (logCall config_Save w1)) (logCall config_Save w1)
             end).
  set (m := match ps with
            | first :: _ => installer.ConfigureEnvironment h isAdmin first
            | [] => ret None
            end).
  assert (F3 : config (snd (m w2)) = config w2 /\ saved (snd (m w2)) = saved w2
               /\ extends w2 (snd (m w2))).
  { unfold m. destruct ps as [|first rest].
    - rewrite ret_run. repeat split. apply extends_refl.
    - pose proof (ConfigureEnvironment_frame first w2) as X. cbv zeta in X.
      destruct X as (_ & A & B). repeat split; auto. apply ConfigureEnvironment_extends. }
  destruct F3 as (Fc3 & Fs3 & (calls & Ft3)).
  assert (E : forall b1 b2 (x y z : installer.outcome),
             snd ((if b1 : bool then ret x
                   else if b2 : bool then ret y else ret z : M installer.outcome)
                    (snd (m w2))) = snd (m w2))
    by (intros [] [] x y z; reflexivity).
  rewrite E, Fc3, Fs3, Ft3.
  unfold w2. destruct (refuses h config_Save); step; repeat split; try reflexivity.
  all: exists calls; now rewrite <- app_assoc.
Qed.

(** X11.  [finalizeInstallation] never returns an error: a failed save and a
    failed environment set-up are only printed.  It returns nil when the
    paths and the versions are as many, or there is one path and at least
    one version; in every other case an index runs out of range and the
    program panics: in the loop that records the installations when the
    versions are fewer than the paths, before anything is saved, and in
    the summary, after the save, when they are more. *)
Theorem finalizeInstallation_outcome (paths versions : list string)
    (scope distributorName : string) (w : World) :
  let r := installer.finalizeInstallation h isAdmin paths versions scope distributorName w in
  let np := List.length paths in
  let nv := List.length versions in
  fst r = (if Nat.eqb np nv || (Nat.eqb np 1 && Nat.leb 1 nv)
           then installer.Returned None
           else installer.Panicked "index out of range")
  /\ saved (snd r)
     = (if Nat.leb np nv
        then match refuses h config_Save with
             | None => Some (config (snd r))
             | Some _ => saved w
             end
        else saved w)
  /\ (In config_Save (trace (snd r)) <-> In config_Save (trace w) \/ (np <= nv)%nat).
Proof.
  cbv zeta. split; [apply finalizeInstallation_result|].
  pose proof (finalizeInstallation_state paths versions scope distributorName w) as S.
  cbv zeta in S.
  pose proof (addRecords_frame paths 0 versions scope distributorName w) as X.
  cbv zeta in X. destruct X as (_ & Fs & Ft).
  destruct (Nat.leb_spec (List.length paths) (List.length versions)) as [Hle|Hgt].
  - destruct S as (Sc & Ss & (calls & St)). split.
    + rewrite Ss, Sc, Fs. reflexivity.
    + rewrite St, Ft, !in_app_iff. simpl. intuition.
  - rewrite S, Fs, Ft. split; [reflexivity|]. intuition lia.
Qed.

End Finalize.

(** ** What an installation run records *)

Section Records.
Variable h : Host.
Variable isAdmin : bool.
Hypothesis HP : Lawful (paths h).

Lemma find_replaceByPath_other (f : config.InstalledJDK -> bool) jdk : forall l l',
  config.replaceByPath (paths h) jdk l = Some l' ->
  f jdk = false ->
  (forall e, strings_EqualFold (paths h) (config.Path e) (config.Path jdk) = true -> f e = false) ->
  find f l' = find f l.
Proof.
  induction l as [|x l IH]; simpl; intros l' R Hj He; [discriminate|].
  destruct (strings_EqualFold (paths h) (config.Path x) (config.Path jdk)) eqn:E.
  - injection R as <-. simpl. now rewrite Hj, (He x E).
  - destruct (config.replaceByPath (paths h) jdk l) as [r|]; [|discriminate].
    injection R as <-. simpl. destruct (f x); [reflexivity|]. now apply IH.
Qed.

Lemma find_app_other {A} (f : A -> bool) l y :
  f y = false -> find f (l ++ [y])%list = find f l.
Proof.
  intro Hy. induction l as [|x l IH]; simpl; [now rewrite Hy|].
  destruct (f x); [reflexivity|exact IH].
Qed.

Lemma GetInstalledJDK_other (q : string) (jdk : config.InstalledJDK) (c : config.Config) :
  strings_EqualFold (paths h) (filepath_Clean (paths h) (config.Path jdk))
                    (filepath_Clean (paths h) q) = false ->
  cfg.GetInstalledJDK (paths h) q (config.AddInstalledJDK (paths h) jdk c)
  = cfg.GetInstalledJDK (paths h) q c.
Proof.
  intro Hne. unfold cfg.GetInstalledJDK, config.AddInstalledJDK. cbv zeta.
  cbn [config.InstalledJDKs].
  set (stored := {| config.Version := config.Version jdk;
                    config.Path := filepath_Clean (paths h) (config.Path jdk);
                    config.Distributor := config.Distributor jdk;
                    config.InstalledAt := config.InstalledAt jdk;
                    config.Scope := config.Scope jdk |}).
  destruct (config.replaceByPath (paths h) stored (config.InstalledJDKs c)) as [l|] eqn:R.
  - apply (find_replaceByPath_other _ stored _ _ R); [exact Hne|].
    intros e He. cbv beta.
    destruct (strings_EqualFold (paths h) (config.Path e) (filepath_Clean (paths h) q)) eqn:E;
      [|reflexivity].
    rewrite (EqualFold_sym (paths h) HP) in He.
    pose proof (EqualFold_trans (paths h) HP _ _ _ He E) as T. cbn [config.Path stored] in T.
    unfold stored in T. cbn [config.Path] in T. congruence.
  - now apply find_app_other.
Qed.

Lemma AddCustomPath_InstalledJDKs path c :
  config.InstalledJDKs (config.AddCustomPath (paths h) path c) = config.InstalledJDKs c.
Proof.
  unfold config.AddCustomPath. cbv zeta.
  repeat match goal with |- context [if ?b then _ else _] => destruct b end; reflexivity.
Qed.

Lemma GetInstalledJDK_AddCustomPath q path c :
  cfg.GetInstalledJDK (paths h) q (config.AddCustomPath (paths h) path c)
  = cfg.GetInstalledJDK (paths h) q c.
Proof. unfold cfg.GetInstalledJDK. now rewrite AddCustomPath_InstalledJDKs. Qed.

Lemma addRecords_cons idx path rest versions scope name w version :
  nth_error versions idx = Some version ->
  installer.addRecords h idx (path :: rest) versions scope name w
  = installer.addRecords h (S idx) rest versions scope name
      (setConfig
         (config.AddInstalledJDK (paths h)
            {| config.Version := version; config.Path := path;
               config.Distributor := name; config.InstalledAt := now h;
               config.Scope := scope |}
            (if strings_EqualFold (paths h) scope "user"
             then config.AddCustomPath (paths h) path (config w) else config w)) w).
Proof.
  intro N. cbn [installer.addRecords]. rewrite bind_run, N, bind_run. f_equal.
  destruct (strings_EqualFold (paths h) scope "user"); destruct w; reflexivity.
Qed.

Lemma addRecords_keeps (q : string) : forall rest idx versions scope name w,
  (forall p, In p rest ->
     strings_EqualFold (paths h) (filepath_Clean (paths h) p) (filepath_Clean (paths h) q) = false) ->
  cfg.GetInstalledJDK (paths h) q
    (config (snd (installer.addRecords h idx rest versions scope name w)))
  = cfg.GetInstalledJDK (paths h) q (config w).
Proof.
  induction rest as [|p rest IH]; intros idx versions scope name w Hne; [reflexivity|].
  destruct (nth_error versions idx) as [version|] eqn:N.
  - rewrite (addRecords_cons _ _ _ _ _ _ _ _ N), IH by (intros; apply Hne; now right).
    cbn [config setConfig].
    rewrite GetInstalledJDK_other by (apply Hne; now left).
    destruct (strings_EqualFold (paths h) scope "user"); [apply GetInstalledJDK_AddCustomPath|reflexivity].
  - cbn [installer.addRecords]. rewrite bind_run, N, ret_run. cbn [snd].
    destruct (strings_EqualFold (paths h) scope "user"); [|reflexivity].
    apply GetInstalledJDK_AddCustomPath.
Qed.

Lemma addRecords_records : forall ps idx versions scope name w i p v,
  nth_error ps i = Some p ->
  nth_error versions (idx + i) = Some v ->
  (forall j q, (i < j)%nat -> nth_error ps j = Some q ->
     strings_EqualFold (paths h) (filepath_Clean (paths h) q) (filepath_Clean (paths h) p) = false) ->
  cfg.GetInstalledJDK (paths h) p
    (config (snd (installer.addRecords h idx ps versions scope name w)))
  = Some {| config.Version := v; config.Path := filepath_Clean (paths h) p;
            config.Distributor := name; config.InstalledAt := now h;
            config.Scope := scope |}.
Proof.
  induction ps as [|x rest IH]; intros idx versions scope name w i p v Hp Hv Hlater.
  - destruct i; discriminate.
  - destruct i as [|i].
    + injection Hp as ->. rewrite Nat.add_0_r in Hv.
      rewrite (addRecords_cons _ _ _ _ _ _ _ _ Hv), addRecords_keeps.
      * cbn [config setConfig].
        exact (AddInstalledJDK_lookup (paths h) HP
                 {| config.Version := v; config.Path := p; config.Distributor := name;
                    config.InstalledAt := now h; config.Scope := scope |} _).
      * intros q Hq. apply In_nth_error in Hq as (j & Hj).
        apply (Hlater (S j)); [lia|exact Hj].
    + assert (Hx : exists vx, nth_error versions idx = Some vx).
      { destruct (nth_error versions idx) eqn:N; [eauto|].
        apply nth_error_None in N. assert (nth_error versions (idx + S i) = None)
          by (apply nth_error_None; lia). congruence. }
      destruct Hx as (vx & Hx).
      rewrite (addRecords_cons _ _ _ _ _ _ _ _ Hx).
      apply (IH _ _ _ _ _ i); [exact Hp|now rewrite Nat.add_succ_comm|].
      intros j q Hj Hq. apply (Hlater (S j)); [lia|exact Hq].
Qed.

(** X12.  With no more paths than versions, [finalizeInstallation] records
    the path at each index with the version at the same index: a lookup
    by the path finds that record in the configuration kept and in the
    one saved, as long as no later path is the same up to case. *)
Theorem finalizeInstallation_records_aligned (ps versions : list string)
    (scope distributorName : string) (w : World) (i : nat) (p v : string) :
  (List.length ps <= List.length versions)%nat ->
  nth_error ps i = Some p ->
  nth_error versions i = Some v ->
  (forall j q, (i < j)%nat -> nth_error ps j = Some q ->
     strings_EqualFold (paths h) (filepath_Clean (paths h) q) (filepath_Clean (paths h) p) = false) ->
  refuses h config_Save = None ->
  let r := installer.finalizeInstallation h isAdmin ps versions scope distributorName w in
  let record := {| config.Version := v; config.Path := filepath_Clean (paths h) p;
                   config.Distributor := distributorName; config.InstalledAt := now h;
                   config.Scope := scope |} in
  cfg.GetInstalledJDK (paths h) p (config (snd r)) = Some record
  /\ option_map (cfg.GetInstalledJDK (paths h) p) (saved (snd r)) = Some (Some record).
Proof.
  intros Hlen Hp Hv Hlater Hsave. cbv zeta.
  pose proof (finalizeInstallation_state h isAdmin ps versions scope distributorName w) as St.
  cbv zeta in St. apply Nat.leb_le in Hlen. rewrite Hlen, Hsave in St.
  destruct St as (Sc & Ss & _). rewrite Sc, Ss. cbn [option_map].
  rewrite (addRecords_records ps 0 versions scope distributorName w i p v Hp Hv Hlater).
  split; reflexivity.
Qed.

(** what [InstallVersion] comes to when the download information cannot
    be had: an error, or, with the spinner ended before the request was
    made and no error of its own, the nil pointer *)
Lemma InstallVersion_fails (d : installer.Distributor) (version scope : string) (w : World) :
  (forall v a w', exists e, fst (installer.GetDownloadURL d v a w') = inr e) ->
  match interrupts h "Fetching download information...",
        refuses h (tea_Run "Fetching download information...") with
  | true, None =>
      fst (installer.InstallVersion h isAdmin d version scope w)
      = installer.InPanic "nil pointer dereference"
  | _, _ =>
      exists e, fst (installer.InstallVersion h isAdmin d version scope w)
                = installer.Normally (EmptyString, Some e)
  end.
Proof.
  intro Hfail. unfold installer.InstallVersion. cbv zeta.
  rewrite bind_run, WithSpinner_cases.
  destruct (interrupts h "Fetching download information..."); cbn [fst snd].
  - destruct (refuses h (tea_Run "Fetching download information..."));
      rewrite ret_run; cbn [fst]; [eauto|reflexivity].
  - destruct (Hfail version (GOARCH h) w) as (fetchErr & ->).
    destruct (refuses h (tea_Run "Fetching download information...")); rewrite ret_run;
      cbn [fst]; eauto.
Qed.

Lemma installEach_none (d : installer.Distributor) (scope : string) :
  (forall v a w', exists e, fst (installer.GetDownloadURL d v a w') = inr e) ->
  forall versions installedPaths w,
    fst (installer.installEach h isAdmin d scope versions installedPaths w)
    = match versions, interrupts h "Fetching download information...",
            refuses h (tea_Run "Fetching download information...") with
      | _ :: _, true, None => installer.InPanic "nil pointer dereference"
      | _, _, _ => installer.Normally installedPaths
      end.
Proof.
  intros Hfail versions. induction versions as [|v rest IH]; intros acc w; [reflexivity|].
  cbn [installer.installEach]. rewrite bind_run.
  pose proof (InstallVersion_fails d v scope w Hfail) as F.
  destruct (interrupts h "Fetching download information...") eqn:Hi;
    destruct (refuses h (tea_Run "Fetching download information...")) eqn:Hr.
  2: now rewrite F.
  all: destruct F as (failure & ->); rewrite IH; now destruct rest.
Qed.

(** X13.  When the download information can be had for no version,
    [RunMultiInstall] does not return nil.  If versions were selected and
    a scope was had, the run ends in a panic, not in an error: every
    installation fails and is skipped, and the summary of
    [finalizeInstallation] indexes the empty list of paths; or, when the
    spinner of the first request is ended before the request was made,
    without an error of its own, [InstallVersion] dereferences the nil
    pointer it was left with. *)
Theorem RunMultiInstall_no_install_succeeds (d : installer.Distributor) (w : World) :
  (forall v a w', exists e, fst (installer.GetDownloadURL d v a w') = inr e) ->
  let r := installer.RunMultiInstall h isAdmin d w in
  let sel := installer.SelectMultipleVersions h d w in
  fst r <> installer.Returned None
  /\ (snd (fst sel) = None -> fst (fst sel) <> [] ->
      snd (fst (installer.SelectInstallScope h isAdmin (snd sel))) = None ->
      fst r = installer.Panicked
                match interrupts h "Fetching download information...",
                      refuses h (tea_Run "Fetching download information...") with
                | true, None => "nil pointer dereference"
                | _, _ => "index out of range"
                end).
Proof.
  intro Hfail. cbv zeta. unfold installer.RunMultiInstall. rewrite bind_run.
  destruct (fst (installer.SelectMultipleVersions h d w)) as [versions [err|]];
    cbn [fst snd].
  { rewrite ret_run. split; [discriminate|]. intro; discriminate. }
  destruct versions as [|v rest]; cbn [List.length Nat.eqb].
  { rewrite ret_run. split; [discriminate|]. intros _ X. now contradiction X. }
  rewrite bind_run.
  destruct (fst (installer.SelectInstallScope h isAdmin
                   (snd (installer.SelectMultipleVersions h d w)))) as [scope [err|]];
    cbn [fst snd].
  { rewrite ret_run. split; [discriminate|]. intros _ _ X. discriminate X. }
  rewrite bind_run, (installEach_none d scope Hfail).
  destruct (interrupts h "Fetching download information...");
    destruct (refuses h (tea_Run "Fetching download information..."));
    rewrite ?ret_run, ?finalizeInstallation_result; cbn; split;
    try discriminate; reflexivity.
Qed.

End Records.

Lemma finalizeInstallation_records_aligned_witness :
  let r := installer.finalizeInstallation demo.host false
             ["C:\Java\jdk-17"; "C:\Java\jdk-21"] ["17"; "21"]
             "user" "Eclipse Adoptium" demo.world in
  option_map (cfg.GetInstalledJDK winpath.lib "C:\Java\jdk-21") (saved (snd r))
  = Some (Some {| config.Version := "21"; config.Path := "C:\Java\jdk-21";
                  config.Distributor := "Eclipse Adoptium";
                  config.InstalledAt := "2025-01-01T00:00:00Z";
                  config.Scope := "user" |}).
Proof.
  cbv zeta.
  refine (proj2 (finalizeInstallation_records_aligned demo.host false winpath_lawful
                   ["C:\Java\jdk-17"; "C:\Java\jdk-21"] ["17"; "21"]
                   "user" "Eclipse Adoptium" demo.world 1 "C:\Java\jdk-21" "21"
                   _ eq_refl eq_refl _ eq_refl)).
  - simpl. lia.
  - intros [|[|[|j]]] q Hj Hq; try lia; discriminate Hq.
Defined.

Lemma RunMultiInstall_no_install_succeeds_witness :
  fst (installer.RunMultiInstall (demo.failing scenario.assetsDown) false
         (installer.AdoptiumDistributor (demo.failing scenario.assetsDown)) demo.world)
  = installer.Panicked "index out of range".
Proof.
  refine (proj2 (RunMultiInstall_no_install_succeeds (demo.failing scenario.assetsDown) false
                   (installer.AdoptiumDistributor (demo.failing scenario.assetsDown))
                   demo.world _) eq_refl _ eq_refl).
  - intros v a w'. eexists. cbn [installer.GetDownloadURL installer.AdoptiumDistributor].
    unfold installer.adoptium_GetDownloadURL. cbv zeta. rewrite bind_run.
    unfold sys.Get. rewrite bind_run, call_run, ret_run. cbn [fst snd].
    cbn [refuses demo.failing scenario.assetsDown].
    replace (String.eqb _ demo.releasesURL) with false by (symmetry; vm_compute; reflexivity).
    rewrite ret_run. reflexivity.
  - vm_compute. discriminate.
Defined.

(** ** The versions the Adoptium service lists *)

Lemma String_ltb_lt s t : String.ltb s t = true <-> String_as_OT.lt s t.
Proof.
  unfold String.ltb, String_as_OT.lt.
  change (String_as_OT.compare s t) with (String.compare s t).
  destruct (String.compare s t); split; intro H; try discriminate; reflexivity.
Qed.

Lemma String_ltb_asym s t : String.ltb s t = true -> String.ltb t s = false.
Proof.
  unfold String.ltb. rewrite (String.compare_antisym s t).
  destruct (String.compare t s); simpl; intro H; try discriminate; reflexivity.
Qed.

(** not below, for strings, is transitive *)
Lemma String_geb_trans s t u :
  String.ltb s t = false -> String.ltb t u = false -> String.ltb s u = false.
Proof.
  intros H1 H2. destruct (String.ltb s u) eqn:E; [|reflexivity].
  apply String_ltb_lt in E.
  destruct (String_as_OT.compare_spec t u) as [Heq|Hlt|Hgt].
  - red in Heq. subst u. apply String_ltb_lt in E. congruence.
  - apply String_ltb_lt in Hlt. congruence.
  - assert (String_as_OT.lt s t) as X
      by (eapply (@RelationClasses.StrictOrder_Transitive _ _ String_as_OT.lt_strorder); eauto).
    apply String_ltb_lt in X. congruence.
Qed.

Lemma ltsMapOf_spec (lts : list Z) (v : Z) :
  installer.ltsMapOf lts v = true <-> In v lts.
Proof.
  unfold installer.ltsMapOf.
  assert (G : forall (m : Z -> bool),
             fold_left (fun m v => fun k => if Z.eqb k v then true else m k) lts m v = true
             <-> In v lts \/ m v = true).
  { induction lts as [|x lts IH]; intro m; simpl.
    - intuition.
    - rewrite IH. destruct (Z.eqb_spec v x); intuition; try congruence. }
  rewrite G. intuition. discriminate.
Qed.

Lemma insertDesc_perm r l : Permutation (installer.insertDesc r l) (r :: l).
Proof.
  induction l as [|x l IH]; simpl; [reflexivity|].
  destruct (String.ltb (installer.Version r) (installer.Version x)); [|reflexivity].
  rewrite IH. apply perm_swap.
Qed.

Lemma sortDesc_perm l : Permutation (installer.sortDesc l) l.
Proof.
  induction l as [|x l IH]; simpl; [reflexivity|].
  rewrite insertDesc_perm. now apply perm_skip.
Qed.

Lemma insertDesc_sorted r l :
  StronglySorted (fun a b => String.ltb (installer.Version a) (installer.Version b) = false) l ->
  StronglySorted (fun a b => String.ltb (installer.Version a) (installer.Version b) = false)
                 (installer.insertDesc r l).
Proof.
  induction l as [|x l IH]; simpl; intro S0.
  - constructor; constructor.
  - inversion S0 as [|? ? Sl Fx]; subst.
    destruct (String.ltb (installer.Version r) (installer.Version x)) eqn:E.
    + constructor; [now apply IH|].
      eapply Permutation_Forall; [symmetry; apply insertDesc_perm|].
      constructor; [now apply String_ltb_asym|exact Fx].
    + constructor; [exact S0|]. constructor; [exact E|].
      eapply Forall_impl; [|exact Fx]. intros y Hy. cbv beta in *.
      eapply String_geb_trans; eauto.
Qed.

Lemma sortDesc_sorted l :
  StronglySorted (fun a b => String.ltb (installer.Version a) (installer.Version b) = false)
                 (installer.sortDesc l).
Proof.
  induction l as [|x l IH]; simpl; [constructor|]. now apply insertDesc_sorted.
Qed.

Section Listing.
Variable h : Host.

(** X14.  When the service answers and its answer decodes,
    [GetAvailableVersions] returns no error and one release for every
    number listed, in descending order of the version text (the byte
    order of strings, not the order of the numbers); a release is
    flagged long-term exactly when its number is among the long-term
    ones. *)
Theorem GetAvailableVersions_sorted_by_text (w : World) (resp : adoptiumReleasesResponse) :
  refuses h (http_Get installer.availableReleasesURL) = None ->
  StatusCode (serves h installer.availableReleasesURL) = 200%Z ->
  refuses h (io_ReadAll installer.availableReleasesURL) = None ->
  decodeReleases h (Body (serves h installer.availableReleasesURL)) = inl resp ->
  let r := fst (installer.adoptium_GetAvailableVersions h w) in
  snd r = None
  /\ Permutation (map installer.Version (fst r)) (map itoa (AvailableReleases resp))
  /\ StronglySorted
       (fun a b => String.ltb (installer.Version a) (installer.Version b) = false) (fst r)
  /\ forall x, In x (fst r) ->
       exists n, In n (AvailableReleases resp) /\ installer.Version x = itoa n
                 /\ (installer.IsLTS x = true <-> In n (AvailableLTSReleases resp)).
Proof.
  intros Hget Hok Hread Hdec. cbv zeta.
  unfold installer.adoptium_GetAvailableVersions. cbv zeta.
  change (installer.adoptiumAPIBase ++ "/info/available_releases")
    with installer.availableReleasesURL.
  unfold sys.Get, sys.ReadAll.
  rewrite !bind_run, !call_run, !ret_run. cbn [fst snd]. rewrite Hget, Hok.
  change (negb (Z.eqb 200 200)) with false. cbv iota.
  rewrite !bind_run, !call_run, !ret_run. cbn [fst snd]. rewrite Hread, Hdec, ret_run.
  cbn [fst snd].
  set (releases := map (fun v => installer.release (itoa v)
                                   (installer.ltsMapOf (AvailableLTSReleases resp) v))
                       (AvailableReleases resp)).
  split; [reflexivity|]. split; [|split].
  - rewrite (sortDesc_perm releases). unfold releases. rewrite map_map. reflexivity.
  - apply sortDesc_sorted.
  - intros x Hx. apply (Permutation_in _ (sortDesc_perm releases)) in Hx.
    unfold releases in Hx. apply in_map_iff in Hx as (n & <- & Hn).
    exists n. split; [exact Hn|]. split; [reflexivity|]. apply ltsMapOf_spec.
Qed.

End Listing.

Lemma GetAvailableVersions_sorted_by_text_witness :
  map installer.Version
      (fst (fst (installer.adoptium_GetAvailableVersions demo.host demo.world)))
  = ["8"; "22"; "21"; "17"; "11"]
  /\ StronglySorted
       (fun a b => String.ltb (installer.Version a) (installer.Version b) = false)
       (fst (fst (installer.adoptium_GetAvailableVersions demo.host demo.world))).
Proof.
  split; [reflexivity|].
  exact (proj1 (proj2 (proj2 (GetAvailableVersions_sorted_by_text demo.host demo.world
                                demo.releases eq_refl eq_refl eq_refl eq_refl)))).
Defined.

(** ** The self-update *)

Section SelfUpdate.
Variable h : Host.

Lemma WriteFile_run path data w :
  sys.WriteFile h path data w
  = match refuses h (os_WriteFile path) with
    | Some e => (Some e, logCall (os_WriteFile path) w)
    | None =>
        match files w path with
        | Some Dir => (Some ErrIsDir, logCall (os_WriteFile path) w)
        | _ => (None, setFiles (update path (Some (File data)) (files w))
                        (logCall (os_WriteFile path) w))
        end
    end.
Proof.
  unfold sys.WriteFile. run_sys. step.
  destruct (refuses h (os_WriteFile path)); [reflexivity|]. step.
  now destruct (files w path) as [[|]|].
Qed.

Lemma UpdateTo_run assetURL assetName cmdPath w :
  updater.UpdateTo h assetURL assetName cmdPath w
  = match refuses h (selfupdate_UpdateTo assetURL assetName cmdPath) with
    | Some e => (Some e, logCall (selfupdate_UpdateTo assetURL assetName cmdPath) w)
    | None =>
        (None, setFiles (update cmdPath (Some (File (assetBinary h assetURL))) (files w))
                 (logCall (selfupdate_UpdateTo assetURL assetName cmdPath) w))
    end.
Proof.
  unfold updater.UpdateTo. rewrite bind_run, call_run. cbn [fst snd].
  now destruct (refuses h (selfupdate_UpdateTo assetURL assetName cmdPath)).
Qed.

(** [copyFile] writes what it read or writes nothing *)
Lemma copyFile_cases src dst w :
  let r := updater.copyFile h src dst w in
  match fst r with
  | None =>
      exists data, files w src = Some (File data)
                   /\ files (snd r) = update dst (Some (File data)) (files w)
                   /\ trace (snd r) = (trace w ++ [os_ReadFile src; os_WriteFile dst])%list
  | Some _ =>
      files (snd r) = files w
      /\ (trace (snd r) = (trace w ++ [os_ReadFile src])%list
          \/ trace (snd r) = (trace w ++ [os_ReadFile src; os_WriteFile dst])%list)
  end.
Proof.
  cbv zeta. unfold updater.copyFile. rewrite bind_run, ReadFile_run. cbn [fst snd].
  destruct (refuses h (os_ReadFile src)); [rewrite ret_run; cbn; auto|].
  destruct (files w src) as [[data|]|]; try (rewrite ret_run; cbn; auto; fail).
  rewrite WriteFile_run.
  destruct (refuses h (os_WriteFile dst)); cbn [fst snd files trace logCall];
    [rewrite <- app_assoc; auto|].
  destruct (files w dst) as [[d|]|]; cbn [fst snd files trace logCall setFiles];
    rewrite <- ?app_assoc; eauto.
Qed.

(** X15.  When [PerformUpdate] returns nil the executable holds the asset of
    the release, and the backup, which holds the executable of before,
    is still on disk: its removal is left to a goroutine that sleeps
    first.  No other file has changed. *)
Theorem PerformUpdate_success (release : Release) (w : World) :
  let exe := executable h in
  let backup := updater.backupPath exe in
  let r := updater.PerformUpdate h release w in
  fst r = None ->
  exists data,
    files w exe = Some (File data)
    /\ files (snd r) exe = Some (File (assetBinary h (AssetURL release)))
    /\ files (snd r) backup = Some (File data)
    /\ (forall p, p <> exe -> p <> backup -> files (snd r) p = files w p)
    /\ trace (snd r)
       = (trace w ++ [os_Executable; os_ReadFile exe; os_WriteFile backup;
                      selfupdate_UpdateTo (AssetURL release) (AssetName release) exe;
                      go_Remove backup])%list.
Proof.
  cbv zeta. unfold updater.PerformUpdate. rewrite bind_run.
  unfold sys.Executable. rewrite bind_run, call_run, ret_run. cbn [fst snd].
  destruct (refuses h os_Executable); [rewrite ret_run; discriminate|].
  rewrite bind_run.
  pose proof (copyFile_cases (executable h) (updater.backupPath (executable h))
                (logCall os_Executable w)) as C. cbv zeta in C.
  destruct (fst (updater.copyFile h (executable h) (updater.backupPath (executable h))
                   (logCall os_Executable w))) as [e|];
    [rewrite ret_run; discriminate|].
  destruct C as (data & Hsrc & Hfiles & Htrace).
  set (w2 := snd (updater.copyFile h (executable h) (updater.backupPath (executable h))
                    (logCall os_Executable w))) in *.
  rewrite !bind_run, !UpdateTo_run.
  destruct (refuses h (selfupdate_UpdateTo (AssetURL release) (AssetName release)
                         (executable h))); cbn [fst snd].
  { rewrite !bind_run.
    destruct (fst (sys.Rename h (updater.backupPath (executable h)) (executable h)
                     (logCall (selfupdate_UpdateTo (AssetURL release) (AssetName release)
                                 (executable h)) w2)));
      rewrite ret_run; discriminate. }
  rewrite !bind_run, !call_run, !ret_run. cbn [fst snd].
  intros _. exists data. cbn [files trace logCall setFiles]. rewrite Hfiles, Htrace.
  cbn [files trace logCall] in *.
  split; [exact Hsrc|]. split; [apply update_same|]. split; [|split].
  - rewrite update_other, update_same; [reflexivity|].
    intro E. pose proof (backupPath_differs (executable h)) as D.
    rewrite E, String.eqb_refl in D. discriminate.
  - intros p Hp Hb. now rewrite !update_other.
  - now rewrite <- !app_assoc.
Qed.

(** X16.  When [PerformUpdate] reports that the backup could not be made, it
    has changed no file and has not called for the update: it has asked
    for the executable path and read the executable, and at most tried
    to write the backup. *)
Theorem PerformUpdate_backup_failure (release : Release) (w : World) (e : error) :
  let exe := executable h in
  let backup := updater.backupPath exe in
  let r := updater.PerformUpdate h release w in
  fst r = Some (Errorf_w "failed to create backup: " e) ->
  files (snd r) = files w
  /\ (trace (snd r) = (trace w ++ [os_Executable; os_ReadFile exe])%list
      \/ trace (snd r) = (trace w ++ [os_Executable; os_ReadFile exe;
                                      os_WriteFile backup])%list).
Proof.
  cbv zeta. unfold updater.PerformUpdate. rewrite bind_run.
  unfold sys.Executable. rewrite bind_run, call_run, ret_run. cbn [fst snd].
  destruct (refuses h os_Executable);
    [rewrite ret_run; unfold Errorf_w; cbn; intros [= H _]; discriminate H|].
  rewrite bind_run.
  pose proof (copyFile_cases (executable h) (updater.backupPath (executable h))
                (logCall os_Executable w)) as C. cbv zeta in C.
  destruct (fst (updater.copyFile h (executable h) (updater.backupPath (executable h))
                   (logCall os_Executable w))) as [e0|].
  { rewrite ret_run. cbn [fst snd]. intros _. destruct C as (Hf & Ht).
    split; [exact Hf|]. cbn [trace logCall] in Ht.
    destruct Ht as [Ht|Ht]; rewrite Ht, <- app_assoc; auto. }
  rewrite !bind_run, !UpdateTo_run.
  destruct (refuses h (selfupdate_UpdateTo (AssetURL release) (AssetName release)
                         (executable h))); cbn [fst snd].
  - rewrite !bind_run.
    match goal with |- context [sys.Rename h ?a ?b ?w0] =>
      destruct (fst (sys.Rename h a b w0)) end;
      rewrite ret_run; unfold Errorf_w; cbn; intros [= H]; discriminate H.
  - rewrite !bind_run, !call_run, !ret_run. cbn [fst snd]. discriminate.
Qed.

(** X17.  What a check for updates leaves behind.  When a release is found the
    time of the check is recorded in the configuration and a save is
    tried, whether or not the release is offered; it is offered exactly
    when it is newer than the running version and is not the version the
    user chose to skip.  When the query fails or finds nothing, nothing
    is recorded and nothing saved. *)
Theorem CheckForUpdate_records_check (currentVersion : string) (w : World) :
  let r := updater.CheckForUpdate h currentVersion w in
  match refuses h selfupdate_DetectLatest, latestRelease h with
  | None, Some latest =>
      config (snd r) = config.setLastCheck (now h) (config w)
      /\ saved (snd r) = match refuses h config_Save with
                         | None => Some (config.setLastCheck (now h) (config w))
                         | Some _ => saved w
                         end
      /\ fst r = (if negb (LessOrEqual latest currentVersion)
                     && negb (String.eqb (config.SkipVersion (config.Update (config w)))
                                         (rel_Version latest))
                  then (Some latest, None) else (None, None))
  | _, _ =>
      config (snd r) = config w /\ saved (snd r) = saved w
      /\ fst (fst r) = None /\ snd (fst r) <> None
  end.
Proof.
  cbv zeta. unfold updater.CheckForUpdate. rewrite bind_run, call_run. cbn [fst snd].
  destruct (refuses h selfupdate_DetectLatest);
    [rewrite ret_run; repeat split; discriminate|].
  destruct (latestRelease h) as [latest|];
    [|rewrite ret_run; repeat split; discriminate].
  unfold sys.modifyConfig, sys.getConfig.
  rewrite bind_run. cbn [fst snd]. rewrite bind_run, Save_run. cbn [fst snd].
  destruct (LessOrEqual latest currentVersion); cbn [negb andb].
  - rewrite ret_run. cbn [fst snd].
    destruct (refuses h config_Save); cbn [config saved logCall setSaved setConfig]; auto.
  - rewrite bind_run. cbn [fst snd].
    destruct (refuses h config_Save); cbn [config saved logCall setSaved setConfig];
      cbn [config.setLastCheck config.Update config.SkipVersion];
      destruct (String.eqb (config.SkipVersion (config.Update (config w)))
                           (rel_Version latest));
      rewrite ret_run; cbn [fst snd config saved logCall setSaved setConfig negb]; auto.
Qed.

(** X18.  A version skipped is not offered again: after [SkipVersion], a check
    that finds the release of that version returns neither a release nor
    an error, even if the configuration could not be saved. *)
Theorem SkipVersion_silences_update (currentVersion : string) (latest : Release)
    (w : World) :
  refuses h selfupdate_DetectLatest = None ->
  latestRelease h = Some latest ->
  let w' := snd (updates.SkipVersion h (rel_Version latest) w) in
  fst (updater.CheckForUpdate h currentVersion w') = (None, None)
  /\ config.SkipVersion (config.Update (config w')) = rel_Version latest.
Proof.
  intros Hdetect Hlatest. cbv zeta.
  assert (Hskip : config.SkipVersion
                    (config.Update (config (snd (updates.SkipVersion h (rel_Version latest) w))))
                  = rel_Version latest).
  { unfold updates.SkipVersion, sys.modifyConfig. rewrite bind_run, Save_run. cbn [fst snd].
    destruct (refuses h config_Save); reflexivity. }
  split; [|exact Hskip].
  unfold updater.CheckForUpdate. rewrite bind_run, call_run. cbn [fst snd].
  rewrite Hdetect, Hlatest.
  unfold sys.modifyConfig, sys.getConfig.
  rewrite bind_run. cbn [fst snd]. rewrite bind_run, Save_run. cbn [fst snd].
  destruct (LessOrEqual latest currentVersion); [reflexivity|].
  rewrite bind_run. cbn [fst snd].
  match goal with
  | |- context [String.eqb ?a ?b] =>
      replace (String.eqb a b) with true; [reflexivity|]
  end.
  symmetry. apply String.eqb_eq.
  destruct (refuses h config_Save); cbn [config logCall setSaved setConfig];
    cbn [config.setLastCheck config.Update config.SkipVersion]; exact Hskip.
Qed.

End SelfUpdate.

Lemma PerformUpdate_success_witness :
  let r := updater.PerformUpdate scenario.withRelease demo.newRelease demo.installed in
  files (snd r) "C:\Tools\jv.exe" = Some (File (list_byte_of_string "jv 2.0"))
  /\ files (snd r) "C:\Tools\jv.exe.backup" = Some (File (list_byte_of_string "jv 1.0")).
Proof.
  cbv zeta.
  destruct (PerformUpdate_success scenario.withRelease demo.newRelease demo.installed eq_refl)
    as (data & Hold & Hnew & Hbackup & _).
  split; [exact Hnew|]. refine (eq_trans Hbackup _). rewrite <- Hold. reflexivity.
Defined.

Lemma PerformUpdate_backup_failure_witness :
  files (snd (updater.PerformUpdate demo.host demo.newRelease demo.world))
  = files demo.world.
Proof.
  exact (proj1 (PerformUpdate_backup_failure demo.host demo.newRelease demo.world
                  ErrNotExist eq_refl)).
Defined.

Lemma SkipVersion_silences_update_witness :
  fst (updater.CheckForUpdate scenario.withRelease "1.0.0" demo.world)
  = (Some demo.newRelease, None)
  /\ fst (updater.CheckForUpdate scenario.withRelease "1.0.0"
            (snd (updates.SkipVersion scenario.withRelease "2.0.0" demo.world)))
     = (None, None).
Proof.
  split; [reflexivity|].
  exact (proj1 (SkipVersion_silences_update scenario.withRelease "1.0.0" demo.newRelease
                  demo.world eq_refl eq_refl)).
Defined.

(** ** The search path, rewritten again for the same old home *)

Lemma filter_twice {A} (f : A -> bool) l : filter f (filter f l) = filter f l.
Proof.
  induction l as [|x l IH]; simpl; [reflexivity|].
  destruct (f x) eqn:E; simpl; [now rewrite E, IH|exact IH].
Qed.

(** X19.  Rewriting a search path that [updatePath] produced, for the same
    old home, changes nothing, whatever the new homes are: the reference
    put in front is dropped and put in front again, and every segment
    kept once is kept again. *)
Theorem updatePath_same_old_home (P : Platform) (L old new1 new2 : string) :
  Lawful P ->
  env.updatePath P (env.updatePath P L old new1) old new2 = env.updatePath P L old new1.
Proof.
  intro HP. unfold env.updatePath at 1 3. f_equal.
  rewrite !updatePath_segments_filter, (trimmedSegments_updatePath P HP).
  cbn [filter]. rewrite (ref_not_kept P HP). now rewrite filter_twice.
Qed.

Lemma updatePath_same_old_home_witness :
  env.updatePath winpath.lib "%JAVA_HOME%\bin;C:\Windows;C:\Y\bin" "C:\X" "C:\Z"
  = "%JAVA_HOME%\bin;C:\Windows;C:\Y\bin".
Proof.
  exact (updatePath_same_old_home winpath.lib "C:\X\bin; C:\Windows ;C:\Y\bin"
           "C:\X" "C:\Y" "C:\Z" winpath_lawful).
Defined.

(** X20.  [updatePath] loses no other segment: a segment of the search path
    that is not blank, holds no %JAVA_HOME% reference and, when there is
    an old home, does not name it, is a segment of the result, trimmed;
    blank, reference and naming are those of the loop, by
    [strings.TrimSpace], [strings.ToUpper], [strings.EqualFold] and
    [strings.ToLower] as the platform computes them. *)
Theorem updatePath_keeps_other_segments (P : Platform) (L old new p : string) :
  Lawful P ->
  In p (strings.Split L ";") ->
  strings_TrimSpace P p <> EmptyString ->
  env.isHomeRef P (strings_TrimSpace P p) = false ->
  old = EmptyString \/ env.namesHome P old (strings_TrimSpace P p) = false ->
  In (strings_TrimSpace P p) (strings.Split (env.updatePath P L old new) ";").
Proof.
  intros HP Hin Hne Href Hold. rewrite (split_updatePath P HP). right.
  apply filter_In. split; [unfold env.trimmedSegments; now apply in_map|].
  rewrite keeps_spec, Href. fold (env.namesHome P old (strings_TrimSpace P p)).
  apply String.eqb_neq in Hne. rewrite Hne. cbn [negb andb]. rewrite andb_true_r.
  destruct Hold as [Hold|Hold]; rewrite Hold; [reflexivity|]. now rewrite andb_false_r.
Qed.

Lemma updatePath_keeps_other_segments_witness :
  In "C:\Windows"
     (strings.Split (env.updatePath winpath.lib "C:\X\bin; C:\Windows ;;OTHER" "C:\X" "C:\Y")
                    ";").
Proof.
  apply (updatePath_keeps_other_segments winpath.lib "C:\X\bin; C:\Windows ;;OTHER"
           "C:\X" "C:\Y" " C:\Windows " winpath_lawful).
  - right. left. reflexivity.
  - discriminate.
  - reflexivity.
  - right. reflexivity.
Defined.

(** ** Writing the environment *)

Section Environment.
Variable h : Host.

(** X21.  [SetJavaHome] writes JAVA_HOME before it writes Path, and the two
    writes are not undone.  When it returns nil, JAVA_HOME is the cleaned
    path and Path is the rewrite of the Path read, for the home that was
    set before; nothing else in the key has changed.  When it returns an
    error, Path is as it was; JAVA_HOME is as it was too unless it was
    the write of Path that failed, in which case JAVA_HOME already holds
    the new home. *)
Theorem SetJavaHome_outcome (javaPath : string) (w : World) :
  let r := env.SetJavaHome h javaPath w in
  let home := filepath_Clean (paths h) javaPath in
  let oldJavaHome := match refuses h (registry_GetStringValue "JAVA_HOME"),
                           registry w "JAVA_HOME" with
                     | None, Some v => v
                     | _, _ => EmptyString
                     end in
  match fst r with
  | None =>
      exists currentPath,
        registry w "Path" = Some currentPath
        /\ registry (snd r) "JAVA_HOME" = Some home
        /\ registry (snd r) "Path"
           = Some (env.updatePath (paths h) currentPath oldJavaHome home)
        /\ (forall k, k <> "JAVA_HOME" -> k <> "Path" -> registry (snd r) k = registry w k)
        /\ exists calls, trace (snd r) = (trace w ++ calls ++ [broadcastSettingChange])%list
  | Some _ =>
      (forall k, k <> "JAVA_HOME" -> registry (snd r) k = registry w k)
      /\ (registry (snd r) "JAVA_HOME" = registry w "JAVA_HOME"
          \/ (registry (snd r) "JAVA_HOME" = Some home
              /\ refuses h (registry_SetExpandStringValue "Path") <> None))
      /\ exists calls, trace (snd r) = (trace w ++ calls)%list
                       /\ ~ In broadcastSettingChange calls
  end.
Proof.
  cbv zeta. unfold env.SetJavaHome, sys.GetStringValue, sys.SetValue. run_sys. step.
  assert (Hquiet : forall calls : list Call,
             forallb (fun c => match c with broadcastSettingChange => false | _ => true end)
                     calls = true ->
             ~ In broadcastSettingChange calls).
  { intros calls Hc Hin. rewrite forallb_forall in Hc. now apply Hc in Hin. }
  destruct (refuses h registry_OpenKey); step.
  { split; [reflexivity|]. split; [now left|].
    eexists. split; [reflexivity|]. now apply Hquiet. }
  destruct (refuses h (registry_GetStringValue "Path")); step.
  { split; [reflexivity|]. split; [now left|]. rewrite <- !app_assoc.
    eexists. split; [reflexivity|]. now apply Hquiet. }
  destruct (registry w "Path") as [currentPath|] eqn:Hpath; step.
  2: { split; [reflexivity|]. split; [now left|]. rewrite <- !app_assoc.
       eexists. split; [reflexivity|]. now apply Hquiet. }
  destruct (refuses h (registry_GetStringValue "JAVA_HOME")); step;
    destruct (refuses h (registry_SetStringValue "JAVA_HOME")); step;
    try destruct (registry w "JAVA_HOME"); step.
  all: rewrite <- ?app_assoc; cbn [app].
  all: try (split; [reflexivity|]; split; [now left|];
            eexists; split; [reflexivity|]; now apply Hquiet).
  all: destruct (refuses h (registry_SetExpandStringValue "Path")) eqn:Hset; step.
  all: rewrite <- ?app_assoc; cbn [app].
  all: try (split; [intros k Hk; now rewrite update_other|];
            split; [right; split; [apply update_same|discriminate]|];
            eexists; split; [reflexivity|]; now apply Hquiet).
  all: exists currentPath; split; [reflexivity|].
  all: split; [rewrite update_other by discriminate; apply update_same|].
  all: split; [apply update_same|].
  all: split; [intros k Hk1 Hk2; now rewrite !update_other|].
  all: match goal with
       | |- exists calls, (?t ++ ?l)%list = _ => exists (removelast l); reflexivity
       end.
Qed.

End Environment.

(** ** The download, when it succeeds and when the server declines *)

Section DownloadOutcome.
Variable h : Host.

(** X22.  When [DownloadFile] returns nil, the server answered 200, the
    destination holds the body served, as many bytes as the response
    declared, and no other file has changed: the calls made are the
    creation, the request and the copy. *)
Theorem DownloadFile_success (url destPath : string) (w : World) :
  let r := installer.DownloadFile h url destPath w in
  let resp := serves h url in
  fst r = None ->
  StatusCode resp = 200%Z
  /\ files (snd r) destPath = Some (File (Body resp))
  /\ Z.of_nat (List.length (Body resp)) = ContentLength resp
  /\ (forall p, p <> destPath -> files (snd r) p = files w p)
  /\ trace (snd r) = (trace w ++ [os_Create destPath; http_Get url; io_Copy destPath])%list.
Proof.
  cbv zeta. intro Hnil.
  split; [|split; [now apply DownloadFile_content
                  |split; [now apply (DownloadFile_nil_complete h url destPath w)|]]];
    revert Hnil; unfold installer.DownloadFile; run_sys; step.
  all: destruct (refuses h (os_Create destPath)); step; [discriminate|].
  all: destruct (files w destPath) as [[|]|]; step; try discriminate.
  all: destruct (refuses h (http_Get url)); step; [discriminate|].
  all: destruct (Z.eqb_spec (StatusCode (serves h url)) 200); step; [|discriminate].
  all: try (intros _; assumption).
  all: destruct (refuses h (io_Copy destPath)); step; [discriminate|].
  all: destruct (Z.eqb _ _); step; [|discriminate].
  all: intros _; split; [intros p Hp; now rewrite !update_other|now rewrite <- !app_assoc].
Qed.

(** X23.  An answer other than 200 is an error that carries the status; the
    body is not read, and the destination, created before the request,
    is left behind empty. *)
Theorem DownloadFile_status (url destPath : string) (w : World) :
  let r := installer.DownloadFile h url destPath w in
  refuses h (os_Create destPath) = None -> files w destPath <> Some Dir ->
  refuses h (http_Get url) = None ->
  StatusCode (serves h url) <> 200%Z ->
  fst r = Some (errorString ("download failed with status: "
                             ++ itoa (StatusCode (serves h url))))
  /\ files (snd r) destPath = Some (File [])
  /\ trace (snd r) = (trace w ++ [os_Create destPath; http_Get url])%list.
Proof.
  cbv zeta. intros Hcreate Hdir Hget Hstatus.
  unfold installer.DownloadFile. run_sys. step. rewrite Hcreate. step.
  destruct (files w destPath) as [[|]|] eqn:F; step;
    try (exfalso; now apply Hdir).
  all: rewrite Hget; step.
  all: apply Z.eqb_neq in Hstatus; rewrite Hstatus; step.
  all: rewrite update_same, <- app_assoc; auto.
Qed.

End DownloadOutcome.

Lemma DownloadFile_success_witness :
  files (snd (installer.DownloadFile demo.host demo.archiveURL "C:\Temp\jdk-21.zip"
                demo.world)) "C:\Temp\jdk-21.zip"
  = Some (File demo.archive).
Proof.
  exact (proj1 (proj2 (DownloadFile_success demo.host demo.archiveURL "C:\Temp\jdk-21.zip"
                         demo.world eq_refl))).
Defined.

Lemma DownloadFile_status_witness :
  fst (installer.DownloadFile demo.host "https://example.org/missing.zip"
         "C:\Temp\jdk-21.zip" demo.world)
  = Some (errorString "download failed with status: 404").
Proof.
  refine (proj1 (DownloadFile_status demo.host "https://example.org/missing.zip"
                   "C:\Temp\jdk-21.zip" demo.world eq_refl _ eq_refl _)); discriminate.
Defined.

(** ** The listing for several versions *)

Section MultiSelect.
Variable h : Host.
Variable isAdmin : bool.

(** X24.  The selection of several versions does not fall back: when the
    distributor reports an error with its list, as the Adoptium one does
    with its built-in list, and the spinner has run until the list was
    there, [SelectMultipleVersions] returns that error and no version,
    shows no form, and [RunMultiInstall] returns the error.  With the
    spinner ended before, the error is never read: the form is shown
    with no version to tick, and [RunMultiInstall] returns the error of
    the form or that no version was selected. *)
Theorem SelectMultipleVersions_no_fallback (d : installer.Distributor) (w : World)
    (e : error) :
  let fetching := "Fetching available versions from " ++ installer.Name d ++ "..." in
  snd (fst (installer.GetAvailableVersions d w)) = Some e ->
  refuses h (tea_Run fetching) = None ->
  let r := installer.SelectMultipleVersions h d w in
  (interrupts h fetching = false ->
   fst r = ([], Some e)
   /\ trace (snd r)
      = (trace (snd (installer.GetAvailableVersions d w)) ++ [tea_Run fetching])%list
   /\ fst (installer.RunMultiInstall h isAdmin d w) = installer.Returned (Some e))
  /\ (interrupts h fetching = true ->
      fst r = ([], refuses h (huh_Run "Select Java Versions to Install"))
      /\ trace (snd r)
         = (trace w ++ [tea_Run fetching; go_func fetching;
                        huh_Run "Select Java Versions to Install"])%list
      /\ fst (installer.RunMultiInstall h isAdmin d w)
         = installer.Returned
             (Some match refuses h (huh_Run "Select Java Versions to Install") with
                   | Some err => err
                   | None => errorString "no versions selected"
                   end)).
Proof.
  intros fetching Hfetch Hspin. cbv zeta. split; intro Hint.
  - assert (Hsel : installer.SelectMultipleVersions h d w
                   = (([], Some e),
                      logCall (tea_Run fetching)
                              (snd (installer.GetAvailableVersions d w)))).
    { unfold installer.SelectMultipleVersions. fold fetching.
      rewrite bind_run, (WithSpinner_run h _ _ _ Hint).
      cbn [fst snd]. rewrite Hspin.
      destruct (fst (installer.GetAvailableVersions d w)) as [releases fetchErr].
      cbn [snd] in Hfetch. subst fetchErr. reflexivity. }
    split; [now rewrite Hsel|]. split; [now rewrite Hsel|].
    unfold installer.RunMultiInstall. rewrite bind_run, Hsel. reflexivity.
  - assert (Hsel : installer.SelectMultipleVersions h d w
                   = (([], refuses h (huh_Run "Select Java Versions to Install")),
                      logCall (huh_Run "Select Java Versions to Install")
                        (logCall (go_func fetching) (logCall (tea_Run fetching) w)))).
    { unfold installer.SelectMultipleVersions. fold fetching.
      rewrite bind_run, (WithSpinner_interrupted h _ _ _ Hint).
      cbn [fst snd]. rewrite Hspin. cbn [map].
      unfold sys.MultiSelect. rewrite !bind_run, call_run, !ret_run. cbn [fst snd].
      now destruct (refuses h (huh_Run "Select Java Versions to Install")). }
    split; [now rewrite Hsel|]. split.
    + rewrite Hsel. cbn [snd trace logCall]. now rewrite <- !app_assoc.
    + unfold installer.RunMultiInstall. rewrite bind_run, Hsel. cbn [fst snd].
      now destruct (refuses h (huh_Run "Select Java Versions to Install")).
Qed.

End MultiSelect.

(** With the network down the run ends with the error of the listing;
    with ctrl+c pressed while the list is fetched, with the error that
    no version was selected. *)
Lemma SelectMultipleVersions_no_fallback_witness :
  fst (installer.RunMultiInstall (demo.failing demo.offline) false
         (installer.AdoptiumDistributor (demo.failing demo.offline)) demo.world)
  = installer.Returned
      (Some (Errorf_w "API request failed, using fallback versions: "
               (errorString "dial tcp: no route to host")))
  /\ (let pressed :=
        scenario.interrupting "Fetching available versions from Eclipse Adoptium..." in
      fst (installer.RunMultiInstall pressed false
             (installer.AdoptiumDistributor (demo.failing demo.offline)) demo.world)
      = installer.Returned (Some (errorString "no versions selected"))).
Proof.
  split.
  - exact (proj2 (proj2 (proj1 (SelectMultipleVersions_no_fallback
                           (demo.failing demo.offline) false
                           (installer.AdoptiumDistributor (demo.failing demo.offline))
                           demo.world _ eq_refl eq_refl) eq_refl))).
  - exact (proj2 (proj2 (proj2 (SelectMultipleVersions_no_fallback
                           (scenario.interrupting
                              "Fetching available versions from Eclipse Adoptium...") false
                           (installer.AdoptiumDistributor (demo.failing demo.offline))
                           demo.world _ eq_refl eq_refl) eq_refl))).
Defined.

(** ** The directory an archive is taken to unpack to *)

Lemma Split_first (s : string) (sep : ascii) :
  exists first others rest,
    strings.Split s sep = first :: others
    /\ s = first ++ rest
    /\ strings.hasByte sep first = false
    /\ (rest = EmptyString \/ exists r, rest = String sep r).
Proof.
  induction s as [|c s IH]; cbn [strings.Split].
  - exists EmptyString, [], EmptyString. auto.
  - destruct (Ascii.eqb_spec c sep) as [->|Hne].
    + exists EmptyString, (strings.Split s sep), (String sep s). eauto 6.
    + destruct IH as (first & others & rest & E & Hs & Hb & Hr). rewrite E.
      exists (String c first), others, rest. cbn [append strings.hasByte].
      rewrite Hb, <- Hs.
      apply Ascii.eqb_neq in Hne. rewrite Hne. auto.
Qed.

Lemma HasPrefix_short (first rest p : string) :
  strings.HasPrefix (first ++ rest) p = true ->
  (rest = EmptyString \/ exists r, rest = String "/" r) ->
  strings.hasByte "/" p = false ->
  strings.HasPrefix first p = true.
Proof.
  revert p. induction first as [|c first IH]; intros p Hp Hrest Hbyte.
  - destruct p as [|a p]; [reflexivity|]. exfalso.
    cbn [append] in Hp. cbn [strings.hasByte] in Hbyte.
    apply orb_false_iff in Hbyte as [Ha _].
    destruct Hrest as [->|(r & ->)]; cbn [strings.HasPrefix] in Hp; [discriminate|].
    apply andb_true_iff in Hp as [Hp _]. apply Ascii.eqb_eq in Hp. subst a.
    rewrite Ascii.eqb_refl in Ha. discriminate.
  - destruct p as [|a p]; [reflexivity|].
    cbn [append strings.HasPrefix] in Hp |- *. cbn [strings.hasByte] in Hbyte.
    apply andb_true_iff in Hp as [Hc Hp]. rewrite Hc. cbn [andb].
    apply orb_false_iff in Hbyte as [_ Hbyte]. now apply IH.
Qed.

Section Unpacking.
Variable h : Host.

(** the entry the first loop of [ExtractZip] looks for *)
Lemma findRootDir_find (entries : list ZipFile) :
  match find (fun f => zf_IsDir f && strings.HasPrefix (zf_Name f) "jdk") entries with
  | None => installer.findRootDir entries = EmptyString
  | Some f =>
      exists rest,
        zf_Name f = installer.findRootDir entries ++ rest
        /\ strings.HasPrefix (installer.findRootDir entries) "jdk" = true
        /\ strings.hasByte "/" (installer.findRootDir entries) = false
        /\ (rest = EmptyString \/ exists r, rest = String "/" r)
  end.
Proof.
  induction entries as [|f entries IH]; simpl; [reflexivity|].
  destruct (zf_IsDir f && strings.HasPrefix (zf_Name f) "jdk") eqn:E; [|exact IH].
  apply andb_true_iff in E as [_ Hp].
  destruct (Split_first (zf_Name f) "/") as (first & others & rest & -> & Hs & Hb & Hr).
  exists rest. split; [exact Hs|]. split; [|split; assumption].
  rewrite Hs in Hp. now apply (HasPrefix_short first rest).
Qed.

(** X25.  When [ExtractZip] returns no error, the path it returns is the
    destination joined with the first element of the name of the first
    directory entry whose name begins with jdk; that element begins with
    jdk and holds no slash.  When the archive has no such entry, the
    path returned is empty, still without an error. *)
Theorem ExtractZip_path (zipPath destDir : string) (w : World) :
  let r := installer.ExtractZip h zipPath destDir w in
  snd (fst r) = None ->
  exists entries,
    fst (sys.OpenReader h zipPath w) = inl entries
    /\ match find (fun f => zf_IsDir f && strings.HasPrefix (zf_Name f) "jdk") entries with
       | None => fst (fst r) = EmptyString
       | Some f =>
           exists root rest,
             zf_Name f = root ++ rest
             /\ strings.HasPrefix root "jdk" = true
             /\ strings.hasByte "/" root = false
             /\ (rest = EmptyString \/ exists r0, rest = String "/" r0)
             /\ fst (fst r) = filepath_Join (paths h) [destDir; root]
       end.
Proof.
  cbv zeta. unfold installer.ExtractZip. rewrite bind_run.
  destruct (fst (sys.OpenReader h zipPath w)) as [entries|err];
    [|rewrite ret_run; discriminate].
  rewrite bind_run.
  destruct (fst (installer.extractFiles h destDir entries (snd (sys.OpenReader h zipPath w))))
    as [err|]; rewrite ret_run; [discriminate|].
  intros _. exists entries. split; [reflexivity|]. cbn [fst snd].
  pose proof (findRootDir_find entries) as F.
  destruct (find (fun f => zf_IsDir f && strings.HasPrefix (zf_Name f) "jdk") entries)
    as [f|].
  - destruct F as (rest & Hname & Hp & Hb & Hr).
    exists (installer.findRootDir entries), rest. repeat split; try assumption.
    destruct (installer.findRootDir entries); [discriminate Hp|reflexivity].
  - now rewrite F.
Qed.

End Unpacking.

Lemma ExtractZip_path_witness :
  exists root,
    strings.HasPrefix root "jdk" = true
    /\ fst (fst (installer.ExtractZip demo.host "C:\Temp\jdk-21.zip" "C:\Temp\extract"
                   (snd (installer.DownloadFile demo.host demo.archiveURL
                           "C:\Temp\jdk-21.zip" demo.world))))
       = filepath_Join winpath.lib ["C:\Temp\extract"; root].
Proof.
  destruct (ExtractZip_path demo.host "C:\Temp\jdk-21.zip" "C:\Temp\extract"
              (snd (installer.DownloadFile demo.host demo.archiveURL "C:\Temp\jdk-21.zip"
                      demo.world)) eq_refl) as (entries & Hopen & Hfind).
  injection Hopen as <-. cbn [find demo.entries zf_IsDir zf_Name andb] in Hfind.
  destruct Hfind as (root & rest & _ & Hp & _ & _ & Hpath).
  exists root. split; [exact Hp|exact Hpath].
Defined.

(** ** Nothing is removed or moved before the new tree is validated *)

Lemma avoids_refl f w : avoids f w w.
Proof. exists []. now rewrite app_nil_r. Qed.

Lemma avoids_trans f w1 w2 w3 : avoids f w1 w2 -> avoids f w2 w3 -> avoids f w1 w3.
Proof.
  intros (c1 & E1 & F1) (c2 & E2 & F2). exists (c1 ++ c2)%list. split.
  - now rewrite E2, E1, app_assoc.
  - now rewrite forallb_app, F1, F2.
Qed.

Lemma avoids_logCall f w w' c : f c = false -> avoids f w w' -> avoids f w (logCall c w').
Proof.
  intros Hc (cs & E & F). exists (cs ++ [c])%list. split.
  - cbn [trace logCall]. now rewrite E, app_assoc.
  - rewrite forallb_app, F. simpl. now rewrite Hc.
Qed.

Lemma avoiding_ret f {A} (a : A) : avoiding f (ret a).
Proof. intro w. apply avoids_refl. Qed.

Lemma avoiding_bind f {A B} (m : M A) (k : A -> M B) :
  avoiding f m -> (forall a, avoiding f (k a)) -> avoiding f (bind m k).
Proof.
  intros Hm Hk w. rewrite bind_run. eapply avoids_trans; [apply Hm|apply Hk].
Qed.

Lemma avoiding_call f h c : f c = false -> avoiding f (sys.call h c).
Proof. intros Hc w. rewrite call_run. cbn [snd]. now apply avoids_logCall, avoids_refl. Qed.

Lemma avoiding_silent f {A} (m : M A) :
  (forall w, trace (snd (m w)) = trace w) -> avoiding f m.
Proof. intros H w. exists []. now rewrite app_nil_r. Qed.

Ltac avoiding_step :=
  first [ apply avoiding_ret
        | apply avoiding_call; reflexivity
        | apply avoiding_bind; [|intros]
        | match goal with
          | |- avoiding _ (match ?x with _ => _ end) => destruct x
          | |- avoiding _ (if ?b then _ else _) => destruct b
          | |- avoiding _ (fun w => _) =>
              apply avoiding_silent; intro; repeat (step; match goal with
                | |- context [match ?x with _ => _ end] => destruct x end); reflexivity
          end ].

Section Promotion.
Variable h : Host.

Lemma avoiding_MkdirAll p : avoiding isPromotion (sys.MkdirAll h p).
Proof. unfold sys.MkdirAll. repeat avoiding_step. Qed.

Lemma avoiding_truncate c p :
  isPromotion c = false -> avoiding isPromotion (sys.truncate h c p).
Proof.
  intro Hc. unfold sys.truncate. apply avoiding_bind; [now apply avoiding_call|].
  intros. repeat avoiding_step.
Qed.

Lemma avoiding_Open p : avoiding isPromotion (sys.Open h p).
Proof. unfold sys.Open. repeat avoiding_step. Qed.

Lemma avoiding_Stat p : avoiding isPromotion (sys.Stat h p).
Proof. unfold sys.Stat. repeat avoiding_step. Qed.

Lemma avoiding_Copy dst src : avoiding isPromotion (sys.Copy h dst src).
Proof. unfold sys.Copy. repeat avoiding_step. Qed.

Lemma avoiding_Get url : avoiding isPromotion (sys.Get h url).
Proof. unfold sys.Get. repeat avoiding_step. Qed.

Lemma avoiding_OpenReader p : avoiding isPromotion (sys.OpenReader h p).
Proof. unfold sys.OpenReader. repeat avoiding_step. Qed.

Create HintDb avoiding.
#[local] Hint Resolve avoiding_MkdirAll avoiding_Open avoiding_Stat avoiding_Copy
  avoiding_Get avoiding_OpenReader : avoiding.

Ltac avoiding_all :=
  repeat first [ solve [auto with avoiding]
               | apply avoiding_truncate; reflexivity
               | avoiding_step ].

Lemma avoiding_WithSpinner {A} message (fn : M A) :
  avoiding isPromotion fn -> avoiding isPromotion (installer.WithSpinner h message fn).
Proof. intro H. unfold installer.WithSpinner. avoiding_all. Qed.

Lemma avoiding_DownloadFile url destPath :
  avoiding isPromotion (installer.DownloadFile h url destPath).
Proof. unfold installer.DownloadFile, sys.Create. avoiding_all. Qed.

Lemma avoiding_VerifyChecksum filePath expected :
  avoiding isPromotion (installer.VerifyChecksum h filePath expected).
Proof. unfold installer.VerifyChecksum. avoiding_all. Qed.

Lemma avoiding_extractFiles destDir entries :
  avoiding isPromotion (installer.extractFiles h destDir entries).
Proof.
  induction entries as [|file rest IH]; cbn [installer.extractFiles].
  - apply avoiding_ret.
  - unfold sys.OpenFile. avoiding_all.
Qed.

Lemma avoiding_ExtractZip zipPath destDir :
  avoiding isPromotion (installer.ExtractZip h zipPath destDir).
Proof.
  unfold installer.ExtractZip. pose proof (avoiding_extractFiles destDir) as E.
  avoiding_all.
Qed.

(** X26.  In the staged part of [InstallJDK], up to the check that the tree
    unpacked has bin\java.exe, nothing is removed and nothing is moved:
    when it returns an error other than that of the removal of the old
    installation or of the move to the final place, it has made no
    [os.RemoveAll] and no [os.Rename] call, so an installation of that
    version made before is as it was. *)
Theorem installStaged_validates_before_promotion (downloadInfo : installer.DownloadInfo)
    (version installBase tempDir : string) (w : World) (e : error) :
  let r := installer.installStaged h downloadInfo version installBase tempDir w in
  snd (fst r) = Some e ->
  (forall cause, e <> Errorf_w "failed to remove old installation: " cause) ->
  (forall cause, e <> Errorf_w "failed to move JDK to final location: " cause) ->
  avoids isPromotion w (snd r).
Proof.
  cbv zeta. unfold installer.installStaged.
  set (zipPath := filepath_Join (paths h) [tempDir; installer.FileName downloadInfo]).
  set (extractDir := filepath_Join (paths h) [tempDir; "extract"]).
  rewrite bind_run.
  pose proof (avoiding_DownloadFile (installer.URL downloadInfo) zipPath w) as A1.
  set (w1 := snd (installer.DownloadFile h (installer.URL downloadInfo) zipPath w)) in *.
  assert (Hleaf : forall (p : string) (err : error) (w' : World),
             avoids isPromotion w w' ->
             snd (fst (ret (p, Some err) w')) = Some e ->
             (forall cause, e <> Errorf_w "failed to remove old installation: " cause) ->
             (forall cause, e <> Errorf_w "failed to move JDK to final location: " cause) ->
             avoids isPromotion w (snd (ret (p, Some err) w'))).
  { intros p err w' A _ _ _. exact A. }
  destruct (fst (installer.DownloadFile h (installer.URL downloadInfo) zipPath w));
    [now apply Hleaf|].
  rewrite bind_run.
  set (verify := installer.WithSpinner h "Verifying checksum..."
                   (installer.VerifyChecksum h zipPath (installer.Checksum downloadInfo))).
  assert (A2 : avoids isPromotion w (snd (verify w1))).
  { eapply avoids_trans; [exact A1|].
    apply avoiding_WithSpinner, avoiding_VerifyChecksum. }
  set (w2 := snd (verify w1)) in *.
  destruct (fst (verify w1)) as [verified spinnerErr].
  destruct spinnerErr; [now apply Hleaf|].
  destruct (match verified with Some err => err | None => None end); [now apply Hleaf|].
  rewrite bind_run.
  set (extract := installer.WithSpinner h "Extracting JDK..."
                    (installer.ExtractZip h zipPath extractDir)).
  assert (A3 : avoids isPromotion w (snd (extract w2))).
  { eapply avoids_trans; [exact A2|].
    apply avoiding_WithSpinner, avoiding_ExtractZip. }
  set (w3 := snd (extract w2)) in *.
  destruct (fst (extract w2)) as [extracted spinnerErr].
  destruct spinnerErr; [now apply Hleaf|].
  set (extractedPath := match extracted with Some r => fst r | None => EmptyString end).
  destruct (match extracted with Some r => snd r | None => None end); [now apply Hleaf|].
  rewrite bind_run.
  set (javaExe := filepath_Join (paths h) [extractedPath; "bin"; "java.exe"]).
  pose proof (avoiding_Stat javaExe w3) as A4.
  assert (A4' : avoids isPromotion w (snd (sys.Stat h javaExe w3)))
    by (eapply avoids_trans; eassumption).
  destruct (fst (sys.Stat h javaExe w3)); [|now apply Hleaf|].
  all: rewrite bind_run.
  all: set (finalPath := filepath_Join (paths h) [installBase; "jdk-" ++ version]).
  all: set (w5 := snd (sys.Stat h finalPath (snd (sys.Stat h javaExe w3)))).
  all: destruct (fst (sys.Stat h finalPath (snd (sys.Stat h javaExe w3)))).
  all: rewrite bind_run.
  all: try destruct (fst (sys.RemoveAll h finalPath w5)).
  all: try (rewrite ret_run; cbn [fst snd]; intros [= <-] H1 _;
            exfalso; eapply H1; reflexivity).
  all: rewrite ?(ret_run (@None error) w5); cbn [fst snd].
  all: rewrite bind_run.
  all: match goal with
       | |- context [sys.Rename ?h0 ?a ?b ?w0] => destruct (fst (sys.Rename h0 a b w0))
       end.
  all: rewrite ret_run; cbn [fst snd]; try discriminate.
  all: intros [= <-] _ H2; exfalso; eapply H2; reflexivity.
Qed.

End Promotion.

Lemma installStaged_validates_before_promotion_witness :
  let missing := {| installer.URL := "https://example.org/missing.zip";
                    installer.Checksum := pkg_Checksum demo.asset;
                    installer.ChecksumAlgo := "SHA256";
                    installer.Size := 0; installer.FileName := "jdk-21.zip" |} in
  avoids isPromotion demo.world
    (snd (installer.installStaged demo.host missing "21" "C:\Users\ada\.jv"
            "C:\Temp\jv-install" demo.world)).
Proof.
  intro missing.
  refine (installStaged_validates_before_promotion demo.host missing "21" "C:\Users\ada\.jv"
            "C:\Temp\jv-install" demo.world
            (Errorf_w "download failed: "
               (errorString "download failed with status: 404")) eq_refl _ _);
    intros cause H; discriminate H.
Defined.

(** ** The registry is left alone unless the environment is to be set *)

Ltac avoiding_sys :=
  unfold sys.Create, sys.OpenFile, sys.truncate, sys.Get, sys.Copy, sys.Open, sys.Stat,
    sys.MkdirAll, sys.RemoveAll, sys.Rename, sys.ReadFile, sys.WriteFile, sys.ReadAll,
    sys.OpenReader, sys.UserHomeDir, sys.Executable, sys.Select, sys.MultiSelect,
    sys.Save, sys.modifyConfig, sys.getConfig;
  repeat first [ assumption
               | match goal with H : context [avoiding] |- avoiding _ _ => apply H end
               | avoiding_step ].

Section Registry.
Variable h : Host.
Variable isAdmin : bool.
Hypothesis noSetup : isAdmin = false \/ getenv h "JAVA_HOME" <> EmptyString.

Lemma registry_extractFiles destDir entries :
  avoiding isRegistry (installer.extractFiles h destDir entries).
Proof.
  induction entries as [|file rest IH]; cbn [installer.extractFiles]; avoiding_sys.
Qed.

Lemma registry_InstallJDK downloadInfo version distributor isSystemWide :
  avoiding isRegistry (installer.InstallJDK h downloadInfo version distributor isSystemWide).
Proof.
  unfold installer.InstallJDK, installer.installStaged, installer.WithSpinner,
    installer.DownloadFile, installer.VerifyChecksum, installer.ExtractZip.
  pose proof registry_extractFiles as E. avoiding_sys.
Qed.

Lemma registry_ConfigureEnvironment jdkPath :
  avoiding isRegistry (installer.ConfigureEnvironment h isAdmin jdkPath).
Proof.
  unfold installer.ConfigureEnvironment.
  destruct (String.eqb_spec (getenv h "JAVA_HOME") EmptyString) as [E|E]; cbn [negb];
    [|apply avoiding_ret].
  destruct noSetup as [->|N]; [apply avoiding_ret|contradiction].
Qed.

Lemma registry_addRecords : forall ps idx versions scope name,
  avoiding isRegistry (installer.addRecords h idx ps versions scope name).
Proof.
  induction ps as [|path rest IH]; intros; cbn [installer.addRecords]; avoiding_sys.
Qed.

Lemma registry_finalizeInstallation ps versions scope name :
  avoiding isRegistry (installer.finalizeInstallation h isAdmin ps versions scope name).
Proof.
  unfold installer.finalizeInstallation.
  pose proof registry_addRecords as A. pose proof registry_ConfigureEnvironment as C.
  avoiding_sys.
Qed.

Section WithDistributor.
Variable d : installer.Distributor.
Hypothesis listing : avoiding isRegistry (installer.GetAvailableVersions d).
Hypothesis asset : forall v a, avoiding isRegistry (installer.GetDownloadURL d v a).

Lemma registry_InstallVersion version scope :
  avoiding isRegistry (installer.InstallVersion h isAdmin d version scope).
Proof.
  unfold installer.InstallVersion, installer.WithSpinner.
  pose proof registry_InstallJDK as J. avoiding_sys.
Qed.

Lemma registry_installEach scope : forall versions installedPaths,
  avoiding isRegistry (installer.installEach h isAdmin d scope versions installedPaths).
Proof.
  induction versions as [|v rest IH]; intros; cbn [installer.installEach].
  - apply avoiding_ret.
  - pose proof registry_InstallVersion as V. avoiding_sys.
Qed.

(** X27.  An installation run reads and writes the registry only to set the
    environment, which it does for an administrator when the process
    has no JAVA_HOME: for any other user, or with JAVA_HOME set, neither
    the run for one version nor the run for several makes a registry
    call, as long as the distributor makes none. *)
Theorem install_makes_no_registry_call (w : World) :
  avoids isRegistry w (snd (installer.RunSingleInstall h isAdmin d w))
  /\ avoids isRegistry w (snd (installer.RunMultiInstall h isAdmin d w)).
Proof.
  pose proof registry_InstallVersion as V. pose proof registry_installEach as E.
  pose proof registry_finalizeInstallation as F.
  split.
  - revert w. change (avoiding isRegistry (installer.RunSingleInstall h isAdmin d)).
    unfold installer.RunSingleInstall, installer.ShowVersionMenu, installer.WithSpinner,
      installer.SelectInstallScope. avoiding_sys.
  - revert w. change (avoiding isRegistry (installer.RunMultiInstall h isAdmin d)).
    unfold installer.RunMultiInstall, installer.SelectMultipleVersions,
      installer.WithSpinner, installer.SelectInstallScope. avoiding_sys.
Qed.

End WithDistributor.
End Registry.

Lemma registry_adoptium h :
  avoiding isRegistry (installer.GetAvailableVersions (installer.AdoptiumDistributor h))
  /\ forall v a,
       avoiding isRegistry (installer.GetDownloadURL (installer.AdoptiumDistributor h) v a).
Proof.
  cbn [installer.GetAvailableVersions installer.GetDownloadURL installer.AdoptiumDistributor].
  split; [|intros v a].
  - unfold installer.adoptium_GetAvailableVersions. cbv zeta. avoiding_sys.
  - unfold installer.adoptium_GetDownloadURL. cbv zeta. avoiding_sys.
Qed.

Lemma install_makes_no_registry_call_witness :
  avoids isRegistry demo.world
    (snd (installer.RunSingleInstall demo.host false
            (installer.AdoptiumDistributor demo.host) demo.world)).
Proof.
  exact (proj1 (install_makes_no_registry_call demo.host false (or_introl eq_refl)
                  (installer.AdoptiumDistributor demo.host)
                  (proj1 (registry_adoptium demo.host))
                  (proj2 (registry_adoptium demo.host)) demo.world)).
Defined.

(** ** The version the updater compares with *)

Lemma substring_all (s : string) : substring 0 (String.length s) s = s.
Proof. induction s as [|c s IH]; simpl; [reflexivity|now rewrite IH]. Qed.

(** X28.  [cleanVersion] takes one leading v off and no more: a version
    written with the v loses it, a version without it is left as it is,
    and of two leading v the second stays. *)
Theorem cleanVersion_strips_one_v (s : string) :
  updater.cleanVersion ("v" ++ s) = s
  /\ (strings.HasPrefix s "v" = false -> updater.cleanVersion s = s)
  /\ String.length (updater.cleanVersion s) = (String.length s
                                                - if strings.HasPrefix s "v" then 1 else 0)%nat.
Proof.
  assert (Hnil : forall t, strings.HasPrefix t EmptyString = true) by (now intros []).
  unfold updater.cleanVersion, strings.TrimPrefix. repeat split.
  - cbn. rewrite Hnil, Nat.sub_0_r. apply substring_all.
  - now intros ->.
  - destruct s as [|c s]; [reflexivity|]. cbn [strings.HasPrefix]. rewrite Hnil.
    destruct (Ascii.eqb c "v"); cbn [andb].
    + cbn. rewrite !Nat.sub_0_r. now rewrite substring_all.
    + now rewrite Nat.sub_0_r.
Qed.
